(** * bzz: nested-resource CRUD dispatcher, SQLAlchemy provider and auth.

    A shallow embedding of
      - [bzz/providers/sqlalchemy_provider.py]  (module [SQLAlchemyProvider]),
      - [bzz/rest_handler.py]                   (module [ModelRestHandler]),
      - [bzz/auth.py]                           (module [Auth]),
    together with the properties the specification states about them.

    Python objects live in a heap ([gmap] from object ids to objects), so
    that references, aliasing and in-place mutation are the code's.
    Exceptions are values of type [exn]; a function that may raise returns a
    [result]. *)

From Stdlib Require Import ZArith Ascii String Lia.
From stdpp Require Import base option list gmap strings pretty.

#[local] Set Warnings "-register-all".
Local Open Scope Z_scope.

(** ** Python exceptions and results *)

Inductive exn : Type :=
| MaxDepthError
| AttributeError
| KeyError
| ValueError
| IndexError
| TypeError
| ZeroDivisionError
| OverflowError
| RuntimeError
| Finish.                       (* tornado.web.Finish *)

Global Instance exn_eq_dec : EqDecision exn.
Proof. solve_decision. Defined.

Inductive result (A : Type) : Type :=
| Ok (a : A)
| Raise (e : exn).
Global Arguments Ok {A} a.
Global Arguments Raise {A} e.

Global Instance result_eq_dec {A} `{EqDecision A} : EqDecision (result A).
Proof. solve_decision. Defined.

Global Instance result_ret : MRet result := λ A a, Ok a.
Global Instance result_bind : MBind result := λ A B k r,
  match r with
  | Ok a => k a
  | Raise e => Raise e
  end.

Global Instance result_fmap : FMap result := λ A B f r,
  match r with
  | Ok a => Ok (f a)
  | Raise e => Raise e
  end.

(** ** Python sequences *)

(** [l[start:stop]] for arbitrary integers: a negative index counts from
    the end, both ends are clipped to the length. *)
Definition slice_index (len i : Z) : Z :=
  if i <? 0 then Z.max 0 (i + len) else Z.min i len.

Definition py_slice {A} (l : list A) (start stop : Z) : list A :=
  let len := Z.of_nat (length l) in
  let lo := slice_index len start in
  let hi := slice_index len stop in
  take (Z.to_nat (hi - lo)) (drop (Z.to_nat lo) l).

(** ** Python strings *)

(** [sub in s] *)
Fixpoint str_contains (sub s : string) : bool :=
  String.prefix sub s ||
  match s with
  | EmptyString => false
  | String _ s' => str_contains sub s'
  end.

(** [s.split(sep)] for a one-character separator. *)
Fixpoint str_split (sep : ascii) (s : string) : list string :=
  match s with
  | EmptyString => [EmptyString]
  | String c s' =>
      if decide (c = sep) then EmptyString :: str_split sep s'
      else match str_split sep s' with
           | piece :: pieces => String c piece :: pieces
           | [] => [String c EmptyString]
           end
  end.

(** [s.lstrip(c)] for a one-character set. *)
Fixpoint str_lstrip (c : ascii) (s : string) : string :=
  match s with
  | String c' s' => if decide (c' = c) then str_lstrip c s' else s
  | EmptyString => EmptyString
  end.

(** [s.endswith(suffix)] *)
Definition str_endswith (suffix s : string) : bool :=
  String.prefix (String.rev suffix) (String.rev s).

(** [s.replace('[]', '')] *)
Fixpoint strip_brackets (s : string) : string :=
  match s with
  | String "[" (String "]" rest) => strip_brackets rest
  | String c rest => String c (strip_brackets rest)
  | EmptyString => EmptyString
  end.

(** [sep.join(parts)] *)
Definition str_join (sep : string) (parts : list string) : string :=
  String.concat sep parts.

(** ** Python floats

    A [float] is an IEEE 754 double; what [get_list] computes with them:
    the conversion of an integer, the quotient of two converted integers,
    and [math.ceil].  Every result is the double nearest to the exact one,
    a tie going to the even mantissa. *)
Module Float.

(** The integer nearest to [n / d], for [d > 0]; a tie goes to the even
    one. *)
Definition round_half_even (n d : Z) : Z :=
  let q := n / d in
  let r := n mod d in
  if 2 * r <? d then q
  else if d <? 2 * r then q + 1
  else if Z.even q then q else q + 1.

(** [float(n)] of an integer: the double nearest to [n], which is an
    integer itself.  An integer of 53 bits at most is a double; a longer
    one keeps 53 bits, the last of them rounded; past the largest double
    the conversion raises. *)
Definition of_int (n : Z) : result Z :=
  let a := Z.abs n in
  let e := Z.log2 a - 52 in
  if e <=? 0 then Ok n else
  let r := round_half_even a (2 ^ e) * 2 ^ e in
  if 2 ^ 1024 <=? r then Raise OverflowError else Ok (Z.sgn n * r).

(** A double that need not be an integer: [mantissa * 2 ^ exponent]. *)
Record float : Type := Float {
  mantissa : Z;
  exponent : Z
}.

(** The integer part of the binary logarithm of [n / d], for [n] and [d]
    positive. *)
Definition log2_quotient (n d : Z) : Z :=
  let e := Z.log2 n - Z.log2 d in
  if (if 0 <=? e then d * 2 ^ e <=? n else d <=? n * 2 ^ (- e)) then e else e - 1.

(** [a / b] of two doubles that hold the integers [a] and [b]: the
    quotient keeps 53 bits, fewer when it is smaller than the smallest
    normal double; a zero divisor raises.  The quotient of two such
    doubles is never larger than the largest double. *)
Definition truediv (a b : Z) : result float :=
  if decide (b = 0) then Raise ZeroDivisionError else
  if decide (a = 0) then Ok (Float 0 0) else
  let n := Z.abs a in
  let d := Z.abs b in
  let e := Z.max (log2_quotient n d - 52) (-1074) in
  let m := if 0 <=? e then round_half_even n (d * 2 ^ e)
           else round_half_even (n * 2 ^ (- e)) d in
  Ok (Float (Z.sgn a * Z.sgn b * m) e).

(** [int(math.ceil(x))] *)
Definition ceil (x : float) : Z :=
  if 0 <=? exponent x then mantissa x * 2 ^ exponent x
  else - ((- mantissa x) / 2 ^ (- exponent x)).

End Float.

(** ** The object graph *)

Definition oid := nat.

(** Values held by attributes and carried by requests. *)
Inductive value : Type :=
| VNone
| VStr (s : string)
| VInt (z : Z)
| VObj (o : oid)                (* a mapped instance *)
| VList (l : list (option oid)). (* an instrumented list: instances, or [None] *)

Global Instance value_eq_dec : EqDecision value.
Proof. solve_decision. Defined.

(** The plain nested structure produced by serialization: attribute values
    copied as they are, and dicts. *)
Inductive dumped : Type :=
| DVal (v : value)
| DDict (m : gmap string dumped).

(** An instance: its class, the dict its [to_dict] method returns when the
    class defines one, and its attributes. *)
Record object : Type := Object {
  cls : string;
  to_dict : option dumped;
  attrs : gmap string value
}.

(** The session: the heap of instances and the stored rows, in table
    order. *)
Record db : Type := Db {
  heap : gmap oid object;
  table : list oid
}.

Definition class_of (d : db) (o : oid) : option string :=
  cls <$> heap d !! o.

(** [getattr(instance, name)] *)
Definition getattr (d : db) (o : oid) (name : string) : result value :=
  match heap d !! o with
  | Some ob =>
      match attrs ob !! name with
      | Some v => Ok v
      | None => Raise AttributeError
      end
  | None => Raise AttributeError
  end.

(** [setattr(instance, name, v)] *)
Definition setattr (d : db) (o : oid) (name : string) (v : value) : result db :=
  match heap d !! o with
  | Some ob =>
      Ok (Db (<[o := Object (cls ob) (to_dict ob) (<[name := v]> (attrs ob))]> (heap d))
             (table d))
  | None => Raise AttributeError
  end.

(** ** Mapped classes *)

(** A mapper property: a column, or a relationship to the class stored in
    [target_table]. *)
Inductive field : Type :=
| Column
| Relationship (target_table : string) (uselist : bool) (lazy : bool).

Record model : Type := Model {
  m_name : string;                       (* __name__ *)
  m_tablename : option string;           (* __tablename__, when declared *)
  m_fields : gmap string field;          (* mapper.columns + relationships *)
  m_id_field : option string;            (* get_id_field_name().name *)
  (* get_instance_queryset(model, queryset, instance_id, self) *)
  m_instance_queryset : option (db → list oid → value → list oid);
  (* get_list_queryset(queryset, self) *)
  m_list_queryset : option (db → list oid → list oid)
}.

(** [Base._decl_class_registry.values()] *)
Definition registry := list model.

Module SQLAlchemyProvider.

(** The provider: its model, the registry, the request data of the
    handler it is mixed into ([self.get_request_data()], in [items()]
    order), and what it reaches outside these sources: how the database
    behind [self.db] compares a stored value with the one a query gives
    ([column == value]), and what a query becomes when [get_list] filters
    it through [self.get_field]. *)
Record provider : Type := Provider {
  self_model : model;
  classes : registry;
  request_data : list (string * option string);
  column_eq : value → value → bool;
  filter_by : db → list oid → string → value → result (list oid)
}.

Definition is_reference_field (f : option field) : bool :=
  match f with
  | Some (Relationship _ _ _) => true
  | _ => false
  end.

Definition is_list_field (f : option field) : bool :=
  match f with
  | Some (Relationship _ uselist _) => uselist
  | _ => false
  end.

Definition get_model (reg : registry) (f : option field) : option model :=
  match f with
  | Some (Relationship target _ _) =>
      List.find (λ c, bool_decide (m_tablename c = Some target)) reg
  | _ => None
  end.

Definition get_id_field_name (m : model) : result string :=
  let name := default "id"%string (m_id_field m) in
  match m_fields m !! name with
  | Some _ => Ok name
  | None => Raise ValueError
  end.

(** [self.db.query(model)] *)
Definition query (d : db) (m : model) : list oid :=
  List.filter (λ o, bool_decide (class_of d o = Some (m_name m))) (table d).

(** [queryset.filter(column == v)]: the rows whose stored value the
    database equates with [v] *)
Definition filter_eq (self : provider) (d : db) (name : string) (v : value)
    (q : list oid) : list oid :=
  List.filter (λ o, match getattr d o name with
                    | Ok stored => column_eq self stored v
                    | Raise _ => false
                    end) q.

Definition get_instance (self : provider) (d : db)
    (instance_id : value) (m : option model) : result (option oid) :=
  let model := default (self_model self) m in
  let queryset := query d model in
  let queryset :=
    match m_instance_queryset model with
    | Some hook => hook d queryset instance_id
    | None => queryset
    end in
  field ← get_id_field_name model;
  Ok (head (filter_eq self d field instance_id queryset)).

(** [int(math.ceil(count / float(per_page)))]: [per_page] is converted,
    then [count] by the division, which raises on a zero divisor. *)
Definition pages_of (count per_page : Z) : result Z :=
  y ← Float.of_int per_page;
  x ← Float.of_int count;
  Float.ceil <$> Float.truediv x y.

(** The query [get_list] counts and slices: the model's rows, through
    the model's [get_list_queryset] hook when it has one, filtered for
    every item of [filters] in turn. *)
Definition list_queryset (self : provider) (d : db)
    (filters : list (string * value)) : result (list oid) :=
  let queryset := query d (self_model self) in
  let queryset :=
    match m_list_queryset (self_model self) with
    | Some hook => hook d queryset
    | None => queryset
    end in
  foldl (λ acc '(filter_, v), queryset ← acc; filter_by self d queryset filter_ v)
        (Ok queryset) filters.

(** [get_list(page, per_page, filters)]; [queryset[start:stop]] answers
    the rows a list of the query's rows has in that slice. *)
Definition get_list (self : provider) (d : db) (page per_page : Z)
    (filters : list (string * value)) : result (list oid) :=
  queryset ← list_queryset self d filters;
  let count := Z.of_nat (length queryset) in
  pages ← pages_of count per_page;
  if decide (pages = 0) then Ok [] else
  let page := if decide (page > pages) then pages else page in
  let page := page - 1 in
  let start := per_page * page in
  let stop := start + per_page in
  Ok (py_slice queryset start stop).


(** *** Serialization *)

(** A node of the resource tree ([bzz.model], not part of these sources):
    the class the field refers to, when it is a reference, and whether
    the reference is multi-valued. *)
Record node : Type := Node {
  model_type : option string;
  is_multiple : bool
}.

Global Instance node_eq_dec : EqDecision node.
Proof. solve_decision. Defined.

(** [tree.find_by_class(cls).children], a dict from field names to
    nodes; a class the tree does not know has no node. *)
Definition tree := string → option (gmap string node).

(** One turn of the loop of [dump_instance] over the children of the
    instance's node; [dump] is the recursive call at [depth + 1], [None]
    when the recursion budget of the model is exhausted. *)
Definition dump_child (d : db) (o : oid)
    (dump : value → option (result dumped))
    (acc : option (result (gmap string dumped)))
    (child : string * node) : option (result (gmap string dumped)) :=
  let '(node_name, node) := child in
  match acc with
  | Some (Ok result) =>
      match model_type node with
      | Some _ =>
          if is_multiple node then acc
          else match getattr d o node_name with
               | Ok v =>
                   match dump v with
                   | Some (Ok r) => Some (Ok (<[node_name := r]> result))
                   | Some (Raise MaxDepthError) => acc
                   | Some (Raise e) => Some (Raise e)
                   | None => None
                   end
               | Raise e => Some (Raise e)
               end
      | None =>
          match getattr d o node_name with
          | Ok v => Some (Ok (<[node_name := DVal v]> result))
          | Raise e => Some (Raise e)
          end
      end
  | _ => acc
  end.

(** [dump_instance(instance, depth)]; [fuel] bounds the nesting of calls
    in the model only.  A value that is not a mapped instance has no
    [to_dict] and no node in the tree. *)
Fixpoint dump_instance_fuel (fuel : nat) (t : tree) (d : db)
    (instance : value) (depth : nat) : option (result dumped) :=
  match fuel with
  | O => None
  | S fuel =>
      if decide (1 < depth)%nat then Some (Raise MaxDepthError) else
      match instance with
      | VNone => Some (Ok (DDict ∅))
      | VObj o =>
          match heap d !! o with
          | Some ob =>
              match to_dict ob with
              | Some custom => Some (Ok custom)
              | None =>
                  match t (cls ob) with
                  | Some children =>
                      match
                        foldl (dump_child d o
                                 (λ v, dump_instance_fuel fuel t d v (S depth)))
                              (Some (Ok ∅)) (map_to_list children)
                      with
                      | Some (Ok result) => Some (Ok (DDict result))
                      | Some (Raise e) => Some (Raise e)
                      | None => None
                      end
                  | None => Some (Raise AttributeError)
                  end
              end
          | None => Some (Raise AttributeError)
          end
      | VStr _ | VInt _ | VList _ => Some (Raise AttributeError)
      end
  end.

(** The recursion stops at depth 2: one call and [2 - depth] nested ones
    are all that is ever needed. *)
Definition dump_instance (t : tree) (d : db) (instance : value) (depth : nat)
    : option (result dumped) :=
  dump_instance_fuel (S (2 - depth)) t d instance depth.

(** *** Updates *)

Record change : Type := Change {
  from : value;
  to : value
}.

Definition of_request (v : option string) : value :=
  match v with
  | Some s => VStr s
  | None => VNone
  end.

Definition of_instance (i : option oid) : value :=
  match i with
  | Some o => VObj o
  | None => VNone
  end.

(** [str(value)] of a request value *)
Definition py_str (v : option string) : string :=
  default "None"%string v.

(** [getattr] on any value: only mapped instances carry attributes. *)
Definition getattr_value (d : db) (v : value) (name : string) : result value :=
  match v with
  | VObj o => getattr d o name
  | _ => Raise AttributeError
  end.

(** [setattr] on any value; an instrumented list accepts the attribute
    without any change to the mapped data. *)
Definition setattr_value (d : db) (target : value) (name : string) (v : value)
    : result db :=
  match target with
  | VObj o => setattr d o name v
  | VList _ => Ok d
  | _ => Raise AttributeError
  end.

(** [setattr(target, name, v)] on an instance of the mapped class [m], as
    the mapper instruments it: a collection takes a list and nothing
    else, a single-valued relationship takes an instance or [None]; what
    is no relationship of the class takes any value. *)
Definition assign (m : option model) (d : db) (target : value) (name : string)
    (v : value) : result db :=
  match target, m ≫= (λ m, m_fields m !! name) with
  | VObj _, Some (Relationship _ true _) =>
      match v with
      | VList _ => setattr_value d target name v
      | _ => Raise TypeError
      end
  | VObj _, Some (Relationship _ false _) =>
      match v with
      | VObj _ | VNone => setattr_value d target name v
      | _ => Raise AttributeError
      end
  | _, _ => setattr_value d target name v
  end.

(** [instance.__class__], as a mapped class of the registry *)
Definition model_of (reg : registry) (d : db) (v : value) : option model :=
  match v with
  | VObj o =>
      c ← class_of d o;
      List.find (λ m, bool_decide (m_name m = c)) reg
  | _ => None
  end.

(** [field = getattr(model, field_name, None)], then the relationship
    behind an instrumented attribute: [relationships[field.key]] has no
    entry for a column. *)
Definition relationship_of (m : option model) (field_name : string)
    : result (option field) :=
  match m ≫= (λ m, m_fields m !! field_name) with
  | Some Column => Raise KeyError
  | f => Ok f
  end.

(** [fill_property] on [parts = key.split('.')]: [property_name] is
    ['.'.join(parts[1:])], which holds a dot exactly when [parts[1:]] has
    two pieces or more ([StringFacts.str_join_contains]), and splits back
    into [parts[1:]] in the nested call ([StringFacts.str_split_join]).
    The request value is a string or [None], never a list, so the loop
    over [value] has the one item; what [get_instance] answers for it is
    appended, an instance or [None]. *)
Fixpoint fill_property_parts (self : provider) (d : db) (m : option model)
    (instance : value) (parts : list string) (v : option string)
    (updated_fields : option (gmap string change))
    : result (db * option (gmap string change)) :=
  match parts with
  | [] => Raise IndexError
  | part :: rest =>
      let multiple := str_endswith "[]" part in
      let field_name := if multiple then strip_brackets part else part in
      let property_name := str_join "." rest in
      match rest with
      | _ :: _ :: _ =>
          new_instance ← getattr_value d instance field_name;
          fill_property_parts self d (model_of (classes self) d new_instance)
            new_instance rest v None
      | _ =>
          updated_fields ←
            match updated_fields with
            | Some u =>
                old ← getattr_value d instance field_name;
                Ok (Some (<[field_name := Change old (VStr (py_str v))]> u))
            | None => Ok None
            end;
          field ← relationship_of m field_name;
          let child_model := get_model (classes self) field in
          if multiple && is_list_field field then
            list_property ← getattr_value d instance field_name;
            child_instance ← get_instance self d (of_request v) child_model;
            match list_property with
            | VList l =>
                d ← setattr_value d instance field_name (VList (l ++ [child_instance]));
                Ok (d, updated_fields)
            | _ => Raise AttributeError
            end
          else
            target ← getattr_value d instance field_name;
            d ← assign (model_of (classes self) d target) d target property_name
                  (of_request v);
            Ok (d, updated_fields)
      end
  end.

Definition fill_property (self : provider) (d : db) (m : option model)
    (instance : value) (key : string) (v : option string)
    (updated_fields : option (gmap string change))
    : result (db * option (gmap string change)) :=
  fill_property_parts self d m instance (str_split "." key) v updated_fields.

(** [model()]: a new instance, every column unset, every relationship
    empty, serialized through its descriptors. *)
Definition new_instance (m : model) : object :=
  Object (m_name m) None
    ((λ f, match f with
           | Relationship _ true _ => VList []
           | _ => VNone
           end) <$> m_fields m).

(** One turn of the loop of [save_new_instance]. *)
Definition create_field (self : provider) (m : model) (instance : value)
    (d : db) (kv : string * option string) : result db :=
  let '(key, v) := kv in
  if str_contains "." key || str_contains "[]" key then
    '(d, _) ← fill_property self d (Some m) instance key v None;
    Ok d
  else
    let field := m_fields m !! key in
    v ← (if is_reference_field field
         then of_instance <$> get_instance self d (of_request v)
                                (get_model (classes self) field)
         else Ok (of_request v));
    assign (Some m) d instance key v.

(** [save_new_instance(model, data)]: the instance is built, filled
    from [data], added to the session and committed. *)
Definition save_new_instance (self : provider) (d : db) (m : model)
    (data : list (string * option string)) : result (db * (oid * value)) :=
  let o := fresh (dom (heap d)) in
  let d := Db (<[o := new_instance m]> (heap d)) (table d) in
  d ← foldl (λ acc kv, d ← acc; create_field self m (VObj o) d kv) (Ok d) data;
  Ok (Db (heap d) (table d ++ [o]), (o, VNone)).

(** [save_instance]: flush and commit; the session of the model holds no
    pending state of its own. *)
Definition save_instance (d : db) (instance : value) : result (db * (value * value)) :=
  Ok (d, (instance, VNone)).

(** The values [update_instance] hands back, as the items of a tuple. *)
Inductive item : Type :=
| INone
| IInstance (v : value)
| IFields (u : gmap string change).

(** One turn of the loop of [update_instance]. *)
Definition update_field (self : provider) (m : model) (instance : value)
    (st : db * gmap string change) (kv : string * option string)
    : result (db * gmap string change) :=
  let '(d, updated_fields) := st in
  let '(field_name, v) := kv in
  if str_contains "." field_name then
    '(d, u) ← fill_property self d (Some m) instance field_name v (Some updated_fields);
    Ok (d, default updated_fields u)
  else
    let field := m_fields m !! field_name in
    v ← (if is_reference_field field
         then of_instance <$> get_instance self d (of_request v)
                                (get_model (classes self) field)
         else Ok (of_request v));
    old ← getattr_value d instance field_name;
    d ← assign (model_of (classes self) d instance) d instance field_name v;
    Ok (d, <[field_name := Change old v]> updated_fields).

Definition update_loop (self : provider) (m : model) (instance : value)
    (st : db * gmap string change) (data : list (string * option string))
    : result (db * gmap string change) :=
  foldl (λ acc kv, st ← acc; update_field self m instance st kv) (Ok st) data.

(** [update_instance(self, pk, data, model=None, instance=None)].  The
    loop runs over [self.get_request_data()]; [data] is not read. *)
Definition update_instance (self : provider) (d : db) (pk : value)
    (data : list (string * option string))
    (m : option model) (instance : option oid) : result (db * list item) :=
  let m := default (self_model self) m in
  instance ←
    match instance with
    | Some o => Ok (VObj o)
    | None => of_instance <$> get_instance self d pk (Some m)
    end;
  '(d, updated_fields) ← update_loop self m instance (d, ∅) (request_data self);
  '(d, _) ← save_instance d instance;
  Ok (d, [INone; IInstance instance; IFields updated_fields]).

(** [self.db.delete(instance)] *)
Definition db_delete (d : db) (o : oid) : db :=
  Db (heap d) (List.filter (λ o', bool_decide (o' ≠ o)) (table d)).

Definition delete_instance (self : provider) (d : db) (pk : value)
    : result (db * option oid) :=
  instance ← get_instance self d pk None;
  match instance with
  | Some o =>
      '(d, _) ← save_instance (db_delete d o) (VObj o);
      Ok (d, Some o)
  | None => Ok (d, None)
  end.

End SQLAlchemyProvider.

(** ** Field descriptors

    The kinds of the specification's FieldDescriptor, read off a node of the
    resource tree the way [dump_instance] tests it, and the instances the
    descriptors fit. *)
Module Descriptor.
Import SQLAlchemyProvider.

Inductive kind : Type := Scalar | Reference | ReferenceList.

Global Instance kind_eq_dec : EqDecision kind.
Proof. solve_decision. Defined.

Definition kind_of (n : node) : kind :=
  match model_type n with
  | None => Scalar
  | Some _ => if is_multiple n then ReferenceList else Reference
  end.

(** The attribute a descriptor names is there, and a single-valued
    reference holds an instance or nothing. *)
Definition field_ok (ob : object) (name : string) (n : node) : bool :=
  match kind_of n, attrs ob !! name with
  | ReferenceList, _ => true
  | Scalar, Some _ => true
  | Reference, Some (VNone | VObj _) => true
  | _, _ => false
  end.

(** [ob] is an instance of a class of the tree, with the attributes its
    descriptors name, and no serialization method of its own. *)
Definition described (t : tree) (ob : object) (children : gmap string node) : Prop :=
  to_dict ob = None ∧ t (cls ob) = Some children ∧
  map_Forall (λ name n, field_ok ob name n = true) children.

Global Instance described_dec t ob children : Decision (described t ob children).
Proof.
  unfold described. destruct (to_dict ob).
  - right. by intros [? _].
  - destruct (decide (t (cls ob) = Some children ∧
                      map_Forall (λ name n, field_ok ob name n = true) children)).
    + left. by split.
    + right. by intros [_ ?].
Defined.

(** What a single-valued reference may point to: nothing, an instance
    with a serialization method of its own, or a described instance. *)
Definition target_ok (t : tree) (d : db) (v : value) : Prop :=
  match v with
  | VNone => True
  | VObj o =>
      match heap d !! o with
      | Some ob =>
          is_Some (to_dict ob) ∨
          match t (cls ob) with
          | Some children => described t ob children
          | None => False
          end
      | None => False
      end
  | _ => False
  end.

Global Instance target_ok_dec t d v : Decision (target_ok t d v).
Proof.
  unfold target_ok. destruct v; try apply _.
  destruct (heap d !! o); try apply _.
  destruct (t (cls o0)); apply _.
Defined.

(** Every single-valued reference of [ob] has such a target. *)
Definition references_ok (t : tree) (d : db) (ob : object)
    (children : gmap string node) : Prop :=
  map_Forall (λ name n,
    kind_of n = Reference →
    match attrs ob !! name with
    | Some v => target_ok t d v
    | None => True
    end)
    children.

Global Instance references_ok_dec t d ob children :
  Decision (references_ok t d ob children).
Proof.
  unfold references_ok. apply map_Forall_dec. intros name n.
  destruct (attrs ob !! name); apply _.
Defined.

(** What the field [name] contributes to the dict built by
    [dump_instance], [dump] being the nested call. *)
Definition child_entry (d : db) (o : oid)
    (dump : value → option (result dumped))
    (name : string) (n : node) : option dumped :=
  match kind_of n with
  | Scalar =>
      match getattr d o name with
      | Ok v => Some (DVal v)
      | Raise _ => None
      end
  | Reference =>
      match getattr d o name with
      | Ok v =>
          match dump v with
          | Some (Ok r) => Some r
          | _ => None
          end
      | Raise _ => None
      end
  | ReferenceList => None
  end.

(** A field the loop of [dump_instance] can serialize: its attribute is
    there, and the nested call answers or hits the depth ceiling. *)
Definition step_ok (d : db) (o : oid)
    (dump : value → option (result dumped))
    (name : string) (n : node) : Prop :=
  match kind_of n with
  | Scalar => ∃ v, getattr d o name = Ok v
  | Reference =>
      ∃ v, getattr d o name = Ok v ∧
           ((∃ r, dump v = Some (Ok r)) ∨ dump v = Some (Raise MaxDepthError))
  | ReferenceList => True
  end.

End Descriptor.

(** ** Request handlers

    A handler method runs against the state of the request it serves; an
    exception leaves the state as it was when it was raised. *)

(** JSON-like data: token claims, user records, response bodies. *)
Inductive json : Type :=
| JNone
| JBool (b : bool)
| JStr (s : string)
| JTime (t : Z)                  (* a datetime, in microseconds *)
| JDict (m : gmap string json).

(** What [write] is given. *)
Inductive chunk : Type :=
| Text (s : string)
| Json (j : json)
| ErrorPage (code : Z).          (* the page [write_error] renders *)

(** The signals of [bzz.signals], as sent. *)
Inductive signal : Type :=
| post_update_instance (sender : string) (instance : SQLAlchemyProvider.item)
    (updated_fields : SQLAlchemyProvider.item)
| post_delete_instance (sender : string) (instance : oid)
| authorized_user (provider_name : json) (user_data : gmap string json)
| unauthorized_user (provider_name : json).

Record state : Type := State {
  status : Z;
  reason : option string;
  headers : gmap string string;
  cookies : gmap string string;  (* the cookies the response sets *)
  body : list chunk;
  finished : bool;
  signals : list signal;
  store : db;
  ticks : nat                    (* readings of the clock so far *)
}.

Definition handler (A : Type) : Type := state → result A * state.

Global Instance handler_ret : MRet handler := λ A a s, (Ok a, s).
Global Instance handler_bind : MBind handler := λ A B k m s,
  match m s with
  | (Ok a, s') => k a s'
  | (Raise e, s') => (Raise e, s')
  end.

Global Instance handler_fmap : FMap handler := λ A B f m s,
  match m s with
  | (Ok a, s') => (Ok (f a), s')
  | (Raise e, s') => (Raise e, s')
  end.

Definition raise {A} (e : exn) : handler A := λ s, (Raise e, s).

Definition lift {A} (r : result A) : handler A := λ s, (r, s).

Definition modify (f : state → state) : handler () := λ s, (Ok (), f s).

(** [tornado.web.RequestHandler] *)
Module RequestHandler.

Definition set_status (code : Z) (why : option string) : handler () :=
  modify (λ s, State code why (headers s) (cookies s) (body s) (finished s)
                 (signals s) (store s) (ticks s)).

Definition set_header (name v : string) : handler () :=
  modify (λ s, State (status s) (reason s) (<[name := v]> (headers s)) (cookies s)
                 (body s) (finished s) (signals s) (store s) (ticks s)).

Definition set_cookie (name v : string) : handler () :=
  modify (λ s, State (status s) (reason s) (headers s) (<[name := v]> (cookies s))
                 (body s) (finished s) (signals s) (store s) (ticks s)).


Definition write (c : chunk) : handler () := λ s,
  if finished s then (Raise RuntimeError, s)
  else (Ok (), State (status s) (reason s) (headers s) (cookies s)
                 (body s ++ [c]) (finished s) (signals s) (store s) (ticks s)).

Definition finish : handler () := λ s,
  if finished s then (Raise RuntimeError, s)
  else (Ok (), State (status s) (reason s) (headers s) (cookies s)
                 (body s) true (signals s) (store s) (ticks s)).

(** [send_error]: the response is cleared, then the error page written
    and the request finished. *)
Definition send_error (status_code : Z) : handler () :=
  modify (λ s, State status_code None ∅ (cookies s) [ErrorPage status_code] true
                 (signals s) (store s) (ticks s)).

Definition send (sig : signal) : handler () :=
  modify (λ s, State (status s) (reason s) (headers s) (cookies s)
                 (body s) (finished s) (signals s ++ [sig]) (store s) (ticks s)).

End RequestHandler.

(** ** [bzz/rest_handler.py] *)
Module ModelRestHandler.
Import RequestHandler.

(** What [json.dumps] is given by the handler. *)
Inductive json_arg : Type :=
| OfInstance (v : value)
| OfString (s : string)
| OfStrings (l : list string).

Section handler.
(** The model the handler serves ([self.model.__name__]), and the
    methods its subclass and the JSON library provide. *)
Context (self_model : string)
        (get_instance : value → handler (option oid))
        (get_model : value → string → handler (option string))
        (get_list : handler (list oid))
        (update_instance :
           value → list (string * option string) → handler (list SQLAlchemyProvider.item))
        (delete_instance : value → handler (option oid))
        (get_request_data : list (string * option string))
        (json_dumps : json_arg → result string).

(** [obj.__class__], by name *)
Definition class_name (v : value) : handler (option string) := λ s,
  (Ok (Some match v with
            | VNone => "NoneType"
            | VStr _ => "str"
            | VInt _ => "int"
            | VList _ => "InstrumentedList"
            | VObj o => default "object" (class_of (store s) o)
            end%string), s).

Definition getattr (obj : value) (name : string) : handler value := λ s,
  (SQLAlchemyProvider.getattr_value (store s) obj name, s).

(** [a, b = part.split('/')] *)
Definition split_pair (part : string) : handler (string * string) :=
  match str_split "/" part with
  | [a; b] => mret (a, b)
  | _ => raise ValueError
  end.

Definition write_json (obj : json_arg) : handler () :=
  set_header "Content-Type" "application/json";;
  text ← lift (json_dumps obj);
  write (Text text).

Definition dump_object (instance : value) : handler string :=
  lift (json_dumps (OfInstance instance)).

(** The loop of [get_parent_model] over [args[:-1]]. *)
Fixpoint resolve_parents (parts : list string) (obj : value) : handler value :=
  match parts with
  | [] => mret obj
  | part :: parts =>
      '(property_, property_id) ← split_pair part;
      obj ← match obj with
            | VNone => SQLAlchemyProvider.of_instance <$> get_instance (VStr property_id)
            | _ => getattr obj property_
            end;
      resolve_parents parts obj
  end.

(** [get_parent_model]: the resolved object, the field name, the model
    and the terminal id. *)
Definition get_parent_model (args : list string)
    : handler (value * string * option string * option string) :=
  let args := List.filter (λ arg, bool_decide (arg ≠ ""%string)) args in
  obj ← resolve_parents (removelast args) VNone;
  match last args with
  | None => raise IndexError
  | Some last_arg =>
      let field_name := str_lstrip "/" last_arg in
      '(obj, field_name, model, id_) ←
        (if str_contains "/" field_name then
           '(field_name, id_) ← split_pair field_name;
           match obj with
           | VNone =>
               obj ← SQLAlchemyProvider.of_instance <$> get_instance (VStr id_);
               model ← class_name obj;
               mret (obj, field_name, model, Some id_)
           | _ =>
               obj ← getattr obj field_name;
               mret (obj, field_name, None, Some id_)
           end
         else mret (obj, field_name, None, None));
      model ← match model with
              | None => get_model obj field_name
              | Some _ => mret model
              end;
      mret (obj, field_name, model, id_)
  end.

Fixpoint dump_objects (items : list oid) : handler (list string) :=
  match items with
  | [] => mret []
  | item :: items =>
      text ← dump_object (VObj item);
      texts ← dump_objects items;
      mret (text :: texts)
  end.

Definition list_ : handler () :=
  items ← get_list;
  dump ← dump_objects items;
  write_json (OfStrings dump).

Definition get (args : list string) : handler () :=
  '(obj, field_name, model, pk) ← get_parent_model args;
  match pk with
  | None => list_
  | Some _ =>
      match obj with
      | VNone => send_error 404
      | _ =>
          text ← dump_object obj;
          write_json (OfString text);;
          finish
      end
  end.

Definition of_pk (pk : option string) : value :=
  match pk with
  | Some id_ => VStr id_
  | None => VNone
  end.

(** [put]: the answer of [update_instance] is unpacked into two names. *)
Definition put (args : list string) : handler () :=
  '(obj, field_name, model, pk) ← get_parent_model args;
  answer ← update_instance (of_pk pk) get_request_data;
  match answer with
  | [instance; updated] =>
      send (post_update_instance self_model instance updated);;
      write (Text "OK")
  | _ => raise ValueError
  end.

(** [delete]; [if instance:] holds of any mapped instance. *)
Definition delete (args : list string) : handler () :=
  '(obj, field_name, model, pk) ← get_parent_model args;
  instance ← delete_instance (of_pk pk);
  match instance with
  | Some o =>
      send (post_delete_instance self_model o);;
      write (Text "OK")
  | None => write (Text "FAIL")
  end.
End handler.

(** The SQLAlchemy provider's methods, as the handler calls them. *)
Section provider.
Context (self : SQLAlchemyProvider.provider).

Definition with_store (s : state) (d : db) : state :=
  State (status s) (reason s) (headers s) (cookies s) (body s) (finished s)
    (signals s) d (ticks s).

Definition provider_get_instance (pk : value) : handler (option oid) := λ s,
  (SQLAlchemyProvider.get_instance self (store s) pk None, s).

Definition provider_delete_instance (pk : value) : handler (option oid) := λ s,
  match SQLAlchemyProvider.delete_instance self (store s) pk with
  | Ok (d, instance) => (Ok instance, with_store s d)
  | Raise e => (Raise e, s)
  end.

Definition provider_update_instance (pk : value)
    (data : list (string * option string))
    : handler (list SQLAlchemyProvider.item) := λ s,
  match SQLAlchemyProvider.update_instance self (store s) pk data None None with
  | Ok (d, answer) => (Ok answer, with_store s d)
  | Raise e => (Raise e, s)
  end.
End provider.

End ModelRestHandler.

(** ** [bzz/auth.py] *)
Module Auth.
Import RequestHandler.

(** [app.authentication_options] *)
Record options : Type := Options {
  secret_key : string;
  expiration : Z;                (* seconds *)
  cookie_name : string
}.

(** [utils.Jwt] is not part of these sources: its two methods are taken
    as they are used, [encode(payload)] and [try_to_decode(token)], the
    latter answering whether the token is valid and its payload. *)
Record jwt : Type := Jwt {
  encode : gmap string json → string;
  try_to_decode : option string → bool * option (gmap string json)
}.

(** An identity provider: [authenticate(access_token)] answers the user
    record, or nothing. *)
Record auth_provider : Type := AuthProvider {
  authenticate : json → result (option (gmap string json))
}.

(** The request, as the handlers read it. *)
Record request : Type := Request {
  request_cookies : gmap string string;
  request_body : string
}.

Section handler.
Context (opts : options) (tokens : jwt)
        (providers : gmap string auth_provider)
        (req : request)
        (clock : nat → Z)                       (* [datetime.utcnow()], reading by reading *)
        (loads : string → result (gmap string json)).  (* [utils.loads] *)

Definition utcnow : handler Z := λ s,
  (Ok (clock (ticks s)),
   State (status s) (reason s) (headers s) (cookies s) (body s) (finished s)
     (signals s) (store s) (S (ticks s))).

(** [timedelta(seconds=n)] *)
Definition timedelta (seconds : Z) : Z := seconds * 1000000.

Definition get_cookie (name : string) : option string :=
  request_cookies req !! name.

Definition _set_unauthorized {A} : handler A :=
  set_status 401 (Some "Unauthorized"%string);;
  raise Finish.

Definition _is_authenticated : handler (bool * option (gmap string json)) :=
  mret (try_to_decode tokens (get_cookie (cookie_name opts))).

Definition _renew_authentication (payload : option (gmap string json)) : handler () :=
  match payload with
  | None => raise AttributeError
  | Some payload =>
      iat ← utcnow;
      now ← utcnow;
      let exp := now + timedelta (expiration opts) in
      let payload := <["exp" := JTime exp]> (<["iat" := JTime iat]> payload) in
      let token := encode tokens payload in
      set_cookie (cookie_name opts) token
  end.

(** The decorator, applied to [method]. *)
Definition authenticated {A} (method : handler A) : handler A :=
  '(authenticated, payload) ← _is_authenticated;
  (if authenticated : bool
   then _renew_authentication payload
   else _set_unauthorized);;
  method.

(** [dict.get(key)] with a key read from the request: only a string
    can name a provider, and a dict is not hashable. *)
Definition providers_get (provider_name : json) : handler (option auth_provider) :=
  match provider_name with
  | JStr name => mret (providers !! name)
  | JDict _ => raise TypeError
  | _ => mret None
  end.

(** The truth value of what [authenticate] answers. *)
Definition truthy (user_data : option (gmap string json)) : bool :=
  match user_data with
  | Some record => bool_decide (record ≠ ∅)
  | None => false
  end.

(** [AuthSigninHandler.post] *)
Definition signin_post : handler () :=
  post_data ← lift (loads (request_body req));
  let access_token := default JNone (post_data !! "access_token") in
  let provider_name := default JNone (post_data !! "provider") in
  provider ← providers_get provider_name;
  provider ← match provider with
             | None => _set_unauthorized
             | Some provider => mret provider
             end;
  user_data ← lift (authenticate provider access_token);
  if truthy user_data then
    let user_data := default ∅ user_data in
    sub ← match user_data !! "id" with
          | Some sub => mret sub
          | None => raise KeyError
          end;
    iat ← utcnow;
    now ← utcnow;
    let payload : gmap string json :=
      <["sub" := sub]> (<["data" := JDict user_data]> (<["iss" := provider_name]>
      (<["token" := access_token]> (<["iat" := JTime iat]>
      (<["exp" := JTime (now + timedelta (expiration opts))]> ∅))))) in
    let auth_token := encode tokens payload in
    send (authorized_user provider_name user_data);;
    set_cookie (cookie_name opts) auth_token;;
    write (Json (JDict {["authenticated" := JBool true]}))
  else
    send (unauthorized_user provider_name);;
    _set_unauthorized.



(** The state a rejected request is left in. *)
Definition unauthorized (s : state) : state :=
  State 401 (Some "Unauthorized"%string) (headers s) (cookies s) (body s)
    (finished s) (signals s) (store s) (ticks s).
End handler.

End Auth.

(** ** What a lookup needs *)
Module Update.
Import SQLAlchemyProvider.

(** The class has the id field [get_instance] filters on. *)
Definition has_id_field (m : model) : Prop :=
  is_Some (m_fields m !! default "id"%string (m_id_field m)).

End Update.

(** ** A sample application

    Users with an address, a manager and orders; addresses with a country.
    Used to run the definitions on concrete requests. *)
Module Sample.
Import SQLAlchemyProvider.
Local Open Scope nat_scope.
Local Open Scope string_scope.

Definition User : model :=
  Model "User" (Some "users")
    {[ "id" := Column; "name" := Column;
       "address" := Relationship "addresses" false true;
       "manager" := Relationship "users" false true;
       "orders" := Relationship "orders" true true ]}
    None None None.

Definition Address : model :=
  Model "Address" (Some "addresses")
    {[ "id" := Column; "city" := Column;
       "country" := Relationship "countries" false true ]}
    None None None.

Definition Country : model :=
  Model "Country" (Some "countries") {[ "id" := Column; "name" := Column ]}
    None None None.

Definition Order : model :=
  Model "Order" (Some "orders") {[ "id" := Column; "total" := Column ]}
    None None None.

Definition models : registry := [User; Address; Country; Order].

Definition ann : object :=
  Object "User" None
    {[ "id" := VStr "1"; "name" := VStr "Ann"; "address" := VObj 2;
       "manager" := VNone; "orders" := VList [Some 4; Some 5]%nat ]}.

Definition ann_address : object :=
  Object "Address" None
    {[ "id" := VStr "20"; "city" := VStr "Paris"; "country" := VObj 3 ]}.

Definition france : object :=
  Object "Country" None {[ "id" := VStr "33"; "name" := VStr "France" ]}.

Definition order (id_ total : string) : object :=
  Object "Order" None {[ "id" := VStr id_; "total" := VStr total ]}.

Definition other_address : object :=
  Object "Address" None
    {[ "id" := VStr "21"; "city" := VStr "Lyon"; "country" := VObj 3 ]}.

Definition data : db :=
  Db {[ 1%nat := ann; 2%nat := ann_address; 3%nat := france;
        4%nat := order "40" "10"; 5%nat := order "50" "20";
        6%nat := order "60" "30"; 7%nat := order "70" "40";
        8%nat := order "80" "50"; 9%nat := other_address ]}
     [1; 2; 3; 4; 5; 6; 7; 8; 9]%nat.

Definition user_node : gmap string node :=
  {[ "id" := Node None false; "name" := Node None false;
     "address" := Node (Some "Address") false;
     "manager" := Node (Some "User") false;
     "orders" := Node (Some "Order") true ]}.

Definition address_node : gmap string node :=
  {[ "id" := Node None false; "city" := Node None false;
     "country" := Node (Some "Country") false ]}.

Definition resources : tree := λ c,
  if decide (c = "User") then Some user_node
  else if decide (c = "Address") then Some address_node
  else if decide (c = "Country")
       then Some {[ "id" := Node None false; "name" := Node None false ]}
  else if decide (c = "Order")
       then Some {[ "id" := Node None false; "total" := Node None false ]}
  else None.

(** A database whose columns hold text: a stored value is equal to the
    one given when the two are the same. *)
Definition same_text (stored given : value) : bool := bool_decide (stored = given).

(** A [get_field] that answers the column of the name it is given. *)
Definition by_column (d : db) (queryset : list oid) (name : string) (v : value)
    : result (list oid) :=
  Ok (List.filter (λ o, bool_decide (getattr d o name = Ok v)) queryset).

(** The provider behind [/users/...], serving a request that renames
    the user and moves her to another address. *)
Definition users : provider :=
  Provider User models [("name", Some "Bob"); ("address", Some "21")]
    same_text by_column.

(** The provider behind [/orders/...]. *)
Definition orders : provider := Provider Order models [] same_text by_column.

(** A request not yet answered. *)
Definition fresh : state := State 200 None ∅ ∅ [] false [] data 0.

(** A model provider that knows no model for a field. *)
Definition no_model : value → string → handler (option string) :=
  λ _ _, mret None.

(** [json.dumps] of the standard library, on texts of printable ASCII
    characters: a text is quoted, its quotes and backslashes escaped; a
    list is encoded item by item; a mapped instance has no encoding. *)
Definition quote : ascii := ascii_of_nat 34.
Definition backslash : ascii := ascii_of_nat 92.

Fixpoint json_escape (text : string) : string :=
  match text with
  | EmptyString => EmptyString
  | String c text =>
      if decide (c = quote ∨ c = backslash)
      then String backslash (String c (json_escape text))
      else String c (json_escape text)
  end.

Definition json_text (text : string) : string :=
  String quote (json_escape text +:+ String quote "").

Definition json_list (items : list string) : string :=
  "[" +:+ str_join ", " items +:+ "]".

Definition json_dumps (a : ModelRestHandler.json_arg) : result string :=
  match a with
  | ModelRestHandler.OfInstance VNone => Ok "null"
  | ModelRestHandler.OfInstance (VStr text) => Ok (json_text text)
  | ModelRestHandler.OfInstance (VInt z) => Ok (pretty z)
  | ModelRestHandler.OfInstance (VObj _) => Raise TypeError
  | ModelRestHandler.OfInstance (VList l) =>
      if forallb (λ item, bool_decide (item = None)) l
      then Ok (json_list (map (λ _, "null") l))
      else Raise TypeError
  | ModelRestHandler.OfString text => Ok (json_text text)
  | ModelRestHandler.OfStrings texts => Ok (json_list (map json_text texts))
  end.

(** Authentication: tokens valid for twenty minutes, one identity
    provider, which knows the access token ["abc"] only. *)
Definition auth_options : Auth.options := Auth.Options "secret" 1200 "AUTH_TOKEN".

Definition claims : gmap string json :=
  {[ "sub" := JStr "u1"; "iss" := JStr "google";
     "data" := JDict {[ "id" := JStr "u1"; "name" := JStr "Ann" ]};
     "token" := JStr "abc"; "iat" := JTime 0; "exp" := JTime 1200000000 ]}.

Definition tokens : Auth.jwt :=
  Auth.Jwt
    (λ payload,
       match payload !! "sub" with
       | Some (JStr sub) => "jwt:" +:+ sub
       | _ => "jwt"
       end)
    (λ token,
       match token with
       | Some "jwt:u1" => (true, Some claims)
       | _ => (false, None)
       end).

Definition google : Auth.auth_provider :=
  Auth.AuthProvider
    (λ access_token,
       match access_token with
       | JStr "abc" => Ok (Some {[ "id" := JStr "u1"; "name" := JStr "Ann" ]})
       | _ => Ok None
       end).

Definition identity_providers : gmap string Auth.auth_provider :=
  {[ "google" := google ]}.


Definition anonymous : Auth.request := Auth.Request ∅ "".

(** A sign-in with an access token the provider does not know. *)
Definition wrong_signin : Auth.request := Auth.Request ∅ "wrong".

Definition loads (text : string) : result (gmap string json) :=
  if decide (text = "wrong")
  then Ok {[ "access_token" := JStr "zzz"; "provider" := JStr "google" ]}
  else if decide (text = "right")
  then Ok {[ "access_token" := JStr "abc"; "provider" := JStr "google" ]}
  else Raise ValueError.

(** A clock that advances by a millisecond from reading to reading. *)
Definition clock (reading : nat) : Z := (1000 * Z.of_nat reading)%Z.

End Sample.

(** ** The other methods of the SQLAlchemy provider *)
Module ProviderMethods.
Import SQLAlchemyProvider.

(** [dump_list(items)]: the items are dumped one after the other, each
    at depth 0. *)
Fixpoint dump_list (t : tree) (d : db) (items : list oid)
    : option (result (list dumped)) :=
  match items with
  | [] => Some (Ok [])
  | item :: items =>
      match dump_instance t d (VObj item) 0 with
      | Some (Ok dump) =>
          match dump_list t d items with
          | Some (Ok dumped) => Some (Ok (dump :: dumped))
          | failed => failed
          end
      | Some (Raise e) => Some (Raise e)
      | None => None
      end
  end.

(** [str(v)] of an attribute value; how an instance or a collection
    prints is [repr]'s. *)
Definition str_value (repr : value → string) (v : value) : string :=
  match v with
  | VNone => "None"
  | VStr s => s
  | VInt z => pretty z
  | _ => repr v
  end.

(** [get_instance_id(instance)]: the id field is the one the class names
    with [get_id_field_name], [id] otherwise. *)
Definition get_instance_id (self : provider) (repr : value → string) (d : db)
    (instance : value) : result string :=
  let name :=
    match model_of (classes self) d instance ≫= m_id_field with
    | Some name => name
    | None => "id"%string
    end in
  str_value repr <$> getattr_value d instance name.

(** *** Paths *)

(** [[part.lstrip('/').split('/') for part in path if part]] *)
Definition path_parts (path : list string) : list (list string) :=
  map (λ part, str_split "/" (str_lstrip "/" part))
      (List.filter (λ part, bool_decide (part ≠ ""%string)) path).

Section paths.
(** Whether a class, or [None], has an attribute of that name that is
    not one of its mapped properties: a method, [metadata],
    [__tablename__], [__doc__]. *)
Context (has_attribute : option model → string → bool).

(** [getattr(model, name)] on a mapped class, or on [None]: the
    instrumented attribute of a mapped property, or some other object. *)
Definition class_getattr (m : option model) (name : string) : result (option field) :=
  match m ≫= (λ m, m_fields m !! name) with
  | Some f => Ok (Some f)
  | None => if has_attribute m name then Ok None else Raise AttributeError
  end.

(** [is_list_field] on what [getattr] gave: an instrumented attribute is
    traded for the relationship behind it, which a column does not have;
    another object is no relationship property. *)
Definition attribute_is_list (f : option field) : result bool :=
  match f with
  | Some Column => Raise KeyError
  | Some (Relationship _ uselist _) => Ok uselist
  | None => Ok false
  end.

(** [part[0]]; a split has a first piece. *)
Definition first_piece (part : list string) : string :=
  default ""%string (head part).

(** The loop of [is_multiple] over [parts[1:]].  [get_model] is given
    what [getattr] gave, an instrumented attribute at best and so no
    relationship property: the model it answers is [None]. *)
Fixpoint is_multiple_loop (m : option model) (to_return : bool)
    (parts : list (list string)) : result bool :=
  match parts with
  | [] => Ok to_return
  | part :: parts =>
      field ← class_getattr m (first_piece part);
      to_return ← attribute_is_list field;
      is_multiple_loop None to_return parts
  end.

Definition is_multiple (self : provider) (path : list string) : result bool :=
  let parts := path_parts path in
  match parts with
  | [[_]] => Ok true
  | _ => is_multiple_loop (Some (self_model self)) false (tail parts)
  end.

(** The loop of [is_reference], which trades the instrumented attribute
    for its relationship before it asks for the model. *)
Fixpoint is_reference_loop (reg : registry) (m : option model) (to_return : bool)
    (parts : list (list string)) : result bool :=
  match parts with
  | [] => Ok to_return
  | part :: parts =>
      field ← class_getattr m (first_piece part);
      field ← match field with
              | Some Column => Raise KeyError
              | _ => Ok field
              end;
      is_reference_loop reg (get_model reg field) (is_reference_field field) parts
  end.

Definition is_reference (self : provider) (path : list string) : result bool :=
  is_reference_loop (classes self) (Some (self_model self)) false
    (tail (path_parts path)).

(** The loop of [get_model_from_path]; as in [is_multiple], [get_model]
    is given what [getattr] gave. *)
Fixpoint get_model_from_path_loop (m : option model) (parts : list (list string))
    : result (option model) :=
  match parts with
  | [] => Ok m
  | part :: parts =>
      _ ← class_getattr m (first_piece part);
      get_model_from_path_loop None parts
  end.

Definition get_model_from_path (self : provider) (path : list string)
    : result (option model) :=
  let parts := path_parts path in
  match parts with
  | [[_]] => Ok (Some (self_model self))
  | _ => get_model_from_path_loop (Some (self_model self)) (tail parts)
  end.
End paths.

End ProviderMethods.

(** ** The request data of [bzz/rest_handler.py] *)
Module RequestData.

(** The request, as [get_request_data] reads it: the decoded body, and
    the names of the arguments. *)
Record request : Type := Request {
  body_text : string;
  argument_names : list string
}.

Section data.
(** [unquote] of [urllib], and [self.get_argument]. *)
Context (unquote : string → string) (get_argument : string → string).

(** [key, value = item.split('=')], then [data[key] = unquote(value)] *)
Definition read_item (data : gmap string (option string)) (item : string)
    : result (gmap string (option string)) :=
  match str_split "=" item with
  | [key; v] => Ok (<[key := Some (unquote v)]> data)
  | _ => Raise ValueError
  end.

(** [data[arg] = self.get_argument(arg)], the empty text giving [None] *)
Definition read_argument (data : gmap string (option string)) (arg : string)
    : gmap string (option string) :=
  let v := get_argument arg in
  <[arg := if decide (v = ""%string) then None else Some v]> data.

Definition get_request_data (req : request) : result (gmap string (option string)) :=
  if decide (body_text req ≠ ""%string) then
    foldl (λ acc item, data ← acc; read_item data item) (Ok ∅)
          (str_split "&" (body_text req))
  else Ok (foldl read_argument ∅ (argument_names req)).
End data.

(** A form, as a client writes it into a body: [key=value] items, joined
    by [&]. *)
Definition form_body (fields : list (string * string)) : string :=
  str_join "&" (map (λ kv, kv.1 +:+ String "=" kv.2) fields).

End RequestData.

(** ** The handler over the SQLAlchemy provider *)
Module Dispatch.
Import SQLAlchemyProvider ModelRestHandler.

(** [self.get_model(obj, field_name)], when the [get_model] found is the
    SQLAlchemy provider's: a class method of one argument, [field]. *)
Definition provider_get_model : value → string → handler (option string) :=
  λ _ _, raise TypeError.

(** [self.get_list()], as [list] calls it: with no argument, so with the
    defaults [page=1], [per_page=20] and no filter. *)
Definition provider_get_list (self : provider) : handler (list oid) := λ s,
  (get_list self (store s) 1 20 [], s).

(** What a handler has answered so far: the signals sent, the headers
    set, the chunks written. *)
Definition answered (s : state) : list signal * gmap string string * list chunk :=
  (signals s, headers s, body s).

(** A handler that sends no signal, sets no header and writes nothing,
    whether it returns or raises. *)
Definition quiet {A} (h : handler A) : Prop :=
  ∀ s r s', h s = (r, s') → answered s' = answered s.

(** What [post] hands on under the name [instance]: the tuple
    [save_new_instance] answers, where the methods it is handed to take an
    instance. *)
Inductive passed : Type :=
| Instance (v : value)
| Answer (o : oid) (v : value).          (* the tuple [(instance, None)] *)

(** [get_instance_id] on what it is passed: the class [tuple] has no
    [get_id_field_name], and a tuple has no [id]. *)
Definition get_instance_id_passed (self : provider) (repr : value → string)
    (d : db) (instance : passed) : result string :=
  match instance with
  | Instance v => ProviderMethods.get_instance_id self repr d v
  | Answer _ _ => Raise AttributeError
  end.

(** [model()], for the class the path resolved to: [None] cannot be
    called, and [NoneType] makes no instance. *)
Definition model_named (reg : registry) (class_name : option string) : result model :=
  match class_name ≫= (λ c, List.find (λ m, bool_decide (m_name m = c)) reg) with
  | Some m => Ok m
  | None => Raise TypeError
  end.

Section post.
(** The provider, how it prints what is no string, the [prefix] and
    [name] of the handler, and what the handler does not define itself:
    [get_model] of the model provider, [associate_instance] as it takes the
    tuple, the receivers of [post_create_instance], the request data. *)
Context (self : provider) (repr : value → string) (prefix name : string)
        (get_model : value → string → handler (option string))
        (associate_instance : value → string → passed → handler ())
        (post_create_instance : option string → passed → handler ())
        (get_request_data : list (string * option string)).

Definition provider_save_new_instance (model : option string)
    (data : list (string * option string)) : handler (oid * value) := λ s,
  match model_named (classes self) model with
  | Ok m =>
      match save_new_instance self (store s) m data with
      | Ok (d, answer) => (Ok answer, with_store s d)
      | Raise e => (Raise e, s)
      end
  | Raise e => (Raise e, s)
  end.

Definition provider_get_instance_id (instance : passed) : handler string := λ s,
  (get_instance_id_passed self repr (store s) instance, s).

(** [post]: [instance] is what [save_new_instance] answers, whole. *)
Definition post (args : list string) : handler () :=
  '(obj, field_name, model, pk) ←
    get_parent_model (provider_get_instance self) get_model args;
  '(o, v) ← provider_save_new_instance model get_request_data;
  let instance := Answer o v in
  associate_instance obj field_name instance;;
  post_create_instance model instance;;
  pk ← provider_get_instance_id instance;
  RequestHandler.set_header "X-Created-Id" pk;;
  RequestHandler.set_header "location"
    ("/" +:+ prefix +:+ name +:+ "/" +:+ pk +:+ "/");;
  RequestHandler.write (Text "OK").
End post.

End Dispatch.

(** ** The rest of [bzz/auth.py] *)
Module AuthMore.
Import RequestHandler Auth.

(** Text of ASCII characters only. *)
Definition is_ascii (s : string) : bool :=
  forallb (λ c, (nat_of_ascii c <? 128)%nat) (list_ascii_of_string s).

(** [s.lower()], on ASCII text: the letters [A] to [Z] are the ones
    lowered. *)
Definition ascii_lower (c : ascii) : ascii :=
  let n := nat_of_ascii c in
  if (65 <=? n)%nat && (n <=? 90)%nat then ascii_of_nat (n + 32) else c.

Fixpoint str_lower (s : string) : string :=
  match s with
  | EmptyString => EmptyString
  | String c s' => String (ascii_lower c) (str_lower s')
  end.

(** [s.split(sub)[0]]: the text before the first [sub] *)
Fixpoint str_before (sub s : string) : string :=
  if String.prefix sub s then EmptyString
  else match s with
       | EmptyString => EmptyString
       | String c s' => String c (str_before sub s')
       end.

(** [AuthProvider.get_name], of the class called [class_name] *)
Definition get_name (class_name : string) : string :=
  str_lower (str_before "Provider" class_name).

(** The [providers] option of [routes_for]: a dict built from the pairs
    of name and provider, in the order given. *)
Definition routes_providers (providers : list (string * auth_provider))
    : gmap string auth_provider :=
  foldl (λ options '(class_name, provider), <[get_name class_name := provider]> options)
        ∅ providers.

(** The truth value of a JSON value. *)
Definition json_truthy (j : json) : bool :=
  match j with
  | JNone => false
  | JBool b => b
  | JStr s => bool_decide (s ≠ ""%string)
  | JTime _ => true
  | JDict m => bool_decide (m ≠ ∅)
  end.

(** An HTTP response: its code and its body. *)
Record response : Type := Response {
  code : Z;
  response_body : string
}.

(** What [http_client.fetch] does with a URL: it answers, or raises an
    [HTTPError] that carries the response, if there is one. *)
Inductive fetched : Type :=
| Answered (r : response)
| HTTPError (r : option response).

Section google.
(** [http_client.fetch(API_URL.format(access_token))], and [utils.loads]. *)
Context (fetch : json → fetched) (loads : string → result (gmap string json)).

Definition _fetch_userinfo (access_token : json) : option response :=
  match fetch access_token with
  | Answered r => Some r
  | HTTPError r => r
  end.

(** [GoogleProvider.authenticate] *)
Definition google_authenticate (access_token : json)
    : result (option (gmap string json)) :=
  match _fetch_userinfo access_token with
  | None => Raise AttributeError
  | Some r =>
      if decide (code r = 200) then
        body ← loads (response_body r);
        if negb (json_truthy (default JNone (body !! "error"))) then
          Ok (Some {[ "email" := default JNone (body !! "email");
                      "name" := default JNone (body !! "name");
                      "id" := default JNone (body !! "id");
                      "provider" := JStr (get_name "GoogleProvider") ]})
        else Ok None
      else Ok None
  end.

Definition GoogleProvider : auth_provider := AuthProvider google_authenticate.
End google.

Section me.
Context (opts : options) (tokens : jwt) (req : Auth.request).

(** [AuthMeHandler.get]; [payload['data']] needs a payload, and the key. *)
Definition me_get : handler () :=
  '(authenticated, payload) ← _is_authenticated opts tokens req;
  result ←
    (if authenticated : bool then
       match payload with
       | Some payload =>
           match payload !! "data" with
           | Some data =>
               mret (<["user_data" := data]> {["authenticated" := JBool true]}
                       : gmap string json)
           | None => raise KeyError
           end
       | None => raise TypeError
       end
     else mret {["authenticated" := JBool false]});
  set_status 200 None;;
  write (Json (JDict result)).
End me.

End AuthMore.

(** ** More of the sample application

    Sign-in through Google, whose profile of the access token ["tok"]
    has no [id]. *)
Module Scenario.
Import Auth AuthMore.
Local Open Scope string_scope.

Definition loads (text : string) : result (gmap string json) :=
  if decide (text = "github")
  then Ok {[ "access_token" := JStr "abc"; "provider" := JStr "github" ]}
  else if decide (text = "google")
  then Ok {[ "access_token" := JStr "tok"; "provider" := JStr "google" ]}
  else Sample.loads text.

Definition fetch (access_token : json) : fetched :=
  match access_token with
  | JStr "tok" => Answered (Response 200 "profile")
  | JStr "expired" => HTTPError (Some (Response 401 "denied"))
  | _ => HTTPError None
  end.

Definition google_loads (text : string) : result (gmap string json) :=
  if decide (text = "profile")
  then Ok {[ "email" := JStr "ann@example.org"; "name" := JStr "Ann" ]}
  else Raise ValueError.

Definition providers : gmap string auth_provider :=
  routes_providers [("GoogleProvider", GoogleProvider fetch google_loads)].

(** What a declarative class has besides its mapped properties: the
    names every object has, and [metadata]. *)
Definition class_attribute (m : option model) (name : string) : bool :=
  String.prefix "__" name ||
  match m with
  | Some _ => bool_decide (name = "metadata")
  | None => false
  end.

(** A collection that is empty: no invoice was written yet. *)
Definition Invoice : model :=
  Model "Invoice" (Some "invoices") {[ "id" := Column; "total" := Column ]}
    None None None.

Definition invoices : SQLAlchemyProvider.provider :=
  SQLAlchemyProvider.Provider Invoice (Invoice :: Sample.models) []
    Sample.same_text Sample.by_column.

(** The model provider of [/users]: every path leads to users. *)
Definition user_model : value → string → handler (option string) :=
  λ _ _, mret (Some "User").

(** An [associate_instance] and receivers that do nothing. *)
Definition no_parent : value → string → Dispatch.passed → handler () :=
  λ _ _ _, mret ().

Definition no_receiver : option string → Dispatch.passed → handler () :=
  λ _ _, mret ().

End Scenario.

(** * Properties *)

(** ** Python helpers *)

Example str_split_ex : str_split "/" "users/42" = ["users"; "42"]%string.
Proof. reflexivity. Qed.
Example str_split_ex2 : str_split "." "a..b." = ["a"; ""; "b"; ""]%string.
Proof. reflexivity. Qed.
Example str_split_ex3 : str_split "." "" = [""]%string.
Proof. reflexivity. Qed.
Example strip_ex : strip_brackets "it[]ems[[]]x[" = "items[]x["%string.
Proof. reflexivity. Qed.
Example ends_ex : str_endswith "[]" "items[]" = true /\ str_endswith "[]" "]" = false /\ str_endswith "[]" "[]x" = false.
Proof. repeat split; reflexivity. Qed.
Example contains_ex : str_contains "[]" "a[]b" = true /\ str_contains "." "ab" = false /\ str_contains "." "" = false.
Proof. repeat split; reflexivity. Qed.
Example join_ex : str_join "." ["a";"b";"c"]%string = "a.b.c"%string /\ str_join "." [] = ""%string.
Proof. repeat split; reflexivity. Qed.

Module StringFacts.

Lemma str_split_no_sep (sep : ascii) (s : string) :
  str_contains (String sep "") s = false → str_split sep s = [s].
Proof.
  induction s as [|c s IH]; [done|]. cbn [str_contains str_split String.prefix].
  destruct (Ascii.ascii_dec sep c) as [->|Hne]; [by destruct s|].
  cbn [orb]. intros H. rewrite (IH H).
  by destruct (decide (c = sep)) as [->|].
Qed.

Lemma str_split_app (sep : ascii) (a b : string) :
  str_contains (String sep "") a = false →
  str_split sep (a +:+ String sep b) = a :: str_split sep b.
Proof.
  intros Ha. induction a as [|c a IH].
  - change ("" +:+ String sep b)%string with (String sep b). cbn [str_split].
    by destruct (decide (sep = sep)).
  - change (String c a +:+ String sep b)%string with (String c (a +:+ String sep b)).
    revert Ha. cbn [str_contains String.prefix str_split].
    destruct (Ascii.ascii_dec sep c) as [->|Hne]; [by destruct a|].
    cbn [orb]. intros Ha. rewrite (IH Ha).
    by destruct (decide (c = sep)) as [->|].
Qed.

Lemma str_split_pair (sep : ascii) (a b : string) :
  str_contains (String sep "") a = false →
  str_contains (String sep "") b = false →
  str_split sep (a +:+ String sep b) = [a; b].
Proof. intros Ha Hb. by rewrite str_split_app, str_split_no_sep. Qed.

Lemma str_contains_app (sep : ascii) (a b : string) :
  str_contains (String sep "") (a +:+ String sep b) = true.
Proof.
  induction a as [|c a IH].
  - change ("" +:+ String sep b)%string with (String sep b).
    cbn [str_contains String.prefix].
    destruct (Ascii.ascii_dec sep sep); [by destruct b|done].
  - change (String c a +:+ String sep b)%string with (String c (a +:+ String sep b)).
    cbn [str_contains]. rewrite IH. apply orb_true_r.
Qed.

Lemma str_lstrip_no_sep (sep : ascii) (a b : string) :
  a ≠ ""%string → str_contains (String sep "") a = false →
  str_lstrip sep (a +:+ b) = (a +:+ b)%string.
Proof.
  destruct a as [|c a]; [done|]. intros _.
  change (String c a +:+ b)%string with (String c (a +:+ b)).
  cbn [str_contains String.prefix str_lstrip].
  destruct (Ascii.ascii_dec sep c) as [->|Hne]; [by destruct a|].
  intros _. by destruct (decide (c = sep)) as [->|].
Qed.

(** The pieces of a split hold no separator. *)
Lemma str_split_pieces (sep : ascii) (s : string) :
  Forall (λ piece, str_contains (String sep "") piece = false) (str_split sep s).
Proof.
  induction s as [|c s IH]; cbn [str_split].
  - by repeat constructor.
  - destruct (decide (c = sep)) as [->|Hne]; [by constructor|].
    destruct (str_split sep s) as [|piece pieces].
    + constructor; [|constructor]. cbn [str_contains String.prefix].
      by destruct (Ascii.ascii_dec sep c) as [->|].
    + apply Forall_cons in IH as [Hpiece Hpieces]. constructor; [|done].
      cbn [str_contains String.prefix].
      destruct (Ascii.ascii_dec sep c) as [->|]; [done|]. by rewrite Hpiece.
Qed.

(** Joining pieces and splitting again gives the pieces back. *)
Lemma str_split_join (sep : ascii) (parts : list string) :
  parts ≠ [] →
  Forall (λ piece, str_contains (String sep "") piece = false) parts →
  str_split sep (str_join (String sep "") parts) = parts.
Proof.
  induction parts as [|part [|part' parts] IH]; [done| |]; intros _ Hparts.
  - apply Forall_cons in Hparts as [Hpart _]. by apply str_split_no_sep.
  - apply Forall_cons in Hparts as [Hpart Hparts].
    change (str_join (String sep "") (part :: part' :: parts))
      with (part +:+ String sep (str_join (String sep "") (part' :: parts)))%string.
    rewrite str_split_app by done. f_equal. by apply IH.
Qed.

(** The joined text holds the separator exactly when there are two pieces
    or more. *)
Lemma str_join_contains (sep : ascii) (parts : list string) :
  Forall (λ piece, str_contains (String sep "") piece = false) parts →
  str_contains (String sep "") (str_join (String sep "") parts) =
  bool_decide (2 ≤ length parts)%nat.
Proof.
  destruct parts as [|part [|part' parts]]; intros Hparts.
  - done.
  - by apply Forall_cons in Hparts as [Hpart _].
  - change (str_join (String sep "") (part :: part' :: parts))
      with (part +:+ String sep (str_join (String sep "") (part' :: parts)))%string.
    rewrite str_contains_app. symmetry. apply bool_decide_eq_true. cbn. lia.
Qed.

End StringFacts.

(** ** Pagination *)

Module PaginationFacts.
Import SQLAlchemyProvider.

(** Rounding to nearest: the result is within a half of the quotient,
    and even when the quotient is half-way between two integers. *)
Lemma round_half_even_spec (n d : Z) :
  0 < d →
  let m := Float.round_half_even n d in
  (2 * m - 1) * d ≤ 2 * n ≤ (2 * m + 1) * d ∧
  (2 * n = (2 * m - 1) * d ∨ 2 * n = (2 * m + 1) * d → Z.even m = true).
Proof.
  intros Hd. unfold Float.round_half_even.
  pose proof (Z.div_mod n d ltac:(lia)) as Hn.
  pose proof (Z.mod_pos_bound n d Hd) as Hr.
  set (q := n / d) in *. set (r := n mod d) in *.
  destruct (Z.ltb_spec (2 * r) d) as [Hlt|Hge]; [cbv zeta; nia|].
  destruct (Z.ltb_spec d (2 * r)) as [Hgt|Hle]; [cbv zeta; nia|].
  assert (d = 2 * r) as Htie by lia.
  destruct (Z.even q) eqn:Heven; cbv zeta.
  - split; [nia|]. done.
  - split; [nia|]. intros _. rewrite Z.even_add, Heven. done.
Qed.

Lemma round_half_even_exact (k d : Z) :
  0 < d → Float.round_half_even (k * d) d = k.
Proof.
  intros Hd. unfold Float.round_half_even.
  rewrite Z.div_mul, Z.mod_mul by lia.
  destruct (Z.ltb_spec (2 * 0) d); [done|lia].
Qed.

(** The ceiling of a rounded quotient.  [P] is the power of two the
    mantissa is scaled by; it is large enough for the rounding not to
    reach the integer below. *)
Lemma ceil_round (n d P : Z) :
  0 ≤ n → 0 < d → 0 < P → d < 2 * P →
  - ((- Float.round_half_even (n * P) d) / P) = (n + d - 1) / d.
Proof.
  intros Hn Hd HP HdP.
  pose proof (Z.div_mod n d ltac:(lia)) as Hnd.
  pose proof (Z.mod_pos_bound n d Hd) as Hr.
  set (k := n / d) in *. set (r := n mod d) in *.
  destruct (decide (r = 0)) as [Hr0|Hr0].
  - assert (n * P = (k * P) * d) as -> by nia.
    rewrite round_half_even_exact by done.
    replace (- (k * P)) with ((- k) * P) by lia. rewrite Z.div_mul by lia.
    rewrite Z.opp_involutive.
    apply (Z.div_unique_pos _ _ _ (d - 1)); lia.
  - destruct (round_half_even_spec (n * P) d Hd) as [Hm _].
    set (m := Float.round_half_even (n * P) d) in *. cbv zeta in Hm.
    assert (k * P < m ≤ (k + 1) * P) as Hbounds.
    { split.
      - apply Z.nle_gt. intros Hle.
        assert ((2 * m + 1) * d ≤ (2 * (k * P) + 1) * d) by nia. nia.
      - apply Z.nlt_ge. intros Hgt.
        assert ((2 * ((k + 1) * P) + 1) * d ≤ (2 * m - 1) * d) by nia. nia. }
    assert ((- m) / P = - (k + 1)) as ->.
    { symmetry. apply (Z.div_unique_pos _ _ _ ((k + 1) * P - m)); lia. }
    rewrite Z.opp_involutive.
    apply (Z.div_unique_pos _ _ _ (r - 1)); lia.
Qed.

Lemma log2_quotient_le (n d : Z) :
  Float.log2_quotient n d ≤ Z.log2 n - Z.log2 d.
Proof. unfold Float.log2_quotient. cbv zeta. repeat case_match; lia. Qed.

Lemma log2_below (a b : Z) : 0 ≤ a < 2 ^ b → 0 < b → Z.log2 a < b.
Proof.
  intros Ha Hb. destruct (decide (a = 0)) as [->|Hne]; [done|].
  apply Z.log2_lt_pow2; lia.
Qed.

(** An integer of 53 bits at most is a double. *)
Lemma of_int_exact (n : Z) : Z.abs n < 2 ^ 53 → Float.of_int n = Ok n.
Proof.
  intros Hn. unfold Float.of_int. cbv zeta.
  pose proof (log2_below (Z.abs n) 53 ltac:(lia) ltac:(lia)).
  destruct (Z.leb_spec (Z.log2 (Z.abs n) - 52) 0); [done|lia].
Qed.

(** The quotient of a count by a page size, rounded and rounded up, is
    the quotient rounded up. *)
Lemma ceil_truediv (n d : Z) :
  0 ≤ n < 2 ^ 53 → 0 < d < 2 ^ 1024 →
  Float.ceil <$> Float.truediv n d = Ok ((n + d - 1) / d).
Proof.
  intros Hn Hd. unfold Float.truediv.
  destruct (decide (d = 0)); [lia|].
  destruct (decide (n = 0)) as [->|Hn0].
  { cbn. f_equal. symmetry. apply Z.div_small. lia. }
  cbv zeta. rewrite (Z.abs_eq n), (Z.abs_eq d) by lia.
  rewrite (Z.sgn_pos n), (Z.sgn_pos d) by lia.
  pose proof (log2_quotient_le n d) as HL.
  pose proof (log2_below n 53 ltac:(lia) ltac:(lia)) as Hlogn.
  pose proof (log2_below d 1024 ltac:(lia) ltac:(lia)) as Hlogd.
  pose proof (Z.log2_nonneg d) as Hlogd0.
  pose proof (Z.log2_spec d ltac:(lia)) as Hspec.
  set (e := Z.max (Float.log2_quotient n d - 52) (-1074)) in *.
  assert (e ≤ 0) as He by lia.
  assert (Z.log2 d ≤ - e) as Hexp by lia.
  assert (d < 2 * 2 ^ (- e)) as HP.
  { pose proof (Z.pow_le_mono_r 2 (Z.log2 d) (- e) ltac:(lia) Hexp).
    rewrite Z.pow_succ_r in Hspec by done. lia. }
  cbn [fmap result_fmap]. f_equal. unfold Float.ceil. cbn [Float.exponent Float.mantissa].
  destruct (Z.leb_spec 0 e) as [He0|He0].
  - assert (e = 0) as -> by lia. change (2 ^ 0) with 1 in *. change (- 0) with 0 in *.
    change (2 ^ 0) with 1 in HP.
    assert (d = 1) as -> by lia.
    replace n with (n * 1) at 1 by lia. rewrite round_half_even_exact by lia.
    rewrite Z.div_1_r. lia.
  - rewrite !Z.mul_1_l.
    apply ceil_round; [lia|lia| |done]. apply Z.pow_pos_nonneg; lia.
Qed.

(** The page count [get_list] computes is the quotient of the count by
    the page size, rounded up, as long as the count has 53 bits at most and
    the page size is in the range of the doubles. *)
Lemma pages_of_ceil (count per_page y : Z) :
  0 ≤ count < 2 ^ 53 → 0 < per_page → Float.of_int per_page = Ok y →
  pages_of count per_page = Ok ((count + per_page - 1) / per_page).
Proof.
  intros Hc Hp Hy. unfold pages_of. rewrite Hy. cbn [mbind result_bind].
  rewrite of_int_exact by lia. cbn [mbind result_bind].
  revert Hy. unfold Float.of_int. cbv zeta.
  destruct (Z.leb_spec (Z.log2 (Z.abs per_page) - 52) 0) as [Hsmall|Hlarge].
  { intros [= <-]. apply ceil_truediv; [done|].
    rewrite Z.abs_eq in Hsmall by lia.
    assert (per_page < 2 ^ 53); [|lia].
    apply Z.log2_lt_pow2; lia. }
  rewrite Z.abs_eq in * by lia. rewrite Z.sgn_pos by lia.
  set (e := Z.log2 per_page - 52) in *.
  destruct (Z.leb_spec (2 ^ 1024) (Float.round_half_even per_page (2 ^ e) * 2 ^ e));
    [done|].
  intros [= <-]. rewrite Z.mul_1_l in *.
  set (r := Float.round_half_even per_page (2 ^ e) * 2 ^ e) in *.
  assert (0 < 2 ^ e) as Hpow by (apply Z.pow_pos_nonneg; lia).
  assert (2 ^ 53 ≤ per_page) as Hpp.
  { pose proof (Z.log2_spec per_page Hp) as [Hlow _].
    pose proof (Z.pow_le_mono_r 2 53 (Z.log2 per_page) ltac:(lia) ltac:(lia)). lia. }
  assert (2 ^ 53 ≤ r) as Hr.
  { pose proof (Z.log2_spec per_page Hp) as [Hlow _].
    replace (Z.log2 per_page) with (52 + e) in Hlow by lia.
    rewrite Z.pow_add_r in Hlow by lia.
    destruct (round_half_even_spec per_page (2 ^ e) Hpow) as [[_ Hup] _].
    cbv zeta in Hup.
    assert (2 ^ 52 ≤ Float.round_half_even per_page (2 ^ e)) by nia.
    assert (2 ≤ 2 ^ e).
    { pose proof (Z.pow_le_mono_r 2 1 e ltac:(lia) ltac:(lia)). lia. }
    unfold r. nia. }
  rewrite ceil_truediv by lia.
  destruct (decide (count = 0)) as [->|Hne].
  - f_equal. rewrite !Z.div_small; lia.
  - f_equal. transitivity 1.
    + symmetry. apply (Z.div_unique_pos _ _ _ (count - 1)); lia.
    + apply (Z.div_unique_pos _ _ _ (count - 1)); lia.
Qed.

(** The largest double is [2 ^ 1024 - 2 ^ 971]; an integer converts as
    long as it is nearer to it than to [2 ^ 1024]. *)
Lemma of_int_defined (n : Z) :
  0 ≤ n < 2 ^ 1024 - 2 ^ 970 → ∃ y, Float.of_int n = Ok y.
Proof.
  intros Hn. unfold Float.of_int. cbv zeta. rewrite Z.abs_eq by lia.
  destruct (Z.leb_spec (Z.log2 n - 52) 0) as [|Hlarge]; [eauto|].
  set (e := Z.log2 n - 52) in *.
  assert (0 < 2 ^ e) as Hpow by (apply Z.pow_pos_nonneg; lia).
  pose proof (log2_below n 1024 ltac:(lia) ltac:(lia)) as Hlog.
  assert (0 < n) as Hpos.
  { destruct (decide (n = 0)) as [Hz|]; [|lia]. subst e. rewrite Hz in Hlarge. done. }
  pose proof (Z.log2_spec n Hpos) as [_ Hup].
  replace (Z.succ (Z.log2 n)) with (53 + e) in Hup by lia.
  rewrite Z.pow_add_r in Hup by lia.
  destruct (round_half_even_spec n (2 ^ e) Hpow) as [[Hlow _] _]. cbv zeta in Hlow.
  set (m := Float.round_half_even n (2 ^ e)) in *.
  assert (m * 2 ^ e < 2 ^ 1024); [|destruct (Z.leb_spec (2 ^ 1024) (m * 2 ^ e)); [lia|eauto]].
  destruct (decide (e = 971)) as [He|He].
  - rewrite He in *. clear Hup Hpow. lia.
  - assert (m ≤ 2 ^ 53) by nia.
    pose proof (Z.pow_le_mono_r 2 e 970 ltac:(lia) ltac:(lia)).
    assert (m * 2 ^ e ≤ 2 ^ 53 * 2 ^ 970) by nia. lia.
Qed.

Lemma of_int_overflow (n : Z) :
  2 ^ 1024 - 2 ^ 970 ≤ n → Float.of_int n = Raise OverflowError.
Proof.
  intros Hn. unfold Float.of_int. cbv zeta. rewrite Z.abs_eq by lia.
  assert (1023 ≤ Z.log2 n) as Hlog.
  { apply Z.log2_le_pow2; lia. }
  destruct (Z.leb_spec (Z.log2 n - 52) 0) as [|_]; [lia|].
  set (e := Z.log2 n - 52) in *.
  assert (0 < 2 ^ e) as Hpow by (apply Z.pow_pos_nonneg; lia).
  destruct (round_half_even_spec n (2 ^ e) Hpow) as [[_ Hup] Htie]. cbv zeta in Hup, Htie.
  set (m := Float.round_half_even n (2 ^ e)) in *.
  assert (2 ^ 1024 ≤ m * 2 ^ e); [|by destruct (Z.leb_spec (2 ^ 1024) (m * 2 ^ e)); [|lia]].
  pose proof (Z.log2_spec n ltac:(lia)) as [Hlow _].
  replace (Z.log2 n) with (52 + e) in Hlow by lia.
  rewrite Z.pow_add_r in Hlow by lia.
  assert (2 ^ 52 ≤ m) as Hm by nia.
  destruct (decide (e = 971)) as [He|He].
  - rewrite He in *. clear Hpow Hlow.
    assert (2 ^ 53 - 1 ≤ m) as Hm' by lia.
    destruct (decide (m = 2 ^ 53 - 1)) as [Heq|Hne]; [|lia].
    exfalso. rewrite Heq in Htie, Hup.
    assert (Z.even (2 ^ 53 - 1) = true) as Heven; [apply Htie; right; lia|done].
  - pose proof (Z.pow_le_mono_r 2 972 e ltac:(lia) ltac:(lia)).
    assert (2 ^ 52 * 2 ^ 972 ≤ m * 2 ^ e) by nia. lia.
Qed.

Lemma ceil_bounds (count per_page : Z) :
  0 < per_page →
  let pages := (count + per_page - 1) / per_page in
  (pages - 1) * per_page < count ≤ pages * per_page.
Proof.
  intros Hp.
  pose proof (Z.div_mod (count + per_page - 1) per_page ltac:(lia)).
  pose proof (Z.mod_pos_bound (count + per_page - 1) per_page Hp).
  cbv zeta. nia.
Qed.

(** A slice between two indices inside the list. *)
Lemma py_slice_inside {A} (l : list A) (start stop : Z) :
  0 ≤ start ≤ stop →
  py_slice l start stop = take (Z.to_nat (stop - start)) (drop (Z.to_nat start) l).
Proof.
  intros H. unfold py_slice, slice_index.
  destruct (Z.ltb_spec start 0), (Z.ltb_spec stop 0); try lia.
  set (len := Z.of_nat (length l)).
  destruct (decide (len ≤ start)) as [Hs|Hs].
  - rewrite drop_ge by (subst len; lia). rewrite drop_ge by (subst len; lia).
    by rewrite !take_nil.
  - rewrite (Z.min_l start len) by lia.
    destruct (decide (stop ≤ len)).
    + by rewrite (Z.min_l stop len) by lia.
    + rewrite (Z.min_r stop len) by lia.
      rewrite !take_ge; [done| |]; rewrite length_drop; subst len; lia.
Qed.

(** Without a filter the query is the model's, through its hook. *)
Lemma list_queryset_nil (self : provider) (d : db) :
  ∃ items, list_queryset self d [] = Ok items.
Proof. by eexists. Qed.

(** What [get_list] answers, from the page count on. *)
Lemma get_list_pages (self : provider) (d : db) (page per_page : Z)
    (filters : list (string * value)) (items : list oid) (pages : Z) :
  list_queryset self d filters = Ok items →
  pages_of (Z.of_nat (length items)) per_page = Ok pages →
  get_list self d page per_page filters =
  if decide (pages = 0) then Ok [] else
  let page := (if decide (page > pages) then pages else page) - 1 in
  Ok (py_slice items (per_page * page) (per_page * page + per_page)).
Proof.
  intros Hitems Hpages. unfold get_list. rewrite Hitems. cbn [mbind result_bind].
  by rewrite Hpages.
Qed.

(** C1: a collection of fewer than [2 ^ 53] items, a page size
    [per_page > 0] and a page number [page >= 1].  As long as [per_page] is
    in the range of the floats, below [2 ^ 1024 - 2 ^ 970], [get_list]
    derives the page count as the ceiling of [count / per_page], answers the
    empty list when there is no page, the last page for a page number past
    the end, and the slice
    [[per_page * (page - 1), per_page * (page - 1) + per_page)] of the
    collection otherwise, and it never raises.  From
    [2 ^ 1024 - 2 ^ 970] on, [float(per_page)] raises [OverflowError]. *)
Theorem get_list_paginates (self : provider) (d : db) (page per_page : Z)
    (filters : list (string * value)) (items : list oid) :
  list_queryset self d filters = Ok items →
  let count := Z.of_nat (length items) in
  count < 2 ^ 53 → 0 < per_page → 1 ≤ page →
  (per_page < 2 ^ 1024 - 2 ^ 970 →
   ∃ pages,
     pages_of count per_page = Ok pages ∧
     (pages - 1) * per_page < count ≤ pages * per_page ∧
     (∃ l, get_list self d page per_page filters = Ok l) ∧
     (pages = 0 → get_list self d page per_page filters = Ok []) ∧
     (pages < page →
        get_list self d page per_page filters = get_list self d pages per_page filters) ∧
     (pages ≠ 0 → page ≤ pages →
        get_list self d page per_page filters =
        Ok (take (Z.to_nat per_page) (drop (Z.to_nat (per_page * (page - 1))) items)))) ∧
  (2 ^ 1024 - 2 ^ 970 ≤ per_page →
   get_list self d page per_page filters = Raise OverflowError).
Proof.
  intros Hitems count Hcount Hpp Hpage. split.
  - intros Hfloat.
    destruct (of_int_defined per_page ltac:(lia)) as [y Hy].
    pose proof (pages_of_ceil count per_page y ltac:(lia) Hpp Hy) as Hpages.
    pose proof (ceil_bounds count per_page Hpp) as Hb. cbv zeta in Hb.
    set (pages := (count + per_page - 1) / per_page) in *.
    assert (Hpos : 0 ≤ pages) by (subst count; nia).
    exists pages. split; [done|]. split; [done|].
    rewrite !(get_list_pages self d _ per_page filters items pages Hitems Hpages).
    destruct (decide (pages = 0)) as [Hz|Hz].
    { repeat split; eauto; intros; done. }
    cbv zeta. split; [eauto|]. split; [done|]. split.
    + intros Hgt. destruct (decide (page > pages)); [|lia].
      destruct (decide (pages > pages)); [lia|done].
    + intros _ Hle. destruct (decide (page > pages)); [lia|].
      rewrite py_slice_inside by nia. do 3 f_equal. lia.
  - intros Hover. unfold get_list. rewrite Hitems. cbn [mbind result_bind].
    unfold pages_of. by rewrite (of_int_overflow per_page Hover).
Qed.

(** Page 7 of five orders, two to a page, is the last page, the third. *)
Lemma get_list_paginates_witness :
  get_list Sample.orders Sample.data 7 2 [] = get_list Sample.orders Sample.data 3 2 [].
Proof.
  destruct (get_list_paginates Sample.orders Sample.data 7 2 [] [4; 5; 6; 7; 8]%nat)
    as [Hpaged _]; [reflexivity|vm_compute; reflexivity|lia|lia|].
  destruct Hpaged as (pages & Hpages & _ & _ & _ & Hlast & _); [vm_compute; reflexivity|].
  vm_compute in Hpages. injection Hpages as <-. apply Hlast. lia.
Defined.

(** A page size that is no float. *)
Lemma get_list_overflow :
  get_list Sample.orders Sample.data 1 (2 ^ 1024) [] = Raise OverflowError.
Proof. vm_compute. reflexivity. Qed.

End PaginationFacts.

(** ** Depth-limited serialization *)

Module SerializerFacts.
Import SQLAlchemyProvider Descriptor.

Section loop.
Context (d : db) (o : oid) (dump : value → option (result dumped)).

(** Once the loop has failed it stays failed. *)
Lemma dump_loop_stuck (acc : option (result (gmap string dumped))) l m :
  foldl (dump_child d o dump) acc l = Some (Ok m) → ∃ acc0, acc = Some (Ok acc0).
Proof.
  revert acc. induction l as [|[name n] l IH]; simpl; intros acc H; [eauto|].
  apply IH in H as [acc1 H].
  destruct acc as [[acc0|e]|]; simpl in H; [eauto|done..].
Qed.

Lemma dump_loop_none l : foldl (dump_child d o dump) None l = None.
Proof. induction l as [|[??] l IH]; simpl; done. Qed.

(** One successful turn of the loop adds the field's entry, if any. *)
Lemma dump_child_inv acc0 name n acc1 :
  dump_child d o dump (Some (Ok acc0)) (name, n) = Some (Ok acc1) →
  acc1 = match child_entry d o dump name n with
         | Some r => <[name := r]> acc0
         | None => acc0
         end.
Proof.
  unfold dump_child, child_entry, kind_of.
  destruct (model_type n), (is_multiple n), (getattr d o name) as [v|e];
    try (destruct (dump v) as [[r|[]]|]); congruence.
Qed.

(** The dict the loop builds, field by field. *)
Lemma dump_loop_inv l acc m :
  NoDup l.*1 →
  foldl (dump_child d o dump) acc l = Some (Ok m) →
  ∃ acc0, acc = Some (Ok acc0) ∧
    ∀ name, m !! name =
      match (list_to_map l : gmap string node) !! name with
      | Some n => from_option Some (acc0 !! name) (child_entry d o dump name n)
      | None => acc0 !! name
      end.
Proof.
  revert acc. induction l as [|[name n] l IH]; simpl; intros acc Hnd H.
  { exists m. split; [done|]. intros name. by rewrite lookup_empty. }
  apply NoDup_cons in Hnd as [Hnotin Hnd].
  destruct (IH _ Hnd H) as (acc1 & Hstep & Hm).
  destruct (dump_loop_stuck _ [(name, n)] acc1 Hstep) as [acc0 ->].
  exists acc0. split; [done|]. intros name'.
  apply dump_child_inv in Hstep. rewrite Hm.
  destruct (decide (name = name')) as [<-|Hne].
  - rewrite lookup_insert_eq.
    rewrite (not_elem_of_list_to_map_1 _ _ Hnotin). subst acc1.
    destruct (child_entry d o dump name n); simpl; [by rewrite lookup_insert_eq|done].
  - rewrite lookup_insert_ne by done.
    assert (acc1 !! name' = acc0 !! name') as ->; [|done].
    subst acc1. destruct (child_entry d o dump name n); [|done].
    by rewrite lookup_insert_ne.
Qed.

Lemma dump_loop_total l acc0 :
  Forall (λ '(name, n), step_ok d o dump name n) l →
  ∃ m, foldl (dump_child d o dump) (Some (Ok acc0)) l = Some (Ok m).
Proof.
  revert acc0. induction l as [|[name n] l IH]; cbn [foldl]; intros acc0 H; [eauto|].
  apply Forall_cons in H as [Hstep H].
  assert (∃ acc1, dump_child d o dump (Some (Ok acc0)) (name, n) = Some (Ok acc1))
    as [acc1 ->]; [|by apply IH].
  unfold step_ok, kind_of in Hstep. unfold dump_child.
  destruct (model_type n), (is_multiple n); eauto.
  - destruct Hstep as (v & -> & [[r ->]| ->]); eauto.
  - destruct Hstep as (v & ->); eauto.
  - destruct Hstep as (v & ->); eauto.
Qed.
End loop.

Section dump.
Context (t : tree) (d : db).

Lemma dump_loop_some o dump l acc :
  (∀ v, is_Some (dump v)) → is_Some acc →
  is_Some (foldl (dump_child d o dump) acc l).
Proof.
  intros Hdump. revert acc. induction l as [|[name n] l IH]; cbn [foldl]; [done|].
  intros acc [a ->]. apply IH. unfold dump_child.
  destruct a as [acc0|e]; [|done].
  destruct (model_type n), (is_multiple n), (getattr d o name) as [v|e]; try done.
  destruct (Hdump v) as [[r|[]] ->]; done.
Qed.

(** The model never runs out of budget: [dump_instance] always returns
    or raises. *)
Lemma dump_instance_fuel_some k n instance depth :
  (2 - depth ≤ k)%nat → (k < n)%nat →
  is_Some (dump_instance_fuel n t d instance depth).
Proof.
  revert n instance depth.
  induction k as [|k IH]; intros [|n] instance depth Hk Hn; try lia; cbn [dump_instance_fuel].
  - destruct (decide (1 < depth)%nat); [done|lia].
  - destruct (decide (1 < depth)%nat); [done|].
    destruct instance as [| | |o|]; try done.
    destruct (heap d !! o) as [ob|]; [|done].
    destruct (to_dict ob); [done|].
    destruct (t (cls ob)) as [children|]; [|done].
    destruct (dump_loop_some o (λ v, dump_instance_fuel n t d v (S depth))
                (map_to_list children) (Some (Ok ∅))) as [[m|e] ->]; try done.
    intros v. apply IH; lia.
Qed.

Lemma dump_instance_some instance depth :
  is_Some (dump_instance t d instance depth).
Proof. apply (dump_instance_fuel_some (2 - depth)); lia. Qed.

Lemma dump_loop_mono o dump dump' l acc r :
  (∀ v r, dump v = Some r → dump' v = Some r) →
  foldl (dump_child d o dump) acc l = Some r →
  foldl (dump_child d o dump') acc l = Some r.
Proof.
  intros Hd. revert acc. induction l as [|[name n] l IH]; cbn [foldl]; [done|].
  intros acc H.
  destruct (dump_child d o dump acc (name, n)) as [a|] eqn:Hstep.
  - assert (dump_child d o dump' acc (name, n) = Some a) as ->; [|by apply IH].
    unfold dump_child in *.
    destruct acc as [[acc0|e]|]; [|done..].
    destruct (model_type n), (is_multiple n), (getattr d o name) as [v|e]; try done.
    destruct (dump v) as [r'|] eqn:Hv; [by rewrite (Hd _ _ Hv)|done].
  - by rewrite dump_loop_none in H.
Qed.

(** More budget changes nothing. *)
Lemma dump_instance_fuel_mono n instance depth r :
  dump_instance_fuel n t d instance depth = Some r →
  dump_instance_fuel (S n) t d instance depth = Some r.
Proof.
  revert instance depth r. induction n as [|n IH]; intros instance depth r H; [done|].
  cbn [dump_instance_fuel] in H.
  remember (S n) as n' eqn:Hn' in |- *. cbn [dump_instance_fuel].
  destruct (decide (1 < depth)%nat); [done|].
  destruct instance as [| | |o|]; try done.
  destruct (heap d !! o) as [ob|]; [|done].
  destruct (to_dict ob); [done|].
  destruct (t (cls ob)) as [children|]; [|done].
  destruct (foldl _ _ _) as [res|] eqn:Hloop in H; [|done].
  rewrite (dump_loop_mono _ _ (λ v, dump_instance_fuel n' t d v (S depth))
             _ _ _ (λ v r, eq_ind_r (λ k, _ → dump_instance_fuel k t d v (S depth) = Some r)
                              (IH v (S depth) r) Hn') Hloop).
  done.
Qed.

Lemma dump_instance_fuel_enough n instance depth :
  (2 - depth < n)%nat →
  dump_instance_fuel n t d instance depth = dump_instance t d instance depth.
Proof.
  intros Hn. destruct (dump_instance_some instance depth) as [r Hr].
  rewrite Hr. unfold dump_instance in Hr.
  induction Hn as [|n Hn IH]; [done|]. by apply dump_instance_fuel_mono.
Qed.

(** Past the ceiling every call raises, whatever the instance. *)
Lemma dump_instance_deep instance depth :
  (1 < depth)%nat → dump_instance t d instance depth = Some (Raise MaxDepthError).
Proof.
  intros H. unfold dump_instance. cbn [dump_instance_fuel].
  by destruct (decide (1 < depth)%nat).
Qed.

Lemma dump_instance_none depth :
  (depth ≤ 1)%nat → dump_instance t d VNone depth = Some (Ok (DDict ∅)).
Proof.
  intros H. unfold dump_instance. cbn [dump_instance_fuel].
  destruct (decide (1 < depth)%nat); [lia|done].
Qed.

Lemma dump_instance_custom o ob custom depth :
  (depth ≤ 1)%nat → heap d !! o = Some ob → to_dict ob = Some custom →
  dump_instance t d (VObj o) depth = Some (Ok custom).
Proof.
  intros H Ho Hc. unfold dump_instance. cbn [dump_instance_fuel].
  destruct (decide (1 < depth)%nat); [lia|]. by rewrite Ho, Hc.
Qed.

(** The descriptor-driven traversal, as one equation. *)
Lemma dump_instance_described o ob children depth :
  (depth ≤ 1)%nat → heap d !! o = Some ob → to_dict ob = None →
  t (cls ob) = Some children →
  dump_instance t d (VObj o) depth =
  match foldl (dump_child d o (λ v, dump_instance t d v (S depth)))
              (Some (Ok ∅)) (map_to_list children) with
  | Some (Ok result) => Some (Ok (DDict result))
  | Some (Raise e) => Some (Raise e)
  | None => None
  end.
Proof.
  intros H Ho Hc Ht. unfold dump_instance at 1. cbn [dump_instance_fuel].
  destruct (decide (1 < depth)%nat); [lia|]. rewrite Ho, Hc, Ht.
  destruct (foldl _ _ _) as [res|] eqn:Hloop.
  - erewrite dump_loop_mono; [done| |exact Hloop].
    intros v r Hv. rewrite <- Hv. symmetry.
    apply dump_instance_fuel_enough. lia.
  - exfalso.
    destruct (dump_loop_some o (λ v, dump_instance_fuel (2 - depth) t d v (S depth))
                (map_to_list children) (Some (Ok ∅))) as [? Hs]; [|done|congruence].
    intros v. apply (dump_instance_fuel_some (2 - S depth)); lia.
Qed.
End dump.

Section fields.
Context (t : tree) (d : db).

Lemma getattr_heap o ob name :
  heap d !! o = Some ob →
  getattr d o name = from_option Ok (Raise AttributeError) (attrs ob !! name).
Proof. intros H. unfold getattr. rewrite H. by destruct (attrs ob !! name). Qed.

Lemma child_entry_scalar o ob dump name n :
  heap d !! o = Some ob → kind_of n = Scalar →
  child_entry d o dump name n = DVal <$> attrs ob !! name.
Proof.
  intros Ho Hk. unfold child_entry. rewrite Hk, (getattr_heap o ob) by done.
  by destruct (attrs ob !! name).
Qed.

Lemma child_entry_reference o ob dump name n v :
  heap d !! o = Some ob → kind_of n = Reference → attrs ob !! name = Some v →
  child_entry d o dump name n =
  match dump v with Some (Ok r) => Some r | _ => None end.
Proof.
  intros Ho Hk Hv. unfold child_entry.
  by rewrite Hk, (getattr_heap o ob), Hv by done.
Qed.

Lemma child_entry_reference_list o dump name n :
  kind_of n = ReferenceList → child_entry d o dump name n = None.
Proof. intros Hk. unfold child_entry. by rewrite Hk. Qed.

(** What a successful descriptor-driven dump holds, field by field. *)
Lemma dump_instance_fields_inv o ob children depth out :
  heap d !! o = Some ob → to_dict ob = None → t (cls ob) = Some children →
  dump_instance t d (VObj o) depth = Some (Ok out) →
  (depth ≤ 1)%nat ∧
  ∃ m, out = DDict m ∧
    ∀ name, m !! name =
      children !! name ≫= child_entry d o (λ v, dump_instance t d v (S depth)) name.
Proof.
  intros Ho Hc Ht H.
  destruct (decide (depth ≤ 1)%nat) as [Hd|Hd];
    [|by rewrite dump_instance_deep in H by lia].
  split; [done|].
  rewrite (dump_instance_described t d o ob children) in H by done.
  destruct (foldl _ _ _) as [[m|e]|] eqn:Hloop; simplify_eq.
  exists m. split; [done|]. intros name.
  apply dump_loop_inv in Hloop as (acc0 & [= <-] & Hm);
    [|apply NoDup_fst_map_to_list].
  rewrite Hm, list_to_map_to_list, lookup_empty.
  destruct (children !! name) as [n|]; simpl; [|done].
  by destruct (child_entry _ _ _ _ _).
Qed.

(** When every field can be serialized, the dump succeeds. *)
Lemma dump_instance_fields o ob children depth :
  (depth ≤ 1)%nat →
  heap d !! o = Some ob → to_dict ob = None → t (cls ob) = Some children →
  map_Forall (step_ok d o (λ v, dump_instance t d v (S depth))) children →
  ∃ m, dump_instance t d (VObj o) depth = Some (Ok (DDict m)) ∧
    ∀ name, m !! name =
      children !! name ≫= child_entry d o (λ v, dump_instance t d v (S depth)) name.
Proof.
  intros Hd Ho Hc Ht Hok.
  assert (∃ m, dump_instance t d (VObj o) depth = Some (Ok (DDict m))) as [m Hm].
  { rewrite (dump_instance_described t d o ob children) by done.
    destruct (dump_loop_total d o (λ v, dump_instance t d v (S depth))
                (map_to_list children) ∅) as [m ->]; [|eauto].
    apply Forall_forall. intros [name n] Hin.
    apply elem_of_map_to_list in Hin. by apply Hok. }
  exists m. split; [done|].
  destruct (dump_instance_fields_inv _ _ _ _ _ Ho Hc Ht Hm) as (_ & m' & [= <-] & H).
  done.
Qed.

(** At depth 1 the nested calls all hit the ceiling: the dump of a
    described instance holds its scalar fields and nothing else. *)
Lemma dump_instance_depth_1 o ob children :
  heap d !! o = Some ob → described t ob children →
  ∃ m, dump_instance t d (VObj o) 1 = Some (Ok (DDict m)) ∧
    ∀ name, m !! name =
      children !! name ≫= λ n,
        match kind_of n with
        | Scalar => DVal <$> attrs ob !! name
        | _ => None
        end.
Proof.
  intros Ho (Hc & Ht & Hf).
  destruct (dump_instance_fields o ob children 1) as (m & Hm & Hl); try done.
  { intros name n Hn. specialize (Hf name n Hn). simpl in Hf.
    unfold step_ok, field_ok in *. rewrite (getattr_heap o ob) by done.
    destruct (kind_of n), (attrs ob !! name) as [v|]; try done; simpl; eauto.
    all: exists v; split; [done|]; right; by apply dump_instance_deep. }
  exists m. split; [done|]. intros name. rewrite Hl.
  destruct (children !! name) as [n|] eqn:Hn; simpl; [|done].
  unfold child_entry. rewrite (getattr_heap o ob) by done.
  destruct (kind_of n), (attrs ob !! name) as [v|]; simpl; try done.
  all: by rewrite dump_instance_deep by lia.
Qed.

(** A well-formed target of a reference serializes at depth 1. *)
Lemma dump_instance_target v :
  target_ok t d v → ∃ r, dump_instance t d v 1 = Some (Ok r).
Proof.
  destruct v as [| | |o|]; simpl; try done.
  { intros _. rewrite dump_instance_none by lia. eauto. }
  destruct (heap d !! o) as [ob|] eqn:Ho; [|done].
  intros [[custom Hc]|H].
  - rewrite (dump_instance_custom t d o ob custom) by (done || lia). eauto.
  - destruct (t (cls ob)) as [children|] eqn:Ht; [|done].
    destruct (dump_instance_depth_1 o ob children) as (m & -> & _); eauto.
Qed.

(** At depth 0 the dump of a described instance succeeds. *)
Lemma dump_instance_depth_0 o ob children :
  heap d !! o = Some ob → described t ob children → references_ok t d ob children →
  ∃ m, dump_instance t d (VObj o) 0 = Some (Ok (DDict m)) ∧
    ∀ name, m !! name =
      children !! name ≫= child_entry d o (λ v, dump_instance t d v 1) name.
Proof.
  intros Ho (Hc & Ht & Hf) Hr.
  apply (dump_instance_fields o ob children 0); try done; [lia|].
  intros name n Hn. specialize (Hf name n Hn). specialize (Hr name n Hn).
  simpl in Hf, Hr. unfold step_ok, field_ok in *.
  rewrite (getattr_heap o ob) by done.
  destruct (kind_of n), (attrs ob !! name) as [v|]; try done; simpl; eauto.
  exists v. split; [done|]. left. apply dump_instance_target. by apply Hr.
Qed.
End fields.

(** C2: an instance [a] whose graph is three deep, [a.r = b] and
    [b.h = c], serializes at depth 0 without raising.  The third hop is
    the only thing lost: [h] is absent from the dict of [b], every scalar
    field of [a] and of [b] and every single-valued reference of [a] is in
    the output, and what the dict of [b] holds is exactly the scalar
    fields of [b]. *)
Theorem dump_instance_depth_ceiling (t : tree) (d : db)
    (a b c : oid) (oa ob : object) (ca cb : gmap string node)
    (r h : string) (nr nh : node) :
  heap d !! a = Some oa → described t oa ca → references_ok t d oa ca →
  heap d !! b = Some ob → described t ob cb →
  ca !! r = Some nr → kind_of nr = Reference → attrs oa !! r = Some (VObj b) →
  cb !! h = Some nh → kind_of nh = Reference → attrs ob !! h = Some (VObj c) →
  ∃ m mb,
    dump_instance t d (VObj a) 0 = Some (Ok (DDict m)) ∧
    m !! r = Some (DDict mb) ∧
    mb !! h = None ∧
    (∀ f n, ca !! f = Some n → kind_of n = Scalar →
       ∃ v, attrs oa !! f = Some v ∧ m !! f = Some (DVal v)) ∧
    (∀ f n, ca !! f = Some n → kind_of n = Reference → is_Some (m !! f)) ∧
    (∀ g n, cb !! g = Some n → kind_of n = Scalar →
       ∃ v, attrs ob !! g = Some v ∧ mb !! g = Some (DVal v)) ∧
    (∀ g, is_Some (mb !! g) ↔ ∃ n, cb !! g = Some n ∧ kind_of n = Scalar).
Proof.
  intros Ha Hda Hra Hb Hdb Hr Hkr Har Hh Hkh Hbh.
  destruct (dump_instance_depth_0 t d a oa ca Ha Hda Hra) as (m & Hm & Hl).
  destruct (dump_instance_depth_1 t d b ob cb Hb Hdb) as (mb & Hmb & Hlb).
  destruct Hda as (_ & _ & Hfa). destruct Hdb as (_ & _ & Hfb).
  exists m, mb. split; [done|]. repeat split.
  - rewrite Hl, Hr. simpl.
    by rewrite (child_entry_reference d a oa _ r nr (VObj b)), Hmb.
  - by rewrite Hlb, Hh; simpl; rewrite Hkh.
  - intros f n Hf Hk. specialize (Hfa f n Hf). simpl in Hfa.
    unfold field_ok in Hfa. rewrite Hk in Hfa.
    destruct (attrs oa !! f) as [v|] eqn:Hv; [|done].
    exists v. split; [done|]. rewrite Hl, Hf. simpl.
    by rewrite (child_entry_scalar d a oa), Hv.
  - intros f n Hf Hk. specialize (Hfa f n Hf). specialize (Hra f n Hf Hk).
    simpl in Hfa. unfold field_ok in Hfa. rewrite Hk in Hfa.
    destruct (attrs oa !! f) as [v|] eqn:Hv; [|done].
    destruct (dump_instance_target t d v) as [x Hx]; [by apply Hra|].
    rewrite Hl, Hf. simpl.
    by rewrite (child_entry_reference d a oa _ f n v), Hx.
  - intros g n Hg Hk. specialize (Hfb g n Hg). simpl in Hfb.
    unfold field_ok in Hfb. rewrite Hk in Hfb.
    destruct (attrs ob !! g) as [v|] eqn:Hv; [|done].
    exists v. split; [done|]. by rewrite Hlb, Hg; simpl; rewrite Hk, Hv.
  - rewrite Hlb. intros [x Hx].
    destruct (cb !! g) as [n|]; simpl in Hx; [|done].
    exists n. split; [done|]. by destruct (kind_of n).
  - intros (n & Hg & Hk). specialize (Hfb g n Hg). simpl in Hfb.
    unfold field_ok in Hfb. rewrite Hk in Hfb.
    rewrite Hlb, Hg. simpl. rewrite Hk.
    by destruct (attrs ob !! g).
Qed.

(** C9: whatever the depth, the dict [dump_instance] builds for an
    instance holds no multi-valued reference field of the instance's
    class, and neither does the dict nested in it for a single-valued
    reference. *)
Theorem dump_instance_omits_reference_lists (t : tree) (d : db)
    (o : oid) (ob : object) (children : gmap string node)
    (depth : nat) (out : dumped) :
  heap d !! o = Some ob → to_dict ob = None → t (cls ob) = Some children →
  dump_instance t d (VObj o) depth = Some (Ok out) →
  ∃ m, out = DDict m ∧
    (∀ f n, children !! f = Some n → kind_of n = ReferenceList → m !! f = None) ∧
    (∀ r b ob' children' mb,
       attrs ob !! r = Some (VObj b) →
       heap d !! b = Some ob' → to_dict ob' = None → t (cls ob') = Some children' →
       m !! r = Some (DDict mb) →
       ∀ g n, children' !! g = Some n → kind_of n = ReferenceList → mb !! g = None).
Proof.
  intros Ho Hc Ht H.
  destruct (dump_instance_fields_inv t d o ob children depth out Ho Hc Ht H)
    as (Hd & m & -> & Hl).
  exists m. split; [done|]. split.
  - intros f n Hf Hk. rewrite Hl, Hf. simpl. by apply child_entry_reference_list.
  - intros r b ob' children' mb Hr Hb Hc' Ht' Hn.
    rewrite Hl in Hn. destruct (children !! r) as [n|]; simpl in Hn; [|done].
    destruct (kind_of n) eqn:Hk.
    { by rewrite (child_entry_scalar d o ob), Hr in Hn by done. }
    2: { by rewrite child_entry_reference_list in Hn. }
    rewrite (child_entry_reference d o ob _ r n (VObj b)) in Hn by done.
    destruct (dump_instance t d (VObj b) (S depth)) as [[x|e]|] eqn:Hx; simplify_eq.
    destruct (dump_instance_fields_inv t d b ob' children' (S depth) _ Hb Hc' Ht' Hx)
      as (_ & mb' & [= <-] & Hlb).
    intros g n' Hg Hk'. rewrite Hlb, Hg. simpl. by apply child_entry_reference_list.
Qed.

(** C10: at depths 0 and 1 the absent instance serializes to the empty
    dict; a single-valued reference that is unset is [{}] wherever the
    output has it, and the output of a dump at depth 0 has it. *)
Theorem dump_instance_unset_reference (t : tree) (d : db)
    (o : oid) (ob : object) (children : gmap string node)
    (r : string) (n : node) (depth : nat) :
  (depth ≤ 1)%nat →
  heap d !! o = Some ob → described t ob children → references_ok t d ob children →
  children !! r = Some n → kind_of n = Reference → attrs ob !! r = Some VNone →
  dump_instance t d VNone depth = Some (Ok (DDict ∅)) ∧
  (∀ m x, dump_instance t d (VObj o) depth = Some (Ok (DDict m)) →
          m !! r = Some x → x = DDict ∅) ∧
  (∃ m, dump_instance t d (VObj o) 0 = Some (Ok (DDict m)) ∧ m !! r = Some (DDict ∅)).
Proof.
  intros Hd Ho Hdesc Hrefs Hr Hk Hv.
  split; [by apply dump_instance_none|]. split.
  - intros m x Hm Hx. destruct Hdesc as (Hc & Ht & _).
    destruct (dump_instance_fields_inv t d o ob children depth _ Ho Hc Ht Hm)
      as (_ & m' & [= <-] & Hl).
    rewrite Hl, Hr in Hx. simpl in Hx.
    rewrite (child_entry_reference d o ob _ r n VNone) in Hx by done.
    destruct (decide (depth = 0)%nat) as [->|];
      [|by assert (depth = 1)%nat as -> by lia].
    rewrite dump_instance_none in Hx by lia. congruence.
  - destruct (dump_instance_depth_0 t d o ob children Ho Hdesc Hrefs) as (m & Hm & Hl).
    exists m. split; [done|]. rewrite Hl, Hr. simpl.
    rewrite (child_entry_reference d o ob _ r n VNone) by done.
    by rewrite dump_instance_none by lia.
Qed.


(** Ann, her address and its country: the country is the third hop. *)
Lemma dump_instance_depth_ceiling_witness :
  ∃ m mb,
    dump_instance Sample.resources Sample.data (VObj 1%nat) 0 = Some (Ok (DDict m)) ∧
    m !! "address"%string = Some (DDict mb) ∧
    mb !! "country"%string = None ∧
    mb !! "city"%string = Some (DVal (VStr "Paris")).
Proof.
  destruct (dump_instance_depth_ceiling Sample.resources Sample.data 1%nat 2%nat 3%nat
              Sample.ann Sample.ann_address Sample.user_node Sample.address_node
              "address"%string "country"%string
              (Node (Some "Address"%string) false) (Node (Some "Country"%string) false))
    as (m & mb & Hm & Hr & Hh & _ & _ & Hb & _).
  - reflexivity.
  - apply (bool_decide_unpack _). vm_compute. exact I.
  - apply (bool_decide_unpack _). vm_compute. exact I.
  - reflexivity.
  - apply (bool_decide_unpack _). vm_compute. exact I.
  - reflexivity.
  - reflexivity.
  - reflexivity.
  - reflexivity.
  - reflexivity.
  - reflexivity.
  - exists m, mb. split; [exact Hm|]. split; [exact Hr|]. split; [exact Hh|].
    destruct (Hb "city"%string (Node None false)) as (v & Hv & Hcity);
      [reflexivity|reflexivity|].
    rewrite Hcity. f_equal. f_equal. vm_compute in Hv. congruence.
Defined.

(** Ann's orders are in no part of her dump. *)
Lemma dump_instance_omits_reference_lists_witness :
  ∃ m, dump_instance Sample.resources Sample.data (VObj 1%nat) 0 = Some (Ok (DDict m)) ∧
       m !! "orders"%string = None.
Proof.
  destruct (dump_instance Sample.resources Sample.data (VObj 1%nat) 0)
    as [[out|e]|] eqn:Hout; [|vm_compute in Hout; discriminate..].
  destruct (dump_instance_omits_reference_lists Sample.resources Sample.data 1%nat
              Sample.ann Sample.user_node 0 out)
    as (m & -> & Hlists & _); [reflexivity..|exact Hout|].
  exists m. split; [reflexivity|].
  apply (Hlists "orders"%string (Node (Some "Order"%string) true)); reflexivity.
Defined.

(** Ann has no manager: the field is there, and empty. *)
Lemma dump_instance_unset_reference_witness :
  ∃ m, dump_instance Sample.resources Sample.data (VObj 1%nat) 0 = Some (Ok (DDict m)) ∧
       m !! "manager"%string = Some (DDict ∅).
Proof.
  apply (dump_instance_unset_reference Sample.resources Sample.data 1%nat
           Sample.ann Sample.user_node "manager"%string
           (Node (Some "User"%string) false) 1).
  - lia.
  - reflexivity.
  - apply (bool_decide_unpack _). vm_compute. exact I.
  - apply (bool_decide_unpack _). vm_compute. exact I.
  - reflexivity.
  - reflexivity.
  - reflexivity.
Defined.

End SerializerFacts.

(** ** Handlers *)

Module HandlerFacts.

Lemma bind_ok {A B} (m : handler A) (k : A → handler B) s a s' :
  m s = (Ok a, s') → (m ≫= k) s = k a s'.
Proof. intros H. unfold mbind, handler_bind. by rewrite H. Qed.

Lemma bind_raise {A B} (m : handler A) (k : A → handler B) s e s' :
  m s = (Raise e, s') → (m ≫= k) s = (Raise e, s').
Proof. intros H. unfold mbind, handler_bind. by rewrite H. Qed.

Ltac run_handler :=
  unfold mbind, handler_bind, mret, handler_ret, fmap, handler_fmap, lift, raise.

Lemma fmap_ok {A B} (f : A → B) (m : handler A) s a s' :
  m s = (Ok a, s') → (f <$> m) s = (Ok (f a), s').
Proof. intros H. unfold fmap, handler_fmap. by rewrite H. Qed.

End HandlerFacts.

(** ** Authentication *)

Module AuthFacts.
Import RequestHandler Auth HandlerFacts.

Section auth.
Context (opts : options) (tokens : jwt)
        (providers : gmap string auth_provider)
        (req : request) (clock : nat → Z)
        (loads : string → result (gmap string json)).


(** C6: on a request guarded by [authenticated] whose token is not
    valid, the status is set to 401 and [Finish] raised; the guarded
    method never runs, and nothing else of the state changes. *)
Theorem authenticated_rejects {A} (method : handler A)
    (payload : option (gmap string json)) (s : state) :
  try_to_decode tokens (get_cookie req (cookie_name opts)) = (false, payload) →
  authenticated opts tokens req clock method s = (Raise Finish, unauthorized s).
Proof.
  intros Hinvalid. unfold authenticated, _is_authenticated.
  unfold mbind at 1, handler_bind, mret, handler_ret. by rewrite Hinvalid.
Qed.

(** C7: when the identity provider answers nothing for the access
    token, sign-in sends the unauthorized signal, sets the status to 401
    and raises [Finish], with no cookie set and nothing written; and
    whenever sign-in does change the response cookies, the provider has
    answered a user record, and the cookie set is the token encoded from
    it. *)
Theorem signin_requires_user_record (post_data : gmap string json) (s : state) :
  loads (request_body req) = Ok post_data →
  let access_token := default JNone (post_data !! "access_token") in
  let provider_name := default JNone (post_data !! "provider") in
  (∀ name provider,
     provider_name = JStr name → providers !! name = Some provider →
     authenticate provider access_token = Ok None →
     signin_post opts tokens providers req clock loads s =
     (Raise Finish,
      State 401 (Some "Unauthorized"%string) (headers s) (cookies s) (body s)
        (finished s) (signals s ++ [unauthorized_user provider_name])
        (store s) (ticks s))) ∧
  (∀ r s',
     signin_post opts tokens providers req clock loads s = (r, s') →
     cookies s' ≠ cookies s →
     ∃ name provider user_data sub,
       provider_name = JStr name ∧ providers !! name = Some provider ∧
       authenticate provider access_token = Ok (Some user_data) ∧
       user_data !! "id" = Some sub ∧
       cookies s' =
       <[cookie_name opts :=
           encode tokens
             (<["sub" := sub]> (<["data" := JDict user_data]>
              (<["iss" := provider_name]> (<["token" := access_token]>
              (<["iat" := JTime (clock (ticks s))]>
              (<["exp" := JTime (clock (S (ticks s)) + timedelta (expiration opts))]>
               ∅))))))]> (cookies s)).
Proof.
  intros Hloads access_token provider_name. split.
  - intros name provider Hname Hprov Habsent.
    subst access_token provider_name.
    unfold signin_post, providers_get. rewrite Hloads. run_handler.
    rewrite Hname, Hprov, Habsent. done.
  - intros r s'. subst access_token provider_name.
    unfold signin_post, providers_get. rewrite Hloads. run_handler.
    assert (∀ (e : exn) (s0 : state) (G : Prop),
              cookies s0 = cookies s →
              (Raise e, s0) = (r, s') → cookies s' ≠ cookies s → G) as Hsame.
    { intros e s0 G Hs0 [= _ <-] Hne. by destruct Hne. }
    destruct (default JNone (post_data !! "provider")) as [| | name | |];
      try by apply Hsame.
    destruct (providers !! name) as [provider|] eqn:Hprov; [|by apply Hsame].
    destruct (authenticate provider _) as [[user_data|]|e] eqn:Hauth;
      try by apply Hsame.
    unfold truthy.
    destruct (bool_decide (user_data ≠ ∅)); [|by apply Hsame].
    change (default ∅ (Some user_data)) with user_data.
    destruct (user_data !! "id") as [sub|] eqn:Hsub; [|by apply Hsame].
    unfold write, send, set_cookie, utcnow, modify.
    cbn [finished cookies ticks].
    destruct (finished s) eqn:Hfin; intros [= _ <-] _; cbn [cookies];
      by exists name, provider, user_data, sub.
Qed.
End auth.



(** An anonymous request never reaches the guarded method. *)
Lemma authenticated_rejects_witness :
  authenticated Sample.auth_options Sample.tokens Sample.anonymous Sample.clock
    (write (Text "hello")) Sample.fresh =
  (Raise Finish,
   State 401 (Some "Unauthorized"%string) ∅ ∅ [] false [] Sample.data 0).
Proof.
  apply (authenticated_rejects Sample.auth_options Sample.tokens Sample.anonymous
           Sample.clock (write (Text "hello")) None Sample.fresh).
  reflexivity.
Defined.

(** A sign-in with an access token the provider does not know. *)
Lemma signin_requires_user_record_witness :
  signin_post Sample.auth_options Sample.tokens Sample.identity_providers
    Sample.wrong_signin Sample.clock Sample.loads Sample.fresh =
  (Raise Finish,
   State 401 (Some "Unauthorized"%string) ∅ ∅ [] false
     [unauthorized_user (JStr "google")] Sample.data 0).
Proof.
  apply (proj1 (signin_requires_user_record Sample.auth_options Sample.tokens
                  Sample.identity_providers Sample.wrong_signin Sample.clock
                  Sample.loads
                  {[ "access_token"%string := JStr "zzz";
                     "provider"%string := JStr "google" ]}
                  Sample.fresh eq_refl) "google"%string Sample.google);
    reflexivity.
Defined.

(** A sign-in with the access token the provider knows sets the cookie. *)
Example signin_known_user :
  ∃ s', signin_post Sample.auth_options Sample.tokens Sample.identity_providers
          (Request ∅ "right") Sample.clock Sample.loads Sample.fresh = (Ok (), s') ∧
        cookies s' !! "AUTH_TOKEN"%string = Some "jwt:u1"%string.
Proof. eexists. split; vm_compute; reflexivity. Qed.

End AuthFacts.

(** ** The CRUD dispatcher *)

Module ModelRestHandlerFacts.
Import RequestHandler ModelRestHandler HandlerFacts StringFacts.

Section dispatch.
Context (self_model : string)
        (get_instance : value → handler (option oid))
        (get_model : value → string → handler (option string))
        (get_list : handler (list oid))
        (update_instance :
           value → list (string * option string) → handler (list SQLAlchemyProvider.item))
        (delete_instance : value → handler (option oid))
        (get_request_data : list (string * option string))
        (json_dumps : json_arg → result string).

(** A one-segment path [collection/id] resolves to whatever the
    provider fetches for [id]: the instance, or nothing. *)
Lemma get_parent_model_root (collection id_ : string) (s s1 : state)
    (instance : option oid) :
  collection ≠ ""%string →
  str_contains "/" collection = false → str_contains "/" id_ = false →
  get_instance (VStr id_) s = (Ok instance, s1) →
  ∃ model,
    get_parent_model get_instance get_model [collection +:+ String "/" id_] s =
    (Ok (SQLAlchemyProvider.of_instance instance, collection, Some model, Some id_), s1).
Proof.
  intros Hne Hc Hi Hget. unfold get_parent_model.
  assert (collection +:+ String "/" id_ ≠ ""%string) as Hseg by by destruct collection.
  cbn [List.filter]. rewrite bool_decide_true by done.
  cbn [removelast resolve_parents last].
  rewrite (str_lstrip_no_sep "/") by done.
  rewrite (str_contains_app "/").
  unfold split_pair. rewrite (str_split_pair "/") by done.
  run_handler. rewrite Hget. cbn. eauto.
Qed.

(** A two-segment path [collection/parent_id], [field/id] resolves to
    what the parent holds in [field]: the terminal id selects nothing. *)
Lemma get_parent_model_held (collection parent_id field_name id_ : string)
    (s s1 : state) (parent : oid) (held : value) :
  collection ≠ ""%string → field_name ≠ ""%string →
  str_contains "/" collection = false → str_contains "/" parent_id = false →
  str_contains "/" field_name = false → str_contains "/" id_ = false →
  get_instance (VStr parent_id) s = (Ok (Some parent), s1) →
  SQLAlchemyProvider.getattr_value (store s1) (VObj parent) field_name = Ok held →
  get_parent_model get_instance get_model
    [collection +:+ String "/" parent_id; field_name +:+ String "/" id_] s =
  (model ← get_model held field_name; mret (held, field_name, model, Some id_)) s1.
Proof.
  intros Hc Hf Hc' Hp Hf' Hi Hget Hheld. unfold get_parent_model.
  assert (collection +:+ String "/" parent_id ≠ ""%string) as Hseg by by destruct collection.
  assert (field_name +:+ String "/" id_ ≠ ""%string) as Hseg' by by destruct field_name.
  cbn [List.filter]. rewrite !bool_decide_true by done.
  cbn [removelast resolve_parents last].
  rewrite (str_lstrip_no_sep "/") by done.
  rewrite (str_contains_app "/").
  unfold split_pair. rewrite !(str_split_pair "/") by done.
  unfold getattr. run_handler. rewrite Hget. cbn. cbn in Hheld. by rewrite Hheld.
Qed.

(** C4: a GET whose path carries a terminal id.  On a one-segment path
    [collection/id] the id is handed to [get_instance]: when the provider
    has no instance for it, the answer is the 404 of [send_error], with no
    exception; when it has one, the instance is handed to [json.dumps], and
    the request ends as that ends.  On a two-segment path
    [collection/parent_id], [field/id] the terminal id is never handed to
    the provider: what the parent holds in [field] is served, whatever the
    id, and no 404 is answered unless the parent holds nothing.  What is
    served is encoded twice and the request finished; an object [json.dumps]
    has no encoding for ends the request with its exception. *)
Theorem get_with_terminal_id :
  let serve (obj : value) : handler () :=
    text ← dump_object json_dumps obj;
    write_json json_dumps (OfString text);;
    finish in
  (∀ collection id_ s s1 instance,
     collection ≠ ""%string →
     str_contains "/" collection = false → str_contains "/" id_ = false →
     get_instance (VStr id_) s = (Ok instance, s1) →
     get get_instance get_model get_list json_dumps
         [collection +:+ String "/" id_] s =
     match instance with
     | None =>
         (Ok (), State 404 None ∅ (cookies s1) [ErrorPage 404] true
                   (signals s1) (store s1) (ticks s1))
     | Some o => serve (VObj o) s1
     end) ∧
  (∀ collection parent_id field_name id_ s s1 parent held,
     collection ≠ ""%string → field_name ≠ ""%string →
     str_contains "/" collection = false → str_contains "/" parent_id = false →
     str_contains "/" field_name = false → str_contains "/" id_ = false →
     get_instance (VStr parent_id) s = (Ok (Some parent), s1) →
     SQLAlchemyProvider.getattr_value (store s1) (VObj parent) field_name = Ok held →
     held ≠ VNone →
     get get_instance get_model get_list json_dumps
         [collection +:+ String "/" parent_id; field_name +:+ String "/" id_] s =
     (get_model held field_name;; serve held) s1) ∧
  (∀ obj s1,
     (∀ e, json_dumps (OfInstance obj) = Raise e → serve obj s1 = (Raise e, s1)) ∧
     (∀ text encoded,
        json_dumps (OfInstance obj) = Ok text →
        json_dumps (OfString text) = Ok encoded →
        finished s1 = false →
        serve obj s1 =
        (Ok (), State (status s1) (reason s1)
                  (<["Content-Type" := "application/json"]> (headers s1))
                  (cookies s1) (body s1 ++ [Text encoded]) true
                  (signals s1) (store s1) (ticks s1)))).
Proof.
  intros serve. split; [|split].
  - intros collection id_ s s1 instance Hne Hc Hi Hget.
    destruct (get_parent_model_root collection id_ s s1 instance Hne Hc Hi Hget)
      as [model Hpath].
    unfold get. rewrite (bind_ok _ _ _ _ _ Hpath). by destruct instance.
  - intros collection parent_id field_name id_ s s1 parent held
      Hc Hf Hc' Hp Hf' Hi Hget Hheld Hsome.
    unfold get. run_handler.
    rewrite (get_parent_model_held collection parent_id field_name id_ s s1 parent held)
      by done.
    run_handler. destruct (get_model held field_name s1) as [[model|e] s2]; [|done].
    by destruct held.
  - intros obj s1. split.
    + intros e He. unfold serve, dump_object. run_handler. by rewrite He.
    + intros text encoded Htext Henc Hfin.
      unfold serve, dump_object, write_json, set_header, write, finish, modify.
      run_handler. rewrite Htext, Henc. cbn [finished]. by rewrite Hfin.
Qed.

(** A DELETE whose path resolves with a terminal id
    hands the id to [delete_instance]; an instance found is announced
    by one [post_delete_instance] signal and answered [OK], nothing
    found is answered [FAIL] with no signal and no exception. *)
Lemma delete_dispatch (args : list string) (s s1 s2 : state)
    (obj : value) (field_name : string) (model : option string) (pk : string)
    (instance : option oid) :
  get_parent_model get_instance get_model args s =
    (Ok (obj, field_name, model, Some pk), s1) →
  delete_instance (VStr pk) s1 = (Ok instance, s2) →
  finished s2 = false →
  delete self_model get_instance get_model delete_instance args s =
  (Ok (),
   State (status s2) (reason s2) (headers s2) (cookies s2)
     (body s2 ++ [Text match instance with Some _ => "OK" | None => "FAIL" end])
     false
     (signals s2 ++
        match instance with
        | Some o => [post_delete_instance self_model o]
        | None => []
        end)
     (store s2) (ticks s2)).
Proof.
  intros Hpath Hdel Hfin. unfold delete.
  rewrite (bind_ok _ _ _ _ _ Hpath). cbn [of_pk].
  rewrite (bind_ok _ _ _ _ _ Hdel).
  unfold send, write, modify. run_handler.
  destruct instance; cbn [finished]; rewrite Hfin; [done|].
  by rewrite app_nil_r.
Qed.
End dispatch.

Section sqlalchemy.
Context (self_model : string)
        (get_instance : value → handler (option oid))
        (get_model : value → string → handler (option string)).

(** C8: a DELETE with a terminal id, served by the SQLAlchemy provider.
    When the provider finds an instance with that id it deletes it, and
    the dispatcher sends exactly one [post_delete_instance] signal and
    answers [OK]; when there is none, nothing is deleted, no signal is
    sent, the answer is [FAIL], and no exception is raised. *)
Theorem delete_with_terminal_id (self : SQLAlchemyProvider.provider)
    (args : list string) (s s1 : state)
    (obj : value) (field_name : string) (model : option string) (pk : string)
    (instance : option oid) :
  get_parent_model get_instance get_model args s =
    (Ok (obj, field_name, model, Some pk), s1) →
  SQLAlchemyProvider.get_instance self (store s1) (VStr pk) None = Ok instance →
  finished s1 = false →
  delete self_model get_instance get_model (provider_delete_instance self) args s =
  (Ok (),
   match instance with
   | Some o =>
       State (status s1) (reason s1) (headers s1) (cookies s1)
         (body s1 ++ [Text "OK"]) false
         (signals s1 ++ [post_delete_instance self_model o])
         (SQLAlchemyProvider.db_delete (store s1) o) (ticks s1)
   | None =>
       State (status s1) (reason s1) (headers s1) (cookies s1)
         (body s1 ++ [Text "FAIL"]) false
         (signals s1) (store s1) (ticks s1)
   end).
Proof.
  intros Hpath Hget Hfin.
  assert (provider_delete_instance self (VStr pk) s1 =
          (Ok instance,
           with_store s1 match instance with
                         | Some o => SQLAlchemyProvider.db_delete (store s1) o
                         | None => store s1
                         end)) as Hdel.
  { unfold provider_delete_instance, SQLAlchemyProvider.delete_instance.
    rewrite Hget. by destruct instance. }
  rewrite (delete_dispatch self_model get_instance get_model _ args s s1 _ obj
             field_name model pk instance Hpath Hdel) by done.
  destruct instance; cbn; [done|]. by rewrite app_nil_r.
Qed.
End sqlalchemy.


(** [GET /users/999]: there is no such user.
    [GET /users/1/address/999]: no address has the id 999, and the
    request ends in the [TypeError] of calling the provider's [get_model]
    with two arguments.  With a model provider that answers, it ends in the
    [TypeError] of encoding Ann's address. *)
Lemma get_with_terminal_id_witness :
  get (provider_get_instance Sample.users) Dispatch.provider_get_model (mret [])
    Sample.json_dumps ["users/999"%string] Sample.fresh =
  (Ok (), State 404 None ∅ ∅ [ErrorPage 404] true [] Sample.data 0) ∧
  get (provider_get_instance Sample.users) Dispatch.provider_get_model (mret [])
    Sample.json_dumps ["users/1"; "address/999"]%string Sample.fresh =
  (Raise TypeError, Sample.fresh) ∧
  get (provider_get_instance Sample.users) Sample.no_model (mret [])
    Sample.json_dumps ["users/1"; "address/999"]%string Sample.fresh =
  (Raise TypeError, Sample.fresh).
Proof.
  split; [|split].
  - apply (proj1 (get_with_terminal_id (provider_get_instance Sample.users)
                    Dispatch.provider_get_model (mret []) Sample.json_dumps)
             "users"%string "999"%string Sample.fresh Sample.fresh None);
      done.
  - rewrite (proj1 (proj2 (get_with_terminal_id (provider_get_instance Sample.users)
                             Dispatch.provider_get_model (mret []) Sample.json_dumps))
               "users"%string "1"%string "address"%string "999"%string
               Sample.fresh Sample.fresh 1%nat (VObj 2%nat));
      done.
  - rewrite (proj1 (proj2 (get_with_terminal_id (provider_get_instance Sample.users)
                             Sample.no_model (mret []) Sample.json_dumps))
               "users"%string "1"%string "address"%string "999"%string
               Sample.fresh Sample.fresh 1%nat (VObj 2%nat));
      done.
Defined.

(** [GET /users/1]: Ann is there, and the standard [json] module has no
    encoding for her. *)
Example get_present :
  get (provider_get_instance Sample.users) Dispatch.provider_get_model (mret [])
    Sample.json_dumps ["users/1"%string] Sample.fresh =
  (Raise TypeError, Sample.fresh).
Proof. vm_compute. reflexivity. Qed.

(** [GET /users/1/name/999]: Ann's name, whatever the id. *)
Example get_nested_answers :
  get (provider_get_instance Sample.users) Sample.no_model (mret [])
    Sample.json_dumps ["users/1"; "name/999"]%string Sample.fresh =
  (Ok (), State 200 None {["Content-Type"%string := "application/json"%string]} ∅
            [Text (Sample.json_text (Sample.json_text "Ann"))] true [] Sample.data 0).
Proof. vm_compute. reflexivity. Qed.

(** [DELETE /users/999]: nothing to delete. *)
Lemma delete_with_terminal_id_witness :
  delete "User" (provider_get_instance Sample.users) Sample.no_model
    (provider_delete_instance Sample.users) ["users/999"%string] Sample.fresh =
  (Ok (), State 200 None ∅ ∅ [Text "FAIL"] false [] Sample.data 0).
Proof.
  apply (delete_with_terminal_id "User" (provider_get_instance Sample.users)
           Sample.no_model Sample.users ["users/999"%string] Sample.fresh Sample.fresh
           VNone "users" (Some "NoneType"%string) "999" None);
    reflexivity.
Defined.

(** [DELETE /users/1]: Ann is deleted, and the deletion announced once. *)
Example delete_present :
  delete "User" (provider_get_instance Sample.users) Sample.no_model
    (provider_delete_instance Sample.users) ["users/1"%string] Sample.fresh =
  (Ok (), State 200 None ∅ ∅ [Text "OK"] false [post_delete_instance "User" 1%nat]
            (SQLAlchemyProvider.db_delete Sample.data 1%nat) 0).
Proof. vm_compute. reflexivity. Qed.

(** [PUT /users/1] through the SQLAlchemy provider: the three values it
    hands back do not unpack into [instance, updated]. *)
Example put_cannot_unpack :
  put "User" (provider_get_instance Sample.users) Sample.no_model
    (provider_update_instance Sample.users)
    (SQLAlchemyProvider.request_data Sample.users) ["users/1"%string] Sample.fresh
  = (Raise ValueError,
     with_store Sample.fresh
       (store (provider_update_instance Sample.users (VStr "1") [] Sample.fresh).2)).
Proof. vm_compute. reflexivity. Qed.

End ModelRestHandlerFacts.

(** ** Updates *)

Module UpdateFacts.
Import SQLAlchemyProvider Update.

Lemma get_instance_total self d v target :
  has_id_field (default (self_model self) target) →
  ∃ r, get_instance self d v target = Ok r.
Proof.
  intros [f Hf]. unfold get_instance, get_id_field_name. rewrite Hf. cbn. eauto.
Qed.

Lemma get_model_registered reg f m :
  get_model reg f = Some m → m ∈ reg.
Proof.
  destruct f as [[|target uselist lazy]|]; try done. cbn.
  intros H. apply find_some in H as [H _]. by apply list_elem_of_In.
Qed.

Lemma update_loop_raise self m instance e data :
  foldl (λ acc kv, st ← acc; update_field self m instance st kv) (Raise e) data = Raise e.
Proof. induction data as [|kv data IH]; [done|]. cbn. apply IH. Qed.

Lemma update_loop_cons self m instance st kv data :
  update_loop self m instance st (kv :: data) =
  st' ← update_field self m instance st kv; update_loop self m instance st' data.
Proof.
  unfold update_loop. cbn [foldl]. unfold mbind at 2, result_bind.
  destruct (update_field self m instance st kv) as [st'|e]; [done|].
  apply update_loop_raise.
Qed.

(** What [update_instance] is given as [data] is never read. *)
Lemma update_instance_ignores_data self d pk data data' m instance :
  update_instance self d pk data m instance =
  update_instance self d pk data' m instance.
Proof. reflexivity. Qed.

(** With three parts or more, [fill_property] moves to the related
    instance and goes on from there, recording nothing. *)
Lemma fill_property_parts_nested self d m instance part piece piece' rest v u :
  fill_property_parts self d m instance (part :: piece :: piece' :: rest) v u =
  new_instance ← getattr_value d instance
                   (if str_endswith "[]" part then strip_brackets part else part);
  fill_property_parts self d (model_of (classes self) d new_instance) new_instance
    (piece :: piece' :: rest) v None.
Proof. reflexivity. Qed.

(** Without a dict to record in, [fill_property] records nothing. *)
Lemma fill_property_parts_none self parts d m instance v d' recorded :
  fill_property_parts self d m instance parts v None = Ok (d', recorded) →
  recorded = None.
Proof.
  revert d m instance. induction parts as [|part rest IH]; intros d m instance; [done|].
  destruct rest as [|piece [|piece' rest]].
  1, 2: cbn [fill_property_parts]; unfold mbind, result_bind;
    intros H; repeat (case_match; simplify_eq); done.
  rewrite fill_property_parts_nested. unfold mbind, result_bind.
  destruct (getattr_value d instance _); [apply IH|done].
Qed.

(** Recording the change does not alter what [fill_property] does to the
    data. *)
Lemma fill_property_recording self d m instance key v u d' recorded :
  fill_property self d m instance key v (Some u) = Ok (d', recorded) →
  fill_property self d m instance key v None = Ok (d', None).
Proof.
  unfold fill_property. destruct (str_split "." key) as [|part rest]; [done|].
  destruct rest as [|piece [|piece' rest]].
  1, 2: cbn [fill_property_parts]; unfold mbind, result_bind;
    intros H; repeat (case_match; simplify_eq); done.
  rewrite !fill_property_parts_nested. intros H. rewrite H.
  rewrite <- (fill_property_parts_nested self d m instance part piece piece' rest v None) in H.
  by rewrite (fill_property_parts_none _ _ _ _ _ _ _ _ H).
Qed.

(** A dotted key is applied by an update as it is by a creation. *)
Lemma update_field_dotted self m instance d u k v d' u' :
  str_contains "." k = true →
  update_field self m instance (d, u) (k, v) = Ok (d', u') →
  create_field self m instance d (k, v) = Ok d'.
Proof.
  intros Hdot. unfold update_field, create_field. rewrite Hdot. cbn [orb].
  unfold mbind, result_bind.
  destruct (fill_property self d (Some m) instance k v (Some u)) as [[d1 u1]|e] eqn:Hfill;
    [|done].
  intros [= <- _]. by rewrite (fill_property_recording _ _ _ _ _ _ _ _ _ Hfill).
Qed.

(** C3: what [update_instance] hands back.  Whenever it returns, it
    returns three values: [None], the instance and the changes recorded,
    not the pair of the instance and the changes.  [put], the one caller,
    unpacks two values: a PUT whose update succeeds raises [ValueError] once
    the update is committed, and sends no [post_update_instance]. *)
Theorem update_instance_answer (self : provider) :
  (∀ d pk data m instance d' answer,
     update_instance self d pk data m instance = Ok (d', answer) →
     ∃ v u, answer = [INone; IInstance v; IFields u]) ∧
  (∀ self_model get_instance get_model data args s s1 obj field_name model pk d' answer,
     ModelRestHandler.get_parent_model get_instance get_model args s
       = (Ok (obj, field_name, model, pk), s1) →
     update_instance self (store s1) (ModelRestHandler.of_pk pk) data None None
       = Ok (d', answer) →
     ModelRestHandler.put self_model get_instance get_model
       (ModelRestHandler.provider_update_instance self) data args s
       = (Raise ValueError, ModelRestHandler.with_store s1 d')).
Proof.
  assert (∀ d pk data m instance d' answer,
            update_instance self d pk data m instance = Ok (d', answer) →
            ∃ v u, answer = [INone; IInstance v; IFields u]) as Hthree.
  { intros d pk data m instance d' answer. unfold update_instance.
    destruct (match instance with Some o => _ | None => _ end) as [v|]; [|done].
    cbn [mbind result_bind].
    destruct (update_loop _ _ _ _ _) as [[d1 u]|]; [|done]. cbn.
    intros [= _ <-]. eauto. }
  split; [exact Hthree|].
  intros self_model get_instance get_model data args s s1 obj field_name model pk
    d' answer Hpath Hup.
  unfold ModelRestHandler.put. rewrite (HandlerFacts.bind_ok _ _ _ _ _ Hpath).
  unfold mbind, handler_bind, ModelRestHandler.provider_update_instance. rewrite Hup.
  by destruct (Hthree _ _ _ _ _ _ _ Hup) as (v & u & ->).
Qed.

(** [PUT /users/1]: Ann is renamed and moved to the address with id 21,
    and the request fails. *)
Lemma update_instance_answer_witness :
  ∃ d' u,
    update_instance Sample.users Sample.data (VStr "1") [] None None =
      Ok (d', [INone; IInstance (VObj 1%nat); IFields u]) ∧
    u !! "name"%string = Some (Change (VStr "Ann") (VStr "Bob")) ∧
    u !! "address"%string = Some (Change (VObj 2%nat) (VObj 9%nat)) ∧
    ModelRestHandler.put "User" (ModelRestHandler.provider_get_instance Sample.users)
      Dispatch.provider_get_model (ModelRestHandler.provider_update_instance Sample.users)
      [] ["users/1"%string] Sample.fresh
    = (Raise ValueError, ModelRestHandler.with_store Sample.fresh d').
Proof.
  eexists _, _. split; [reflexivity|]. split; [reflexivity|]. split; [reflexivity|].
  eapply (proj2 (update_instance_answer Sample.users) "User"%string
            (ModelRestHandler.provider_get_instance Sample.users)
            Dispatch.provider_get_model [] ["users/1"%string] Sample.fresh Sample.fresh
            (VObj 1%nat) "users"%string (Some "User"%string) (Some "1"%string));
    reflexivity.
Defined.

(** What comes back is not the pair [(instance, changed_fields)] of the
    specification. *)
Example update_instance_not_a_pair :
  ¬ ∃ d' instance changed,
      update_instance Sample.users Sample.data (VStr "1")
        (request_data Sample.users) None None =
      Ok (d', [IInstance instance; IFields changed]).
Proof. intros (d' & instance & changed & H). vm_compute in H. discriminate. Qed.


(** *** Dotted and [[]] keys

    A key that ends in [[]] and has no dot goes through [fill_property]
    in a creation only: the test in [update_instance] looks for the dot
    alone, and the key is then taken for an attribute name. *)

Example create_appends_to_list :
  ∃ d' o,
    save_new_instance Sample.users Sample.data Sample.User
      [("orders[]"%string, Some "40"%string)] = Ok (d', (o, VNone)) ∧
    getattr d' o "orders" = Ok (VList [Some 4%nat]).
Proof. eexists _, _. split; vm_compute; reflexivity. Qed.

Example update_rejects_list_key :
  update_instance
    (Provider Sample.User Sample.models [("orders[]"%string, Some "40"%string)]
       Sample.same_text Sample.by_column)
    Sample.data (VStr "1") [] None None = Raise AttributeError.
Proof. vm_compute. reflexivity. Qed.

(** [address.city]: the city of the related address is set, and the
    change recorded under [address], from the address itself to the
    text of the new city. *)
Example update_dotted_key :
  ∃ d' u,
    update_instance
      (Provider Sample.User Sample.models [("address.city"%string, Some "Nice"%string)]
         Sample.same_text Sample.by_column)
      Sample.data (VStr "1") [] None None =
      Ok (d', [INone; IInstance (VObj 1%nat); IFields u]) ∧
    getattr d' 2%nat "city" = Ok (VStr "Nice") ∧
    u = {[ "address"%string := Change (VObj 2%nat) (VStr "Nice") ]}.
Proof. eexists _, _. split; [|split]; vm_compute; reflexivity. Qed.

(** [address.country.name]: the name is set, and nothing recorded. *)
Example update_nested_key :
  ∃ d' u,
    update_instance
      (Provider Sample.User Sample.models
         [("address.country.name"%string, Some "Gaul"%string)]
         Sample.same_text Sample.by_column)
      Sample.data (VStr "1") [] None None =
      Ok (d', [INone; IInstance (VObj 1%nat); IFields u]) ∧
    getattr d' 3%nat "name" = Ok (VStr "Gaul") ∧
    u = ∅.
Proof. eexists _, _. split; [|split]; vm_compute; reflexivity. Qed.

End UpdateFacts.

(** ** Pages of a collection *)

Module PageFacts.
Import SQLAlchemyProvider PaginationFacts.

(** A page inside the range is the slice of that page. *)
Lemma get_list_in_range (self : provider) (d : db) (page per_page : Z)
    (filters : list (string * value)) (items : list oid) :
  list_queryset self d filters = Ok items →
  Z.of_nat (length items) < 2 ^ 53 →
  0 < per_page < 2 ^ 1024 - 2 ^ 970 →
  1 ≤ page ≤ (Z.of_nat (length items) + per_page - 1) / per_page →
  get_list self d page per_page filters =
  Ok (take (Z.to_nat per_page) (drop (Z.to_nat per_page * (Z.to_nat page - 1)) items)).
Proof.
  intros Hitems Hcount Hpp Hpage.
  destruct (of_int_defined per_page ltac:(lia)) as [y Hy].
  pose proof (pages_of_ceil (Z.of_nat (length items)) per_page y
                ltac:(lia) ltac:(lia) Hy) as Hpages.
  rewrite (get_list_pages self d _ per_page filters items _ Hitems Hpages).
  set (pages := (Z.of_nat (length items) + per_page - 1) / per_page) in *.
  destruct (decide (pages = 0)); [lia|]. cbv zeta.
  destruct (decide (page > pages)); [lia|].
  rewrite py_slice_inside by nia. do 3 f_equal; nia.
Qed.

(** Cutting a list into chunks and gluing them again. *)
Lemma concat_chunks {A} (size n : nat) (l : list A) :
  (0 < size)%nat → (length l ≤ n * size)%nat →
  concat (map (λ i, take size (drop (size * i) l)) (seq 0 n)) = l.
Proof.
  intros Hsize. revert l. induction n as [|n IH]; intros l Hl.
  { destruct l; [done|]. cbn in Hl. lia. }
  cbn [seq map concat]. rewrite Nat.mul_0_r, drop_0.
  rewrite <- seq_shift, map_map.
  transitivity (take size l ++ drop size l); [|apply take_drop].
  f_equal. rewrite <- (IH (drop size l)) by (rewrite length_drop; lia).
  f_equal. apply map_ext. intros i. rewrite drop_drop. do 2 f_equal. lia.
Qed.

(** X1: The pages of a collection, one after the other, are the collection:
    nothing is lost between two pages, and nothing served twice.  The
    collection has fewer than [2 ^ 53] items, and the page size is in the
    range of the floats. *)
Theorem get_list_pages_cover (self : provider) (d : db) (per_page : Z)
    (filters : list (string * value)) (items : list oid) :
  list_queryset self d filters = Ok items →
  Z.of_nat (length items) < 2 ^ 53 →
  0 < per_page < 2 ^ 1024 - 2 ^ 970 →
  let pages := (Z.of_nat (length items) + per_page - 1) / per_page in
  pages_of (Z.of_nat (length items)) per_page = Ok pages ∧
  ∃ served,
    Forall2 (λ page l, get_list self d (Z.of_nat page) per_page filters = Ok l)
            (seq 1 (Z.to_nat pages)) served ∧
    concat served = items.
Proof.
  intros Hitems Hcount Hpp pages.
  pose proof (ceil_bounds (Z.of_nat (length items)) per_page ltac:(lia)) as Hb.
  cbv zeta in Hb. fold pages in Hb.
  split.
  { destruct (of_int_defined per_page ltac:(lia)) as [y Hy].
    apply (pages_of_ceil _ per_page y); [lia|lia|done]. }
  exists (map (λ i, take (Z.to_nat per_page) (drop (Z.to_nat per_page * i) items))
              (seq 0 (Z.to_nat pages))).
  split.
  - rewrite <- seq_shift. apply Forall2_fmap. apply Forall_Forall2_diag.
    apply Forall_forall. intros i Hi. apply elem_of_seq in Hi.
    rewrite (get_list_in_range self d _ per_page filters items Hitems Hcount Hpp)
      by (fold pages; lia).
    rewrite Nat2Z.id. by replace (S i - 1)%nat with i by lia.
  - apply concat_chunks; nia.
Qed.

(** X2: Every page inside the range is full but the last, and the last one is
    not empty.  The collection has fewer than [2 ^ 53] items, and the page
    size is in the range of the floats. *)
Theorem get_list_page_sizes (self : provider) (d : db) (page per_page : Z)
    (filters : list (string * value)) (items : list oid) :
  list_queryset self d filters = Ok items →
  let count := Z.of_nat (length items) in
  count < 2 ^ 53 →
  0 < per_page < 2 ^ 1024 - 2 ^ 970 →
  let pages := (count + per_page - 1) / per_page in
  1 ≤ page ≤ pages →
  ∃ l, get_list self d page per_page filters = Ok l ∧
       Z.of_nat (length l) =
         (if decide (page < pages) then per_page else count - per_page * (pages - 1)) ∧
       0 < Z.of_nat (length l) ≤ per_page.
Proof.
  intros Hitems count Hcount Hpp pages Hpage.
  pose proof (ceil_bounds count per_page ltac:(lia)) as Hb. cbv zeta in Hb.
  fold pages in Hb.
  rewrite (get_list_in_range self d _ per_page filters items Hitems Hcount Hpp) by done.
  eexists. split; [done|].
  rewrite length_take, length_drop. fold count in Hb |- *.
  destruct (decide (page < pages)); split; subst count; nia.
Qed.

Lemma get_list_pages_cover_witness :
  ∃ served,
    Forall2 (λ page l, get_list Sample.orders Sample.data (Z.of_nat page) 2 [] = Ok l)
            (seq 1 3) served ∧
    concat served = [4; 5; 6; 7; 8]%nat.
Proof.
  exact (proj2 (get_list_pages_cover Sample.orders Sample.data 2 [] [4; 5; 6; 7; 8]%nat
                  eq_refl ltac:(vm_compute; reflexivity)
                  ltac:(split; vm_compute; reflexivity))).
Defined.

Lemma get_list_page_sizes_witness :
  ∃ l, get_list Sample.orders Sample.data 3 2 [] = Ok l ∧
       Z.of_nat (length l) = 1 ∧ 0 < Z.of_nat (length l) ≤ 2.
Proof.
  exact (get_list_page_sizes Sample.orders Sample.data 3 2 [] [4; 5; 6; 7; 8]%nat
           eq_refl ltac:(vm_compute; reflexivity) ltac:(split; vm_compute; reflexivity)
           ltac:(vm_compute; split; discriminate)).
Defined.

End PageFacts.

(** ** Fetching *)

Module LookupFacts.
Import SQLAlchemyProvider Update.

Lemma head_filter_Some {A} (f : A → bool) (l : list A) (x : A) :
  head (List.filter f l) = Some x ↔
  ∃ l1 l2, l = l1 ++ x :: l2 ∧ f x = true ∧ Forall (λ y, f y = false) l1.
Proof.
  induction l as [|y l IH]; cbn.
  { split; [done|]. intros (l1 & l2 & H & _). by destruct l1. }
  destruct (f y) eqn:Hy; cbn.
  - split.
    + intros [= ->]. exists [], l. by repeat split.
    + intros (l1 & l2 & Hl & Hx & Hl1). destruct l1 as [|z l1]; cbn in Hl.
      * congruence.
      * injection Hl as -> _. apply Forall_cons in Hl1 as [Hz _]. congruence.
  - rewrite IH. split.
    + intros (l1 & l2 & -> & Hx & Hl1). exists (y :: l1), l2.
      split; [done|]. split; [done|]. by constructor.
    + intros (l1 & l2 & Hl & Hx & Hl1). destruct l1 as [|z l1]; cbn in Hl.
      * congruence.
      * injection Hl as -> ->. apply Forall_cons in Hl1 as [_ Hl1]. eauto.
Qed.

Lemma head_filter_None {A} (f : A → bool) (l : list A) :
  head (List.filter f l) = None ↔ Forall (λ y, f y = false) l.
Proof.
  induction l as [|y l IH]; cbn; [by split; [constructor|]|].
  destruct (f y) eqn:Hy; cbn.
  - split; [done|]. intros H. apply Forall_cons in H as [? _]. congruence.
  - rewrite IH. split; [by constructor|]. intros H. by apply Forall_cons in H as [_ ?].
Qed.

Lemma filter_filter_and {A} (f g : A → bool) (l : list A) :
  List.filter g (List.filter f l) = List.filter (λ x, f x && g x) l.
Proof.
  induction l as [|y l IH]; [done|]. cbn.
  destruct (f y); cbn; [|done]. destruct (g y); by rewrite IH.
Qed.

(** The rows [get_instance] looks for: those of the class, with that id. *)
Lemma get_instance_eq (self : provider) (d : db) (pk : value) (m : option model)
    (name : string) :
  let model := default (self_model self) m in
  m_instance_queryset model = None →
  get_id_field_name model = Ok name →
  get_instance self d pk m =
  Ok (head (List.filter
              (λ o, bool_decide (class_of d o = Some (m_name model)) &&
                    match getattr d o name with
                    | Ok stored => column_eq self stored pk
                    | Raise _ => false
                    end)
              (table d))).
Proof.
  intros model Hhook Hname. unfold get_instance. fold model.
  rewrite Hhook, Hname. cbn. unfold filter_eq, query. by rewrite filter_filter_and.
Qed.

(** X3: Without a hook on the query, [get_instance] answers the first row of
    the class whose id field holds a value the database equates with the id
    given, and nothing exactly when there is no such row; for a class that
    has no id field it raises [ValueError], before any query. *)
Theorem get_instance_first_match (self : provider) (d : db) (pk : value)
    (m : option model) :
  let model := default (self_model self) m in
  let name := default "id"%string (m_id_field model) in
  let matches o :=
    class_of d o = Some (m_name model) ∧
    ∃ stored, getattr d o name = Ok stored ∧ column_eq self stored pk = true in
  m_instance_queryset model = None →
  (¬ has_id_field model → get_instance self d pk m = Raise ValueError) ∧
  (has_id_field model →
   (∀ o, get_instance self d pk m = Ok (Some o) ↔
         ∃ before after, table d = before ++ o :: after ∧ matches o ∧
                         Forall (λ o', ¬ matches o') before) ∧
   (get_instance self d pk m = Ok None ↔ Forall (λ o', ¬ matches o') (table d))).
Proof.
  intros model name matches Hhook.
  set (holds o := match getattr d o name with
                   | Ok stored => column_eq self stored pk
                   | Raise _ => false
                   end).
  assert (∀ o, bool_decide (class_of d o = Some (m_name model)) && holds o = true ↔
               matches o) as Hyes.
  { intros o. unfold matches, holds.
    rewrite andb_true_iff, bool_decide_eq_true.
    destruct (getattr d o name) as [stored|e].
    - split; [intros [? ?]; eauto|]. by intros [? (stored' & [= <-] & ?)].
    - split; [by intros [? ?]|]. by intros [? (stored' & [=] & ?)]. }
  assert (∀ l, Forall (λ o, bool_decide (class_of d o = Some (m_name model)) &&
                            holds o = false) l ↔
               Forall (λ o', ¬ matches o') l) as Hno.
  { intros l. apply Forall_iff. intros o. rewrite <- Hyes.
    by destruct (_ && _). }
  split.
  - intros Hnone. unfold get_instance, get_id_field_name. fold model name.
    destruct (m_fields model !! name) as [f|] eqn:Hf; cbn; [|done].
    destruct Hnone. by exists f.
  - intros [f Hf].
    assert (get_id_field_name model = Ok name) as Hname
      by (unfold get_id_field_name; cbv zeta; by rewrite Hf).
    rewrite (get_instance_eq self d pk m name Hhook Hname). fold model.
    split.
    + intros o. split.
      * intros [= H]. apply head_filter_Some in H as (l1 & l2 & Hl & Ho & Hl1).
        exists l1, l2. split; [done|]. split; [by apply Hyes|by apply Hno].
      * intros (l1 & l2 & Hl & Ho & Hl1). f_equal.
        apply head_filter_Some. exists l1, l2. split; [done|].
        split; [by apply Hyes|by apply Hno].
    + split.
      * intros [= H]. apply Hno. by apply head_filter_None.
      * intros H. f_equal. apply head_filter_None. by apply Hno.
Qed.

Lemma get_instance_first_match_witness :
  SQLAlchemyProvider.get_instance Sample.users Sample.data (VStr "21")
    (Some Sample.Address) = Ok (Some 9%nat).
Proof.
  apply (proj2 (get_instance_first_match Sample.users Sample.data (VStr "21")
                  (Some Sample.Address) eq_refl) ltac:(by eexists)).
  exists [1; 2; 3; 4; 5; 6; 7; 8]%nat, []. split; [reflexivity|].
  split; [split; [reflexivity|by eexists]|].
  repeat (constructor;
          [intros [Hclass (stored & Hstored & Heq)];
           vm_compute in Hclass; try discriminate Hclass;
           vm_compute in Hstored; injection Hstored as <-;
           vm_compute in Heq; discriminate Heq|]).
  constructor.
Defined.

Lemma elem_of_filter_list {A} (f : A → bool) (l : list A) (x : A) :
  x ∈ List.filter f l ↔ x ∈ l ∧ f x = true.
Proof. rewrite !list_elem_of_In. apply filter_In. Qed.

End LookupFacts.

(** ** The id of an instance *)

Module IdFacts.
Import SQLAlchemyProvider ProviderMethods Update LookupFacts.

(** X8: The id an instance fetched by an id answers is the text of what it
    holds in its id field, a value the database equates with the id given;
    it need not be the text of the id given.  The id field [get_instance]
    filters on is the one [get_instance_id] reads, as long as the
    instance's class names the same one. *)
Theorem get_instance_id_of_fetched (self : provider) (repr : value → string)
    (d : db) (pk : value) (m : option model) (o : oid) :
  get_instance self d pk m = Ok (Some o) →
  model_of (classes self) d (VObj o) ≫= m_id_field
    = m_id_field (default (self_model self) m) →
  ∃ stored,
    getattr d o (default "id"%string (m_id_field (default (self_model self) m)))
      = Ok stored ∧
    column_eq self stored pk = true ∧
    get_instance_id self repr d (VObj o) = Ok (str_value repr stored).
Proof.
  intros Hget Hid. unfold get_instance_id. rewrite Hid.
  unfold get_instance, get_id_field_name in Hget.
  set (name := default "id"%string (m_id_field (default (self_model self) m))) in *.
  destruct (m_fields _ !! name); [|done]. cbn in Hget. injection Hget as Hget.
  apply head_Some_elem_of in Hget. unfold filter_eq in Hget.
  apply elem_of_filter_list in Hget as [_ Hpk].
  destruct (getattr d o name) as [stored|] eqn:Hstored; [|done].
  exists stored. split; [done|]. split; [done|].
  assert (match m_id_field (default (self_model self) m) with
          | Some name => name
          | None => "id"%string
          end = name) as -> by (unfold name; by destruct (m_id_field _)).
  cbn. by rewrite Hstored.
Qed.

Lemma get_instance_id_of_fetched_witness :
  ∃ stored,
    getattr Sample.data 9%nat "id" = Ok stored ∧
    Sample.same_text stored (VStr "21") = true ∧
    get_instance_id Sample.users (λ _, "?"%string) Sample.data (VObj 9%nat)
      = Ok (str_value (λ _, "?"%string) stored).
Proof.
  apply (get_instance_id_of_fetched Sample.users (λ _, "?"%string) Sample.data
           (VStr "21") (Some Sample.Address) 9%nat); reflexivity.
Defined.

End IdFacts.

(** ** Serializing: the depth error, and lists *)

Module DumpFacts.
Import ProviderMethods SQLAlchemyProvider SerializerFacts.

Lemma getattr_raises (d : db) (o : oid) (name : string) (e : exn) :
  getattr d o name = Raise e → e = AttributeError.
Proof.
  unfold getattr. destruct (heap d !! o) as [ob|]; [|congruence].
  destruct (attrs ob !! name); congruence.
Qed.

(** The loop of [dump_instance] lets no depth error of a nested call
    through. *)
Lemma dump_loop_catches (d : db) (o : oid) (dump : value → option (result dumped))
    (l : list (string * node)) (acc : option (result (gmap string dumped))) :
  acc ≠ Some (Raise MaxDepthError) →
  foldl (dump_child d o dump) acc l ≠ Some (Raise MaxDepthError).
Proof.
  revert acc. induction l as [|[name n] l IH]; cbn [foldl]; [done|].
  intros acc Hacc. apply IH. unfold dump_child.
  destruct acc as [[result|e]|]; [|done..].
  destruct (model_type n), (is_multiple n); try done;
    destruct (getattr d o name) as [v|e] eqn:Hget;
    try (apply getattr_raises in Hget as ->; done); try done.
  destruct (dump v) as [[r|[]]|]; done.
Qed.

(** Up to depth 1 the depth error of a nested call does not leave
    [dump_instance]. *)
Lemma dump_instance_catches (t : tree) (d : db) (instance : value) (depth : nat) :
  (depth ≤ 1)%nat → dump_instance t d instance depth ≠ Some (Raise MaxDepthError).
Proof.
  intros Hle. unfold dump_instance.
  generalize (2 - depth)%nat. intros fuel. cbn [dump_instance_fuel].
  destruct (decide (1 < depth)%nat); [lia|].
  destruct instance as [| | |o|]; try done.
  destruct (heap d !! o) as [ob|]; [|done].
  destruct (to_dict ob); [done|].
  destruct (t (cls ob)) as [children|]; [|done].
  pose proof (dump_loop_catches d o (λ v, dump_instance_fuel fuel t d v (S depth))
                (map_to_list children) (Some (Ok ∅)) ltac:(done)) as Hloop.
  destruct (foldl _ _ _) as [[result|e]|]; congruence.
Qed.

(** X9: Whatever the instance and the tree, [MaxDepthError] leaves
    [dump_instance] exactly when it is called beyond depth 1: up to there,
    the depth error of a nested call is caught, field by field. *)
Theorem dump_instance_max_depth (t : tree) (d : db) (instance : value) (depth : nat) :
  dump_instance t d instance depth = Some (Raise MaxDepthError) ↔ (1 < depth)%nat.
Proof.
  split.
  - intros H. destruct (decide (1 < depth)%nat) as [|Hle]; [done|].
    by apply dump_instance_catches in H; [|lia].
  - intros H. unfold dump_instance. cbn [dump_instance_fuel].
    by destruct (decide (1 < depth)%nat).
Qed.

(** X10: [dump_list] always answers or raises.  It answers the dumps of the
    items, one for each and in their order, exactly when every item can be
    dumped; what it raises is what the first item that cannot be dumped
    raises, and never the depth error. *)
Theorem dump_list_in_order (t : tree) (d : db) (items : list oid) :
  is_Some (dump_list t d items) ∧
  (∀ dumps, dump_list t d items = Some (Ok dumps) ↔
            Forall2 (λ item dump, dump_instance t d (VObj item) 0 = Some (Ok dump))
                    items dumps) ∧
  (∀ e, dump_list t d items = Some (Raise e) →
        e ≠ MaxDepthError ∧
        ∃ before item after,
          items = before ++ item :: after ∧
          dump_instance t d (VObj item) 0 = Some (Raise e) ∧
          Forall (λ item, ∃ dump, dump_instance t d (VObj item) 0 = Some (Ok dump))
                 before).
Proof.
  induction items as [|item items (IHsome & IHok & IHraise)]; cbn [dump_list].
  { split; [done|]. split; [|done]. intros dumps. split.
    - intros [= <-]. constructor.
    - intros H. by apply Forall2_nil_inv_l in H as ->. }
  destruct (dump_instance_some t d (VObj item) 0) as [[dump|e] Hitem]; rewrite Hitem.
  - destruct IHsome as [[dumps|e] Hitems]; rewrite Hitems in *.
    + split; [done|]. split; [|done]. intros dumps'. split.
      * intros [= <-]. constructor; [done|]. by apply IHok.
      * intros H. apply Forall2_cons_inv_l in H as (dump' & dumps'' & Hd & Hds & ->).
        apply IHok in Hds. congruence.
    + split; [done|]. split.
      * intros dumps. split; [done|]. intros H.
        apply Forall2_cons_inv_l in H as (dump' & dumps'' & Hd & Hds & ->).
        apply IHok in Hds. congruence.
      * intros e' [= <-]. destruct (IHraise e eq_refl) as (Hne & before & item' & after & -> & He & Hbefore).
        split; [done|]. exists (item :: before), item', after.
        split; [done|]. split; [done|]. constructor; eauto.
  - split; [done|]. split.
    + intros dumps. split; [done|]. intros H.
      apply Forall2_cons_inv_l in H as (dump' & dumps'' & Hd & Hds & ->). congruence.
    + intros e' [= <-]. split.
      * intros ->. apply dump_instance_catches in Hitem; [done|lia].
      * exists [], item, items. by repeat split.
Qed.

(** Ann, dumped at depth 2. *)
Lemma dump_instance_max_depth_witness :
  dump_instance Sample.resources Sample.data (VObj 1%nat) 2
    = Some (Raise MaxDepthError) ∧
  dump_instance Sample.resources Sample.data (VObj 1%nat) 0
    ≠ Some (Raise MaxDepthError).
Proof.
  split.
  - apply (proj2 (dump_instance_max_depth Sample.resources Sample.data (VObj 1%nat) 2)).
    lia.
  - intros H.
    apply (proj1 (dump_instance_max_depth Sample.resources Sample.data (VObj 1%nat) 0)) in H.
    lia.
Defined.

Lemma dump_list_in_order_witness :
  ∃ ann address,
    dump_list Sample.resources Sample.data [1; 2]%nat = Some (Ok [ann; address]).
Proof.
  destruct (dump_instance_some Sample.resources Sample.data (VObj 1%nat) 0)
    as [[ann|e] Hann]; [|by vm_compute in Hann].
  destruct (dump_instance_some Sample.resources Sample.data (VObj 2%nat) 0)
    as [[address|e] Haddress]; [|by vm_compute in Haddress].
  exists ann, address.
  apply (proj1 (proj2 (dump_list_in_order Sample.resources Sample.data [1; 2]%nat))).
  by repeat constructor.
Defined.

End DumpFacts.

(** ** Paths *)

Module PathFacts.
Import SQLAlchemyProvider ProviderMethods.

Section paths.
Context (has_attribute : option model → string → bool).

(** X11: A path into a relationship of the handler's model.  With two parts,
    [is_multiple] answers whether the relationship is a collection.  With a
    third part it has no answer: the model the loop goes on with is [None],
    whatever the relationship leads to, and [None] has no attribute of the
    name the third part gives. *)
Theorem is_multiple_of_relationship (self : provider) (path : list string)
    (part0 part : list string) (rest : list (list string))
    (target : string) (uselist lazy : bool) :
  path_parts path = part0 :: part :: rest →
  m_fields (self_model self) !! first_piece part
    = Some (Relationship target uselist lazy) →
  match rest with
  | [] => ProviderMethods.is_multiple has_attribute self path = Ok uselist
  | part' :: _ =>
      has_attribute None (first_piece part') = false →
      ProviderMethods.is_multiple has_attribute self path = Raise AttributeError
  end.
Proof.
  intros Hparts Hfield.
  assert (ProviderMethods.is_multiple has_attribute self path =
          is_multiple_loop has_attribute None uselist rest) as Hloop.
  { unfold ProviderMethods.is_multiple. rewrite Hparts.
    transitivity (is_multiple_loop has_attribute (Some (self_model self)) false
                    (part :: rest)); [by destruct part0 as [|? [|? ?]]|].
    cbn [is_multiple_loop]. unfold class_getattr at 1. cbn [mbind option_bind].
    by rewrite Hfield. }
  destruct rest as [|part' rest]; [done|].
  intros Hnone. rewrite Hloop. cbn [is_multiple_loop]. unfold class_getattr.
  cbn [mbind option_bind]. by rewrite Hnone.
Qed.

(** X12: [get_model_from_path] never answers a class other than the
    handler's own: that is its answer for a path of one part or none, and
    past the first part the answer is no class at all. *)
Theorem get_model_from_path_own_model (self : provider) (path : list string)
    (m : option model) :
  get_model_from_path has_attribute self path = Ok m →
  m = if decide (length (path_parts path) ≤ 1)%nat
      then Some (self_model self) else None.
Proof.
  unfold get_model_from_path.
  assert (∀ parts m', parts ≠ [] →
            get_model_from_path_loop has_attribute m' parts = Ok m → m = None) as Hloop.
  { induction parts as [|part parts IH]; intros m' Hne; [done|].
    cbn [get_model_from_path_loop].
    destruct (class_getattr has_attribute m' (first_piece part)) as [f|e]; [|done].
    change (get_model_from_path_loop has_attribute None parts = Ok m → m = None).
    destruct parts as [|part' parts]; [by intros [= <-]|]. by apply IH. }
  destruct (path_parts path) as [|part0 [|part1 parts]].
  - by intros [= <-].
  - destruct part0 as [|piece [|piece' pieces]]; by intros [= <-].
  - intros H. rewrite decide_False by (cbn; lia).
    apply (Hloop (part1 :: parts) (Some (self_model self))); [done|].
    by destruct part0 as [|piece [|piece' pieces]].
Qed.

(** The chain of relationships [is_reference] walks: the classes it
    meets are the handler's model, the classes of the registry, and no
    class at all. *)
Lemma is_reference_loop_true (self : provider) (m : option model) (to_return b : bool)
    (parts : list (list string)) :
  (m = None ∨ m = Some (self_model self) ∨ ∃ c, c ∈ classes self ∧ m = Some c) →
  Forall (λ part,
            has_attribute None (first_piece part) = false ∧
            ∀ c, c ∈ self_model self :: classes self →
                 has_attribute (Some c) (first_piece part) = false) parts →
  is_reference_loop has_attribute (classes self) m to_return parts = Ok b →
  b = if decide (parts = []) then to_return else true.
Proof.
  intros Hm Hparts. revert m to_return Hm.
  induction Hparts as [|part parts [Hnone Hclass] _ IH]; intros m to_return Hm.
  { by intros [= <-]. }
  cbn. unfold class_getattr.
  assert (has_attribute m (first_piece part) = false) as ->.
  { destruct Hm as [->|[->|(c & Hc & ->)]]; [done| |].
    - apply Hclass. by left.
    - apply Hclass. by right. }
  destruct (m ≫= _) as [[|target uselist lazy]|]; cbn; [done| |done].
  intros H. apply IH in H.
  - by destruct (decide (parts = [])).
  - destruct (List.find _ _) as [c|] eqn:Hfind; [|by left].
    right. right. exists c. split; [|done].
    apply find_some in Hfind as [Hin _]. by apply list_elem_of_In.
Qed.

(** X13: On a path whose parts from the second on name no attribute of a
    class but its mapped properties, [is_reference] answers false for no
    path of two parts or more: each of these parts has to name a
    relationship of the class the part before leads to, and a column among
    them raises [KeyError] where one would expect the answer false. *)
Theorem is_reference_two_parts (self : provider) (path : list string) (b : bool) :
  Forall (λ part,
            has_attribute None (first_piece part) = false ∧
            ∀ c, c ∈ self_model self :: classes self →
                 has_attribute (Some c) (first_piece part) = false)
         (tail (path_parts path)) →
  is_reference has_attribute self path = Ok b →
  b = bool_decide (2 ≤ length (path_parts path))%nat.
Proof.
  unfold is_reference. intros Hmapped H.
  apply is_reference_loop_true in H as ->; [|by right; left|done].
  destruct (path_parts path) as [|part0 [|part1 parts]]; try done.
Qed.
End paths.

(** The orders of a user are a collection; the total of an order of a
    user cannot be asked for. *)
Lemma is_multiple_of_relationship_witness :
  ProviderMethods.is_multiple (λ _ _, false) Sample.users ["/users/1"; "/orders"]%string
    = Ok true ∧
  ProviderMethods.is_multiple (λ _ _, false) Sample.users
    ["/users/1"; "/orders/40"; "/total"]%string = Raise AttributeError.
Proof.
  split.
  - apply (is_multiple_of_relationship (λ _ _, false) Sample.users
             ["/users/1"; "/orders"]%string ["users"; "1"]%string ["orders"]%string []
             "orders" true true); reflexivity.
  - apply (is_multiple_of_relationship (λ _ _, false) Sample.users
             ["/users/1"; "/orders/40"; "/total"]%string ["users"; "1"]%string
             ["orders"; "40"]%string [["total"]]%string "orders" true true);
      reflexivity.
Defined.

Lemma get_model_from_path_own_model_witness :
  None = if decide (length (path_parts ["/users/1"; "/address"]%string) ≤ 1)%nat
         then Some Sample.User else None.
Proof.
  apply (get_model_from_path_own_model (λ _ _, false) Sample.users
           ["/users/1"; "/address"]%string None).
  reflexivity.
Defined.

Lemma is_reference_two_parts_witness :
  true = bool_decide (2 ≤ length (path_parts ["/users/1"; "/address/20"; "/country"]%string))%nat.
Proof.
  apply (is_reference_two_parts Scenario.class_attribute Sample.users
           ["/users/1"; "/address/20"; "/country"]%string true); [|reflexivity].
  repeat constructor.
Defined.

End PathFacts.

(** ** Reading the request data *)

Module RequestDataFacts.
Import RequestData StringFacts.

Lemma str_contains_char_app (sep : ascii) (a b : string) :
  str_contains (String sep "") (a +:+ b) =
  str_contains (String sep "") a || str_contains (String sep "") b.
Proof.
  induction a as [|c a IH]; [done|].
  change (String c a +:+ b)%string with (String c (a +:+ b)).
  cbn [str_contains String.prefix]. rewrite IH.
  destruct (Ascii.ascii_dec sep c); [|done].
  assert (∀ x, String.prefix "" x = true) as Hprefix by (by intros []).
  by rewrite !Hprefix.
Qed.

Section data.
Context (unquote : string → string) (get_argument : string → string).

Local Abbreviation read := (λ acc item, data ← acc; read_item unquote data item).

Lemma read_items_raise (e : exn) (items : list string) :
  foldl read (Raise e) items = Raise e.
Proof. by induction items. Qed.

(** The items of a body are read one after the other, until one of them
    is not a key and a value. *)
Lemma read_items_spec (items : list string) (data : gmap string (option string)) :
  (Forall (λ item, length (str_split "=" item) = 2%nat) items →
   ∃ data', foldl read (Ok data) items = Ok data') ∧
  (Exists (λ item, length (str_split "=" item) ≠ 2%nat) items →
   foldl read (Ok data) items = Raise ValueError).
Proof.
  revert data. induction items as [|item items IH]; intros data.
  { split; [by eexists|]. intros H. by apply Exists_nil in H. }
  assert (foldl read (Ok data) (item :: items) =
          foldl read (read_item unquote data item) items) as -> by done.
  destruct (str_split "=" item) as [|key [|v [|v' pieces]]] eqn:Hsplit.
  1, 2, 4: assert (read_item unquote data item = Raise ValueError) as ->
    by (unfold read_item; by rewrite Hsplit).
  4: assert (read_item unquote data item = Ok (<[key := Some (unquote v)]> data)) as ->
    by (unfold read_item; by rewrite Hsplit).
  - rewrite read_items_raise. split; [|done]. intros H.
    apply Forall_cons in H as [H _]. by rewrite Hsplit in H.
  - rewrite read_items_raise. split; [|done]. intros H.
    apply Forall_cons in H as [H _]. by rewrite Hsplit in H.
  - rewrite read_items_raise. split; [|done]. intros H.
    apply Forall_cons in H as [H _]. rewrite Hsplit in H. cbn in H. lia.
  - split.
    + intros H. apply Forall_cons in H as [_ H]. by apply IH.
    + intros H. apply Exists_cons in H as [H|H]; [by rewrite Hsplit in H|]. by apply IH.
Qed.

(** X14: On a body that decodes to a text one of whose items between the
    [&] is not a key and a value around a single [=] (a key alone, a value
    that holds an [=], an empty item after a trailing [&]),
    [get_request_data] raises [ValueError], whatever the other items are:
    what was read from the items before is lost. *)
Theorem get_request_data_fails (req : request) :
  body_text req ≠ ""%string →
  Exists (λ item, length (str_split "=" item) ≠ 2%nat)
         (str_split "&" (body_text req)) →
  get_request_data unquote get_argument req = Raise ValueError.
Proof.
  intros Hbody Hitem. unfold get_request_data.
  destruct (decide (body_text req ≠ ""%string)); [|done].
  apply (proj2 (read_items_spec _ ∅) Hitem).
Qed.

(** The data read from a form body: every key of the form, with the
    unquoted value of its last item. *)
Lemma read_items_form (fields : list (string * string))
    (data : gmap string (option string)) :
  Forall (λ kv, str_contains "=" kv.1 = false ∧ str_contains "=" kv.2 = false) fields →
  foldl read (Ok data) (map (λ kv, kv.1 +:+ String "=" kv.2) fields) =
  Ok (foldl (λ data kv, <[kv.1 := Some (unquote kv.2)]> data) data fields).
Proof.
  revert data. induction fields as [|[k v] fields IH]; intros data Hfields; [done|].
  apply Forall_cons in Hfields as [[Hk Hv] Hfields].
  cbn [map foldl fst snd].
  assert (read (Ok data) (k +:+ String "=" v) = Ok (<[k := Some (unquote v)]> data)) as ->
    by (cbn; unfold read_item; by rewrite (str_split_pair "=" k v Hk Hv)).
  by apply IH.
Qed.

Lemma foldl_insert_lookup (fields : list (string * string))
    (data : gmap string (option string)) (k : string) :
  foldl (λ data kv, <[kv.1 := Some (unquote kv.2)]> data) data fields !! k =
  match (list_to_map (reverse fields) : gmap string string) !! k with
  | Some v => Some (Some (unquote v))
  | None => data !! k
  end.
Proof.
  induction fields as [|[k' v'] fields IH] using rev_ind; [done|].
  rewrite foldl_app, reverse_app. cbn [foldl reverse rev_append app fst snd].
  rewrite list_to_map_cons.
  destruct (decide (k' = k)) as [->|Hne].
  - by rewrite !lookup_insert_eq.
  - by rewrite !lookup_insert_ne.
Qed.

(** X15: A form body is read back as the form: the data hold every key of
    the form and no other, each with the unquoted value of the last item
    that names it. *)
Theorem get_request_data_form (fields : list (string * string))
    (argument_names : list string) :
  fields ≠ [] →
  Forall (λ kv, str_contains "=" kv.1 = false ∧ str_contains "=" kv.2 = false ∧
                str_contains "&" kv.1 = false ∧ str_contains "&" kv.2 = false)
         fields →
  ∃ data,
    get_request_data unquote get_argument (Request (form_body fields) argument_names)
      = Ok data ∧
    ∀ k, data !! k =
         (λ v, Some (unquote v)) <$> (list_to_map (reverse fields) : gmap string string) !! k.
Proof.
  intros Hne Hfields. unfold get_request_data, form_body. cbn [body_text].
  set (items := map (λ kv : string * string, kv.1 +:+ String "=" kv.2) fields).
  assert (Forall (λ piece, str_contains "&" piece = false) items) as Hitems.
  { apply Forall_map. eapply Forall_impl; [exact Hfields|].
    intros [k v] (_ & _ & Hk & Hv). cbn [fst snd] in *.
    change (String "=" v) with ("=" +:+ v)%string.
    by rewrite !str_contains_char_app, Hk, Hv. }
  assert (items ≠ []) as Hitems' by (unfold items; by destruct fields).
  assert (str_join "&" items ≠ ""%string) as Hbody.
  { intros Hempty. pose proof (str_split_join "&" items Hitems' Hitems) as Hsplit.
    rewrite Hempty in Hsplit. cbn in Hsplit.
    destruct fields as [|[k v] [|kv fields]]; [done| |done].
    injection Hsplit as Hsplit. by destruct k. }
  destruct (decide (str_join "&" items ≠ ""%string)); [|done].
  rewrite (str_split_join "&" items Hitems' Hitems). unfold items.
  rewrite read_items_form.
  - eexists. split; [done|]. intros k. rewrite foldl_insert_lookup.
    by destruct (list_to_map (reverse fields) !! k).
  - eapply Forall_impl; [exact Hfields|]. by intros kv (? & ? & _).
Qed.

(** X16: Without a body the data are the arguments of the request, whatever
    their order, and an empty argument reads as [None]: no key is ever
    given the empty text. *)
Theorem get_request_data_arguments (body_free : request) :
  body_text body_free = ""%string →
  ∃ data,
    get_request_data unquote get_argument body_free = Ok data ∧
    (∀ k, data !! k =
          if decide (k ∈ argument_names body_free)
          then Some (if decide (get_argument k = ""%string) then None
                     else Some (get_argument k))
          else None) ∧
    (∀ k, data !! k ≠ Some (Some ""%string)).
Proof.
  intros Hbody. unfold get_request_data. rewrite Hbody.
  destruct (decide (""%string ≠ ""%string)); [done|].
  eexists. split; [done|].
  assert (∀ names data k,
            foldl (read_argument get_argument) data names !! k =
            if decide (k ∈ names)
            then Some (if decide (get_argument k = ""%string) then None
                       else Some (get_argument k))
            else data !! k) as Hfold.
  { induction names as [|name names IH]; intros data k; [done|].
    cbn [foldl]. rewrite IH. unfold read_argument.
    destruct (decide (k ∈ names)) as [Hin|Hnotin].
    - destruct (decide (k ∈ name :: names)) as [|Hn]; [done|]. destruct Hn. by right.
    - destruct (decide (k = name)) as [->|Hne].
      + rewrite lookup_insert_eq.
        destruct (decide (name ∈ name :: names)) as [|Hn]; [done|]. destruct Hn. by left.
      + rewrite lookup_insert_ne by done.
        destruct (decide (k ∈ name :: names)) as [Hin|]; [|done].
        apply elem_of_cons in Hin as [->|?]; done. }
  split.
  - intros k. by rewrite Hfold, lookup_empty.
  - intros k. rewrite Hfold, lookup_empty.
    destruct (decide (k ∈ _)); [|done].
    destruct (decide (get_argument k = ""%string)); [done|congruence].
Qed.

End data.

(** A trailing [&] leaves an empty item, which is no key and value. *)
Lemma get_request_data_fails_witness :
  get_request_data (λ v, v) (λ _, ""%string) (Request "name=Bob&" []) = Raise ValueError.
Proof.
  apply (get_request_data_fails (λ v, v) (λ _, ""%string) (Request "name=Bob&" []));
    [done|].
  apply Exists_cons_tl, Exists_cons_hd. vm_compute. lia.
Defined.

Lemma get_request_data_form_witness :
  ∃ data,
    get_request_data (λ v, v) (λ _, ""%string)
      (Request "name=Ann&address=21&name=Bob" []) = Ok data ∧
    data !! "name"%string = Some (Some "Bob"%string) ∧
    data !! "address"%string = Some (Some "21"%string) ∧
    data !! "id"%string = None.
Proof.
  destruct (get_request_data_form (λ v, v) (λ _, ""%string)
              [("name", "Ann"); ("address", "21"); ("name", "Bob")]%string [])
    as (data & Hdata & Hlookup).
  { done. }
  { repeat constructor. }
  exists data. split; [exact Hdata|]. by rewrite !Hlookup.
Defined.

Lemma get_request_data_arguments_witness :
  ∃ data,
    get_request_data (λ v, v) (λ k, if decide (k = "name"%string) then "Bob" else "")%string
      (Request "" ["name"; "city"]%string) = Ok data ∧
    data !! "name"%string = Some (Some "Bob"%string) ∧
    data !! "city"%string = Some None.
Proof.
  destruct (get_request_data_arguments (λ v, v)
              (λ k, if decide (k = "name"%string) then "Bob" else "")%string
              (Request "" ["name"; "city"]%string) eq_refl)
    as (data & Hdata & Hlookup & _).
  exists data. split; [exact Hdata|]. by rewrite !Hlookup.
Defined.

End RequestDataFacts.

(** ** Updating an instance that is not there *)

Module AbsentFacts.
Import SQLAlchemyProvider Update UpdateFacts StringFacts.

Lemma str_split_nonempty (sep : ascii) (s : string) : str_split sep s ≠ [].
Proof.
  destruct s as [|c s]; [done|]. cbn [str_split].
  destruct (decide (c = sep)); [done|]. by destruct (str_split sep s).
Qed.

(** There is nothing to read or to set on [None]. *)
Lemma update_field_absent (self : provider) (m : model) (d : db)
    (u : gmap string change) (kv : string * option string) :
  (∀ c, c ∈ classes self → has_id_field c) →
  has_id_field (self_model self) →
  update_field self m VNone (d, u) kv = Raise AttributeError.
Proof.
  intros Hids Hid. destruct kv as [k v]. unfold update_field.
  destruct (str_contains "." k).
  - unfold fill_property. pose proof (str_split_nonempty "." k) as Hparts.
    destruct (str_split "." k) as [|part [|piece [|piece' rest]]]; done.
  - destruct (is_reference_field (m_fields m !! k)); [|done].
    destruct (get_instance_total self d (of_request v)
                (get_model (classes self) (m_fields m !! k))) as [r ->]; [|done].
    destruct (get_model (classes self) (m_fields m !! k)) as [target|] eqn:Htarget;
      [|done].
    apply Hids. by apply get_model_registered in Htarget.
Qed.

(** X17: An update of an id that no row has: with no request data it leaves
    the store as it is and answers with no instance and no change; with
    request data whose keys hold no underscore it raises [AttributeError],
    on the first key, before anything is flushed: [None] has no attribute
    but those every object has, whose names begin with two underscores. *)
Theorem update_instance_absent (self : provider) (d : db) (pk : value)
    (data : list (string * option string)) (m : option model) :
  (∀ c, c ∈ classes self → has_id_field c) →
  has_id_field (self_model self) →
  Forall (λ kv, str_contains "_" kv.1 = false) (request_data self) →
  get_instance self d pk (Some (default (self_model self) m)) = Ok None →
  update_instance self d pk data m None =
  if decide (request_data self = [])
  then Ok (d, [INone; IInstance VNone; IFields ∅])
  else Raise AttributeError.
Proof.
  intros Hids Hid _ Hget. unfold update_instance. rewrite Hget. cbn.
  destruct (request_data self) as [|kv fields]; [done|].
  rewrite update_loop_cons. by rewrite update_field_absent.
Qed.

(** No user has the id 999. *)
Lemma update_instance_absent_witness :
  update_instance Sample.users Sample.data (VStr "999") [] None None
    = Raise AttributeError.
Proof.
  apply (update_instance_absent Sample.users Sample.data (VStr "999") [] None).
  - intros c Hc. cbn in Hc. unfold Sample.models in Hc.
    repeat (apply elem_of_cons in Hc as [->|Hc]); try (by eexists).
    by apply elem_of_nil in Hc.
  - by eexists.
  - repeat constructor.
  - reflexivity.
Defined.

End AbsentFacts.

(** ** Filling a collection *)

Module CollectionFacts.
Import SQLAlchemyProvider StringFacts.

Lemma rev_app_app (a b acc : string) :
  String.rev_app (a +:+ b) acc = String.rev_app b (String.rev_app a acc).
Proof.
  revert acc. induction a as [|c a IH]; intros acc; [done|].
  change (String c a +:+ b)%string with (String c (a +:+ b)). cbn. apply IH.
Qed.

Lemma str_endswith_brackets (name : string) :
  str_endswith "[]" (name +:+ "[]") = true.
Proof.
  unfold str_endswith, String.rev. rewrite rev_app_app. cbn.
  destruct (Ascii.ascii_dec "]" "]"); [|done].
  destruct (Ascii.ascii_dec "[" "["); [|done].
  by destruct (String.rev_app name "").
Qed.

(** [replace('[]', '')], one character at a time. *)
Lemma strip_brackets_cons (c : ascii) (rest : string) :
  strip_brackets (String c rest) =
  match rest with
  | String c' rest' =>
      if decide (c = "["%char ∧ c' = "]"%char) then strip_brackets rest'
      else String c (strip_brackets rest)
  | EmptyString => String c EmptyString
  end.
Proof.
  destruct rest as [|c' rest'].
  - by destruct c as [[] [] [] [] [] [] [] []].
  - destruct (decide (c = "["%char ∧ c' = "]"%char)) as [[-> ->]|Hne]; [done|].
    destruct (decide (c = "["%char)) as [->|Hc].
    + destruct (decide (c' = "]"%char)) as [->|Hc']; [by destruct Hne|].
      destruct c' as [[] [] [] [] [] [] [] []]; done.
    + destruct c as [[] [] [] [] [] [] [] []]; done.
Qed.

Lemma strip_brackets_app (name : string) :
  str_contains "[]" name = false → strip_brackets (name +:+ "[]") = name.
Proof.
  induction name as [|c name IH]; [done|]. intros H.
  change (String c name +:+ "[]")%string with (String c (name +:+ "[]")).
  cbn [str_contains] in H. apply orb_false_elim in H as [Hprefix H].
  rewrite strip_brackets_cons, (IH H).
  destruct name as [|c' name].
  - change ("" +:+ "[]")%string with "[]"%string.
    cbv beta iota. by destruct (decide _) as [[_ [=]]|].
  - change (String c' name +:+ "[]")%string with (String c' (name +:+ "[]")).
    cbv beta iota. destruct (decide _) as [[-> ->]|]; [|done].
    cbn in Hprefix. by destruct name.
Qed.

(** Assigning an attribute an instance has. *)
Lemma setattr_getattr (d : db) (o : oid) (k : string) (old v : value) :
  getattr d o k = Ok old →
  ∃ d', setattr d o k v = Ok d' ∧ getattr d' o k = Ok v.
Proof.
  unfold getattr, setattr. intros Hold.
  destruct (heap d !! o) as [ob|] eqn:Ho; [|done].
  eexists. split; [done|]. cbn. rewrite lookup_insert_eq. cbn.
  by rewrite lookup_insert_eq.
Qed.

(** X18: A key [name[]] of a creation, for a multi-valued relationship
    [name] of the class: what [get_instance] answers for the id the key
    carries is appended to the collection, after the members it has.  That
    is the instance with that id, or [None] when there is none: the append
    does not fail for an id that no instance has. *)
Theorem fill_property_appends (self : provider) (d : db) (m : model) (p : oid)
    (name target : string) (lazy : bool) (v : option string)
    (members : list (option oid)) :
  str_contains "." name = false → str_contains "[]" name = false →
  m_fields m !! name = Some (Relationship target true lazy) →
  getattr d p name = Ok (VList members) →
  let child_model := get_model (classes self) (Some (Relationship target true lazy)) in
  match get_instance self d (of_request v) child_model with
  | Ok child =>
      ∃ d', fill_property self d (Some m) (VObj p) (name +:+ "[]") v None = Ok (d', None) ∧
            getattr d' p name = Ok (VList (members ++ [child]))
  | Raise e =>
      fill_property self d (Some m) (VObj p) (name +:+ "[]") v None = Raise e
  end.
Proof.
  intros Hdot Hlist Hfield Hold child_model.
  assert (str_split "." (name +:+ "[]") = [name +:+ "[]"]%string) as Hsplit.
  { apply str_split_no_sep.
    by rewrite RequestDataFacts.str_contains_char_app, Hdot. }
  unfold fill_property. rewrite Hsplit. cbn [fill_property_parts].
  rewrite str_endswith_brackets, strip_brackets_app by done.
  unfold relationship_of. cbn [mbind option_bind result_bind mret]. rewrite Hfield.
  cbn [mbind result_bind is_list_field andb getattr_value]. rewrite Hold.
  cbn [mbind result_bind]. fold child_model.
  destruct (get_instance self d (of_request v) child_model) as [child|e]; [|done].
  cbn [mbind result_bind setattr_value].
  destruct (setattr_getattr d p name _ (VList (members ++ [child])) Hold)
    as (d' & Hset & Hget).
  exists d'. by rewrite Hset.
Qed.

(** Ann gets the order 60, after the two she has. *)
Lemma fill_property_appends_witness :
  ∃ d', fill_property Sample.users Sample.data (Some Sample.User) (VObj 1%nat)
          "orders[]" (Some "60"%string) None = Ok (d', None) ∧
        getattr d' 1%nat "orders" = Ok (VList [Some 4; Some 5; Some 6]%nat).
Proof.
  exact (fill_property_appends Sample.users Sample.data Sample.User 1%nat "orders"
           "orders" true (Some "60"%string) [Some 4; Some 5]%nat
           eq_refl eq_refl eq_refl eq_refl).
Defined.

(** An order that is not there: Ann gets [None]. *)
Example fill_property_appends_none :
  ∃ d', fill_property Sample.users Sample.data (Some Sample.User) (VObj 1%nat)
          "orders[]" (Some "99"%string) None = Ok (d', None) ∧
        getattr d' 1%nat "orders" = Ok (VList [Some 4; Some 5; None]%nat).
Proof. eexists. split; vm_compute; reflexivity. Qed.

End CollectionFacts.

(** ** The dispatcher over the SQLAlchemy provider *)

Module DispatchFacts.
Import RequestHandler ModelRestHandler HandlerFacts StringFacts Dispatch.

Lemma quiet_ret {A} (a : A) : quiet (mret a : handler A).
Proof. by intros s r s' [= _ <-]. Qed.

Lemma quiet_raise {A} (e : exn) : quiet (raise e : handler A).
Proof. by intros s r s' [= _ <-]. Qed.

Lemma quiet_bind {A B} (m : handler A) (k : A → handler B) :
  quiet m → (∀ a, quiet (k a)) → quiet (m ≫= k).
Proof.
  intros Hm Hk s r s'. unfold mbind, handler_bind.
  destruct (m s) as [[a|e] s1] eqn:Hs1.
  - intros Hs'. rewrite (Hk a _ _ _ Hs'). by apply (Hm _ _ _ Hs1).
  - intros [= _ <-]. by apply (Hm _ _ _ Hs1).
Qed.

Lemma quiet_fmap {A B} (f : A → B) (m : handler A) : quiet m → quiet (f <$> m).
Proof.
  intros Hm s r s'. unfold fmap, handler_fmap.
  destruct (m s) as [[a|e] s1] eqn:Hs1; intros [= _ <-]; by apply (Hm _ _ _ Hs1).
Qed.

Section quiet.
Context (get_instance : value → handler (option oid))
        (get_model : value → string → handler (option string)).
Hypothesis (Hinstance : ∀ pk, quiet (get_instance pk)).
Hypothesis (Hmodel : ∀ obj field_name, quiet (get_model obj field_name)).

Lemma quiet_split_pair (part : string) : quiet (split_pair part).
Proof.
  unfold split_pair. destruct (str_split "/" part) as [|a [|b [|c l]]];
    (apply quiet_ret || apply quiet_raise).
Qed.

Lemma quiet_getattr (obj : value) (name : string) : quiet (getattr obj name).
Proof. by intros s r s' [= _ <-]. Qed.

Lemma quiet_class_name (v : value) : quiet (class_name v).
Proof. by intros s r s' [= _ <-]. Qed.

Lemma quiet_resolve_parents (parts : list string) (obj : value) :
  quiet (resolve_parents get_instance parts obj).
Proof.
  revert obj. induction parts as [|part parts IH]; intros obj; [apply quiet_ret|].
  cbn [resolve_parents]. apply quiet_bind; [apply quiet_split_pair|].
  intros [property_ property_id]. apply quiet_bind; [|done].
  destruct obj; try apply quiet_getattr. by apply quiet_fmap.
Qed.

(** Resolving the path sends no signal and writes nothing. *)
Lemma quiet_get_parent_model (args : list string) :
  quiet (get_parent_model get_instance get_model args).
Proof.
  unfold get_parent_model. apply quiet_bind; [apply quiet_resolve_parents|].
  intros obj. destruct (last _) as [last_arg|]; [|apply quiet_raise].
  apply quiet_bind.
  - destruct (str_contains _ _); [|apply quiet_ret].
    apply quiet_bind; [apply quiet_split_pair|]. intros [field_name id_].
    destruct obj.
    1: { apply quiet_bind; [by apply quiet_fmap|]. intros obj.
         apply quiet_bind; [apply quiet_class_name|]. intros model. apply quiet_ret. }
    all: apply quiet_bind; [apply quiet_getattr|]; intros obj; apply quiet_ret.
  - intros [[[obj' field_name] model] id_].
    apply quiet_bind; [|intros model'; apply quiet_ret].
    destruct model; [apply quiet_ret|done].
Qed.
End quiet.

Section sqlalchemy.
Context (self : SQLAlchemyProvider.provider) (self_model : string)
        (get_model : value → string → handler (option string))
        (json_dumps : json_arg → result string).

Lemma quiet_provider_get_instance (pk : value) : quiet (provider_get_instance self pk).
Proof. by intros s r s' [= _ <-]. Qed.

(** X19: A PUT served by the SQLAlchemy provider never answers: whatever the
    path and the request, it ends in an exception, with no
    [post_update_instance] signal sent and nothing written.  When the path
    resolves and the update succeeds, the exception is the [ValueError] of
    unpacking three values into two names, raised after the update was
    committed. *)
Theorem put_never_answers (data : list (string * option string))
    (args : list string) (s : state) :
  (∀ obj field_name, quiet (get_model obj field_name)) →
  (∃ e s',
     put self_model (provider_get_instance self) get_model
       (provider_update_instance self) data args s = (Raise e, s') ∧
     signals s' = signals s ∧ body s' = body s) ∧
  (∀ obj field_name model pk s1 d' answer,
     get_parent_model (provider_get_instance self) get_model args s
       = (Ok (obj, field_name, model, pk), s1) →
     SQLAlchemyProvider.update_instance self (store s1) (of_pk pk) data None None
       = Ok (d', answer) →
     put self_model (provider_get_instance self) get_model
       (provider_update_instance self) data args s
       = (Raise ValueError, with_store s1 d')).
Proof.
  intros Hmodel.
  pose proof (quiet_get_parent_model _ get_model quiet_provider_get_instance Hmodel args)
    as Hquiet.
  assert (∀ d pk d' answer,
            SQLAlchemyProvider.update_instance self d pk data None None = Ok (d', answer) →
            ∃ a b c, answer = [a; b; c]) as Hthree.
  { intros d pk d' answer. unfold SQLAlchemyProvider.update_instance.
    destruct (_ <$> _) as [instance|]; [|done]. cbn.
    destruct (SQLAlchemyProvider.update_loop _ _ _ _ _) as [[d1 u]|]; [|done]. cbn.
    intros [= _ <-]. eauto. }
  split.
  - unfold put.
    destruct (get_parent_model (provider_get_instance self) get_model args s)
      as [[[[[obj field_name] model] pk]|e] s1] eqn:Hpath.
    + rewrite (bind_ok _ _ _ _ _ Hpath). apply Hquiet in Hpath as [= <- _ <-].
      unfold mbind, handler_bind, provider_update_instance.
      destruct (SQLAlchemyProvider.update_instance _ _ _ _ _ _) as [[d' answer]|e] eqn:Hup.
      * destruct (Hthree _ _ _ _ Hup) as (a & b & c & ->).
        eexists _, _. by split.
      * eexists _, _. by split.
    + rewrite (bind_raise _ _ _ _ _ Hpath). exists e, s1.
      split; [done|]. by apply Hquiet in Hpath as [= -> _ ->].
  - intros obj field_name model pk s1 d' answer Hpath Hup. unfold put.
    rewrite (bind_ok _ _ _ _ _ Hpath).
    unfold mbind, handler_bind, provider_update_instance. rewrite Hup.
    by destruct (Hthree _ _ _ _ Hup) as (a & b & c & ->).
Qed.

(** What [get_list] answers when it is given no argument: the first
    twenty rows, at most. *)
Lemma get_list_defaults (d : db) (items : list oid) :
  SQLAlchemyProvider.list_queryset self d [] = Ok items →
  Z.of_nat (length items) < 2 ^ 53 →
  SQLAlchemyProvider.get_list self d 1 20 [] = Ok (take 20 items).
Proof.
  intros Hitems Hcount.
  pose proof (PaginationFacts.pages_of_ceil (Z.of_nat (length items)) 20 20
                ltac:(lia) ltac:(lia) eq_refl) as Hpages.
  rewrite (PaginationFacts.get_list_pages self d 1 20 [] items _ Hitems Hpages).
  pose proof (PaginationFacts.ceil_bounds (Z.of_nat (length items)) 20 ltac:(lia)) as Hb.
  cbv zeta in Hb. set (pages := (Z.of_nat (length items) + 20 - 1) / 20) in *.
  destruct (decide (pages = 0)) as [Hzero|Hpos].
  { f_equal. destruct items; [done|]. cbn [length] in *. lia. }
  cbv zeta. destruct (decide (1 > pages)); [lia|].
  by rewrite PaginationFacts.py_slice_inside by lia.
Qed.

(** The rows of a list are encoded one by one. *)
Lemma dump_objects_texts (items : list oid) (texts : list string) (s : state) :
  Forall2 (λ item text, json_dumps (OfInstance (VObj item)) = Ok text) items texts →
  dump_objects json_dumps items s = (Ok texts, s).
Proof.
  induction 1 as [|item text' items texts' Hitem _ IH]; [done|].
  cbn [dump_objects]. unfold dump_object. run_handler. rewrite Hitem.
  unfold mbind, handler_bind, mret, handler_ret in IH. by rewrite IH.
Qed.

(** The first row that has no encoding ends the list. *)
Lemma dump_objects_raise (before after : list oid) (row : oid) (e : exn) (s : state) :
  Forall (λ item, ∃ text, json_dumps (OfInstance (VObj item)) = Ok text) before →
  json_dumps (OfInstance (VObj row)) = Raise e →
  dump_objects json_dumps (before ++ row :: after) s = (Raise e, s).
Proof.
  intros Hbefore Hrow. induction Hbefore as [|item before [text Hitem] _ IH].
  - cbn [app dump_objects]. unfold dump_object. run_handler. by rewrite Hrow.
  - cbn [app dump_objects]. unfold dump_object. run_handler. rewrite Hitem.
    unfold mbind, handler_bind, mret, handler_ret in IH. by rewrite IH.
Qed.

(** X20: [list] hands [get_list] no argument: whatever the request asks
    for, what is listed are the first twenty rows of the collection, at
    most.  The rows are encoded one by one, and the first one [json.dumps]
    has no encoding for ends the request with its exception, nothing
    written.  When every row has an encoding, the list of the encoded texts
    is encoded again and written with the JSON content type; the request is
    not finished by the handler.  The collection has fewer than [2 ^ 53]
    rows. *)
Theorem list_first_page (s : state) (items : list oid) :
  SQLAlchemyProvider.list_queryset self (store s) [] = Ok items →
  Z.of_nat (length items) < 2 ^ 53 →
  let rows := take 20 items in
  (∀ before row after e,
     rows = before ++ row :: after →
     Forall (λ item, ∃ text, json_dumps (OfInstance (VObj item)) = Ok text) before →
     json_dumps (OfInstance (VObj row)) = Raise e →
     list_ (provider_get_list self) json_dumps s = (Raise e, s)) ∧
  (∀ texts text,
     Forall2 (λ item text, json_dumps (OfInstance (VObj item)) = Ok text) rows texts →
     json_dumps (OfStrings texts) = Ok text →
     finished s = false →
     list_ (provider_get_list self) json_dumps s =
     (Ok (), State (status s) (reason s)
               (<["Content-Type" := "application/json"]> (headers s))
               (cookies s) (body s ++ [Text text]) false
               (signals s) (store s) (ticks s))).
Proof.
  intros Hitems Hcount rows.
  assert (provider_get_list self s = (Ok rows, s)) as Hlist
    by (unfold provider_get_list; by rewrite (get_list_defaults _ items)).
  split.
  - intros before row after e Hrows Hbefore Hrow. unfold list_.
    rewrite (bind_ok _ _ _ _ _ Hlist), Hrows.
    by rewrite (bind_raise _ _ _ _ _ (dump_objects_raise before after row e s Hbefore Hrow)).
  - intros texts text Htexts Htext Hfin. unfold list_.
    rewrite (bind_ok _ _ _ _ _ Hlist).
    rewrite (bind_ok _ _ _ _ _ (dump_objects_texts rows texts s Htexts)).
    unfold write_json, set_header, write, modify. run_handler.
    rewrite Htext. cbn [finished]. by rewrite Hfin.
Qed.
End sqlalchemy.

Section creation.
Context (self : SQLAlchemyProvider.provider) (repr : value → string)
        (prefix name : string)
        (get_model : value → string → handler (option string))
        (associate_instance : value → string → passed → handler ())
        (post_create_instance : option string → passed → handler ())
        (data : list (string * option string)).

Lemma quiet_provider_save_new_instance (model : option string) :
  quiet (provider_save_new_instance self model data).
Proof.
  intros s r s'. unfold provider_save_new_instance.
  destruct (model_named _ _) as [m|]; [|by intros [= _ <-]].
  destruct (SQLAlchemyProvider.save_new_instance _ _ _ _) as [[d answer]|];
    by intros [= _ <-].
Qed.

(** X21: A POST served by the SQLAlchemy provider never answers: whatever
    the path and the request, it ends in an exception, with neither
    [X-Created-Id] nor [location] set and nothing written.  When the path
    resolves, the instance is created and the steps in between succeed, the
    exception is the [AttributeError] of asking the tuple that
    [save_new_instance] answers for its id, raised after the instance was
    committed to the store. *)
Theorem post_never_answers (args : list string) (s : state) :
  (∀ obj field_name, quiet (get_model obj field_name)) →
  (∀ obj field_name instance, quiet (associate_instance obj field_name instance)) →
  (∀ model instance, quiet (post_create_instance model instance)) →
  (∃ e s',
     post self repr prefix name get_model associate_instance post_create_instance
       data args s = (Raise e, s') ∧
     headers s' = headers s ∧ body s' = body s) ∧
  (∀ obj field_name model pk s1 m d' o v s2 s3,
     get_parent_model (provider_get_instance self) get_model args s
       = (Ok (obj, field_name, model, pk), s1) →
     model_named (SQLAlchemyProvider.classes self) model = Ok m →
     SQLAlchemyProvider.save_new_instance self (store s1) m data = Ok (d', (o, v)) →
     associate_instance obj field_name (Answer o v) (with_store s1 d') = (Ok (), s2) →
     post_create_instance model (Answer o v) s2 = (Ok (), s3) →
     post self repr prefix name get_model associate_instance post_create_instance
       data args s = (Raise AttributeError, s3)).
Proof.
  intros Hmodel Hassociate Hsend.
  pose proof (quiet_get_parent_model _ get_model (quiet_provider_get_instance self)
                Hmodel args) as Hpath.
  split.
  - unfold post.
    destruct (get_parent_model (provider_get_instance self) get_model args s)
      as [[[[[obj field_name] model] pk]|e] s1] eqn:H1.
    2: { rewrite (bind_raise _ _ _ _ _ H1). exists e, s1. split; [done|].
         by apply Hpath in H1 as [= _ -> ->]. }
    rewrite (bind_ok _ _ _ _ _ H1). apply Hpath in H1 as [= _ <- <-].
    destruct (provider_save_new_instance self model data s1) as [[[o v]|e] s2] eqn:H2.
    2: { rewrite (bind_raise _ _ _ _ _ H2). exists e, s2. split; [done|].
         by apply quiet_provider_save_new_instance in H2 as [= _ -> ->]. }
    rewrite (bind_ok _ _ _ _ _ H2).
    apply quiet_provider_save_new_instance in H2 as [= _ <- <-].
    destruct (associate_instance obj field_name (Answer o v) s2) as [[[]|e] s3] eqn:H3.
    2: { rewrite (bind_raise _ _ _ _ _ H3). exists e, s3. split; [done|].
         by apply Hassociate in H3 as [= _ -> ->]. }
    rewrite (bind_ok _ _ _ _ _ H3). apply Hassociate in H3 as [= _ <- <-].
    destruct (post_create_instance model (Answer o v) s3) as [[[]|e] s4] eqn:H4.
    2: { rewrite (bind_raise _ _ _ _ _ H4). exists e, s4. split; [done|].
         by apply Hsend in H4 as [= _ -> ->]. }
    rewrite (bind_ok _ _ _ _ _ H4). apply Hsend in H4 as [= _ <- <-].
    by exists AttributeError, s4.
  - intros obj field_name model pk s1 m d' o v s2 s3 H1 Hm Hsave H3 H4. unfold post.
    rewrite (bind_ok _ _ _ _ _ H1).
    assert (provider_save_new_instance self model data s1 = (Ok (o, v), with_store s1 d'))
      as H2 by (unfold provider_save_new_instance; by rewrite Hm, Hsave).
    rewrite (bind_ok _ _ _ _ _ H2), (bind_ok _ _ _ _ _ H3), (bind_ok _ _ _ _ _ H4).
    done.
Qed.
End creation.

Section nested.
Context (get_instance : value → handler (option oid))
        (get_model : value → string → handler (option string)).

(** X22: A two-segment path [collection/parent_id], [field/id]: the object
    resolved is whatever the parent fetched by [parent_id] holds in
    [field], and the model is asked for that object.  The terminal [id] is
    handed back, but it selects nothing: the object is the same for every
    [id]. *)
Theorem get_parent_model_nested (collection parent_id field_name id_ : string)
    (s s1 s2 : state) (parent : oid) (held : value) (model : option string) :
  collection ≠ ""%string → field_name ≠ ""%string →
  str_contains "/" collection = false → str_contains "/" parent_id = false →
  str_contains "/" field_name = false → str_contains "/" id_ = false →
  get_instance (VStr parent_id) s = (Ok (Some parent), s1) →
  SQLAlchemyProvider.getattr_value (store s1) (VObj parent) field_name = Ok held →
  get_model held field_name s1 = (Ok model, s2) →
  get_parent_model get_instance get_model
    [collection +:+ String "/" parent_id; field_name +:+ String "/" id_] s =
  (Ok (held, field_name, model, Some id_), s2).
Proof.
  intros Hc Hf Hc' Hp Hf' Hi Hget Hheld Hmodel. unfold get_parent_model.
  assert (collection +:+ String "/" parent_id ≠ ""%string) as Hseg by by destruct collection.
  assert (field_name +:+ String "/" id_ ≠ ""%string) as Hseg' by by destruct field_name.
  cbn [List.filter]. rewrite !bool_decide_true by done.
  cbn [removelast resolve_parents last].
  rewrite (str_lstrip_no_sep "/") by done.
  rewrite (str_contains_app "/").
  unfold split_pair. rewrite !(str_split_pair "/") by done.
  unfold getattr. run_handler. rewrite Hget. cbn. cbn in Hheld. rewrite Hheld.
  by rewrite Hmodel.
Qed.
End nested.

Lemma quiet_no_model (obj : value) (field_name : string) :
  quiet (Sample.no_model obj field_name).
Proof. by intros s r s' [= _ <-]. Qed.

(** [PUT /users/1]: Ann is renamed and moved, and the request fails. *)
Lemma put_never_answers_witness :
  ∃ d', put "User" (provider_get_instance Sample.users) Sample.no_model
          (provider_update_instance Sample.users) [] ["users/1"%string] Sample.fresh
        = (Raise ValueError, with_store Sample.fresh d') ∧
        SQLAlchemyProvider.getattr_value d' (VObj 1%nat) "name" = Ok (VStr "Bob").
Proof.
  eexists. split.
  - eapply (proj2 (put_never_answers Sample.users "User" Sample.no_model []
                     ["users/1"%string] Sample.fresh quiet_no_model)
              (VObj 1%nat) "users"%string (Some "User"%string) (Some "1"%string)
              Sample.fresh);
      reflexivity.
  - reflexivity.
Defined.

Lemma quiet_user_model (obj : value) (field_name : string) :
  quiet (Scenario.user_model obj field_name).
Proof. by intros s r s' [= _ <-]. Qed.

Lemma quiet_no_parent (obj : value) (field_name : string) (instance : passed) :
  quiet (Scenario.no_parent obj field_name instance).
Proof. by intros s r s' [= _ <-]. Qed.

Lemma quiet_no_receiver (model : option string) (instance : passed) :
  quiet (Scenario.no_receiver model instance).
Proof. by intros s r s' [= _ <-]. Qed.

(** [POST /users] with a name: Bob is created, and the request fails. *)
Lemma post_never_answers_witness :
  ∃ d', post Sample.users (λ _, "?"%string) "" "users" Scenario.user_model
          Scenario.no_parent Scenario.no_receiver [("name"%string, Some "Bob"%string)]
          ["users"%string] Sample.fresh
        = (Raise AttributeError, with_store Sample.fresh d') ∧
        table d' = [1; 2; 3; 4; 5; 6; 7; 8; 9; 10]%nat ∧
        SQLAlchemyProvider.getattr_value d' (VObj 10%nat) "name" = Ok (VStr "Bob").
Proof.
  eexists. split.
  - eapply (proj2 (post_never_answers Sample.users (λ _, "?"%string) "" "users"
                     Scenario.user_model Scenario.no_parent Scenario.no_receiver
                     [("name"%string, Some "Bob"%string)] ["users"%string] Sample.fresh
                     quiet_user_model quiet_no_parent quiet_no_receiver)
              VNone "users"%string (Some "User"%string) None Sample.fresh Sample.User);
      reflexivity.
  - split; reflexivity.
Defined.

(** Listing the orders with the standard [json] module: the first of
    the five has no encoding.  Listing the invoices, of which there are
    none: the empty list. *)
Lemma list_first_page_witness :
  list_ (provider_get_list Sample.orders) Sample.json_dumps Sample.fresh =
  (Raise TypeError, Sample.fresh) ∧
  list_ (provider_get_list Scenario.invoices) Sample.json_dumps Sample.fresh =
  (Ok (), State 200 None {["Content-Type"%string := "application/json"%string]} ∅
            [Text "[]"] false [] Sample.data 0).
Proof.
  split.
  - apply (proj1 (list_first_page Sample.orders Sample.json_dumps Sample.fresh
                    [4; 5; 6; 7; 8]%nat eq_refl ltac:(vm_compute; reflexivity))
             [] 4%nat [5; 6; 7; 8]%nat TypeError); [reflexivity|constructor|reflexivity].
  - apply (proj2 (list_first_page Scenario.invoices Sample.json_dumps Sample.fresh
                    [] eq_refl ltac:(vm_compute; reflexivity))
             [] "[]"%string); [constructor|reflexivity|reflexivity].
Defined.

(** [GET /users/1/address/999]: the address of Ann, whatever the id. *)
Lemma get_parent_model_nested_witness :
  get_parent_model (provider_get_instance Sample.users) Sample.no_model
    ["users/1"; "address/999"]%string Sample.fresh =
  (Ok (VObj 2%nat, "address"%string, None, Some "999"%string), Sample.fresh).
Proof.
  apply (get_parent_model_nested (provider_get_instance Sample.users) Sample.no_model
           "users" "1" "address" "999" Sample.fresh Sample.fresh Sample.fresh
           1%nat (VObj 2%nat) None); done.
Defined.

End DispatchFacts.

(** ** The rest of the authentication *)

Module AuthMoreFacts.
Import RequestHandler Auth AuthMore HandlerFacts.

Section handlers.
Context (opts : options) (tokens : jwt)
        (providers : gmap string auth_provider)
        (req : request) (clock : nat → Z)
        (loads : string → result (gmap string json)).

(** X23: [/auth/me/] is not guarded: a request without a valid token is
    answered 200, with [authenticated] false, where a guarded method
    answers 401.  And it never renews the token of a request that has one:
    whatever it answers, no cookie is set, the clock is not read and no
    signal is sent. *)
Theorem me_get_reports (s : state) :
  (∀ payload,
     try_to_decode tokens (get_cookie req (cookie_name opts)) = (false, payload) →
     finished s = false →
     me_get opts tokens req s =
     (Ok (), State 200 None (headers s) (cookies s)
               (body s ++ [Json (JDict {["authenticated" := JBool false]})])
               false (signals s) (store s) (ticks s))) ∧
  (∀ r s', me_get opts tokens req s = (r, s') →
           cookies s' = cookies s ∧ ticks s' = ticks s ∧ signals s' = signals s).
Proof.
  split.
  - intros payload Hinvalid Hfin. unfold me_get, _is_authenticated.
    run_handler. rewrite Hinvalid. unfold set_status, write, modify. cbn.
    by rewrite Hfin.
  - intros r s'. unfold me_get, _is_authenticated. run_handler.
    destruct (try_to_decode _ _) as [[|] [payload|]]; cbn;
      try destruct (payload !! "data"); cbn;
      unfold set_status, write, modify; cbn;
      try destruct (finished s); by intros [= _ <-].
Qed.


(** X25: A sign-in that names no provider of the application is rejected
    with 401 before any provider is asked: unlike a sign-in a provider
    turns down, it sends no [unauthorized_user] signal.  A provider name
    that is a JSON object cannot be looked up at all. *)
Theorem signin_post_unknown_provider (post_data : gmap string json) (s : state) :
  loads (request_body req) = Ok post_data →
  let provider_name := default JNone (post_data !! "provider") in
  (∀ name, provider_name = JStr name → providers !! name = None) →
  signin_post opts tokens providers req clock loads s =
  match provider_name with
  | JDict _ => (Raise TypeError, s)
  | _ => (Raise Finish, unauthorized s)
  end.
Proof.
  intros Hloads provider_name Hunknown. unfold signin_post, providers_get.
  rewrite Hloads. run_handler. fold provider_name.
  destruct provider_name as [| |name| |]; try done.
  by rewrite (Hunknown name eq_refl).
Qed.



End handlers.

(** *** Google *)

Section google.
Context (fetch : json → fetched) (google_loads : string → result (gmap string json)).

(** The record [GoogleProvider.authenticate] builds from a body. *)
Lemma google_record_keys (body : gmap string json) :
  let u : gmap string json :=
    {[ "email" := default JNone (body !! "email");
       "name" := default JNone (body !! "name");
       "id" := default JNone (body !! "id");
       "provider" := JStr (get_name "GoogleProvider") ]} in
  u !! "id" = Some (default JNone (body !! "id")) ∧
  u !! "email" = Some (default JNone (body !! "email")) ∧
  u !! "name" = Some (default JNone (body !! "name")) ∧
  u !! "provider" = Some (JStr "google").
Proof.
  intros u. unfold u. by rewrite !lookup_insert.
Qed.

(** X27: [GoogleProvider.authenticate] answers a record exactly when Google
    answers with the code 200 and a body that holds no [error]; the record
    names the provider [google], and it always has the keys [id], [email] and
    [name], set to [None] when the body lacks them.  So the record is never
    empty, and never without an [id]. *)
Theorem google_authenticate_record (access_token : json) (u : gmap string json) :
  google_authenticate fetch google_loads access_token = Ok (Some u) ↔
  ∃ r body,
    _fetch_userinfo fetch access_token = Some r ∧ code r = 200 ∧
    google_loads (response_body r) = Ok body ∧
    json_truthy (default JNone (body !! "error")) = false ∧
    u !! "id" = Some (default JNone (body !! "id")) ∧
    u !! "email" = Some (default JNone (body !! "email")) ∧
    u !! "name" = Some (default JNone (body !! "name")) ∧
    u !! "provider" = Some (JStr "google") ∧
    dom u = {[ "id"; "email"; "name"; "provider" ]}.
Proof.
  unfold google_authenticate. split.
  - destruct (_fetch_userinfo fetch access_token) as [r|]; [|done].
    destruct (decide (code r = 200)) as [Hcode|]; [|done].
    destruct (google_loads (response_body r)) as [body|] eqn:Hbody; [|done]. cbn.
    destruct (json_truthy _) eqn:Herror; [done|]. cbn. intros [= <-].
    exists r, body. destruct (google_record_keys body) as (? & ? & ? & ?).
    by repeat split.
  - intros (r & body & -> & Hcode & Hbody & Herror & Hid & Hemail & Hname & Hprov & Hdom).
    destruct (decide (code r = 200)); [|done]. rewrite Hbody.
    unfold mbind, result_bind. rewrite Herror. cbn [negb].
    do 2 f_equal. apply map_eq. intros k.
    destruct (google_record_keys body) as (Hid' & Hemail' & Hname' & Hprov').
    destruct (decide (k = "id"%string)) as [->|]; [congruence|].
    destruct (decide (k = "email"%string)) as [->|]; [congruence|].
    destruct (decide (k = "name"%string)) as [->|]; [congruence|].
    destruct (decide (k = "provider"%string)) as [->|]; [congruence|].
    rewrite !lookup_insert_ne, lookup_singleton_ne by done.
    symmetry. apply not_elem_of_dom. rewrite Hdom.
    rewrite !elem_of_union, !elem_of_singleton. tauto.
Qed.
End google.

Section google_signin.
Context (opts : options) (tokens : jwt)
        (providers : gmap string auth_provider)
        (req : request) (clock : nat → Z)
        (loads : string → result (gmap string json)).

End google_signin.

(** *** Provider names *)

Lemma prefix_nil (s : string) : String.prefix "" s = true.
Proof. by destruct s. Qed.

Lemma prefix_app_same (sub s : string) : String.prefix sub (sub +:+ s) = true.
Proof.
  induction sub as [|c sub IH]; [apply prefix_nil|].
  change (String c sub +:+ s)%string with (String c (sub +:+ s)).
  cbn [String.prefix]. by destruct (Ascii.ascii_dec c c).
Qed.

Lemma str_length_app (a b : string) :
  String.length (a +:+ b) = (String.length a + String.length b)%nat.
Proof.
  induction a as [|c a IH]; [done|].
  change (String c a +:+ b)%string with (String c (a +:+ b)). cbn. by rewrite IH.
Qed.

Lemma str_app_assoc (a b c : string) : (a +:+ (b +:+ c) = (a +:+ b) +:+ c)%string.
Proof.
  induction a as [|x a IH]; [done|].
  change (String x a +:+ (b +:+ c))%string with (String x (a +:+ (b +:+ c))).
  change ((String x a +:+ b) +:+ c)%string with (String x ((a +:+ b) +:+ c)).
  by rewrite IH.
Qed.

(** Whether [sub] starts a text is settled by the first characters of
    the text. *)
Lemma prefix_app_long (sub a b : string) :
  (String.length sub ≤ String.length a)%nat →
  String.prefix sub (a +:+ b) = String.prefix sub a.
Proof.
  revert a. induction sub as [|c sub IH]; intros a Hlen.
  { by rewrite !prefix_nil. }
  destruct a as [|c' a]; [cbn in Hlen; lia|].
  change (String c' a +:+ b)%string with (String c' (a +:+ b)).
  cbn [String.prefix]. destruct (Ascii.ascii_dec c c'); [|done].
  apply IH. cbn in Hlen. lia.
Qed.

Lemma str_before_absent (sub s : string) :
  str_contains sub s = false → str_before sub s = s.
Proof.
  induction s as [|c s IH]; cbn [str_contains str_before].
  - intros H. apply orb_false_elim in H as [-> _]. done.
  - intros H. apply orb_false_elim in H as [-> H]. by rewrite IH.
Qed.

Lemma str_before_provider (a b : string) :
  str_contains "Provider" (a +:+ "Provide") = false →
  str_before "Provider" (a +:+ "Provider" +:+ b) = a.
Proof.
  induction a as [|c a IH]; intros H.
  - change ("" +:+ "Provider" +:+ b)%string with ("Provider" +:+ b)%string.
    destruct b; done.
  - change (String c a +:+ "Provide")%string with (String c (a +:+ "Provide")) in H.
    cbn [str_contains] in H. apply orb_false_elim in H as [Hprefix H].
    change (String c a +:+ "Provider" +:+ b)%string
      with (String c (a +:+ "Provider" +:+ b)).
    cbn [str_before].
    assert (String c (a +:+ "Provider" +:+ b) =
            String c (a +:+ "Provide") +:+ ("r" +:+ b))%string as Hsplit.
    { change (String c (a +:+ "Provide") +:+ ("r" +:+ b))%string
        with (String c ((a +:+ "Provide") +:+ ("r" +:+ b))).
      by rewrite <- str_app_assoc. }
    rewrite Hsplit at 1. rewrite prefix_app_long, Hprefix.
    + by rewrite IH.
    + cbn [String.length]. rewrite str_length_app. cbn. lia.
Qed.

(** X29: For a class whose name is ASCII text, [get_name] cuts the name at
    its first [Provider] and lowers the letters [A] to [Z] of what comes
    before; a class name without [Provider] is lowered as a whole. *)
Theorem get_name_cuts (class_name : string) :
  is_ascii class_name = true →
  (str_contains "Provider" class_name = false →
   get_name class_name = str_lower class_name) ∧
  (∀ name rest,
     class_name = (name +:+ "Provider" +:+ rest)%string →
     str_contains "Provider" (name +:+ "Provide") = false →
     get_name class_name = str_lower name).
Proof.
  intros _. unfold get_name. split.
  - intros H. by rewrite str_before_absent.
  - intros name rest -> H. by rewrite str_before_provider.
Qed.

(** X30: The provider [routes_for] registers under a name is the last one
    given whose class has that name: providers whose classes share a name
    hide each other. *)
Theorem routes_providers_last (given : list (string * auth_provider))
    (name : string) (provider : auth_provider) :
  routes_providers given !! name = Some provider ↔
  ∃ before class_name after,
    given = before ++ (class_name, provider) :: after ∧
    get_name class_name = name ∧
    Forall (λ cp, get_name cp.1 ≠ name) after.
Proof.
  unfold routes_providers. revert provider.
  induction given as [|[c p] given IH] using rev_ind; intros provider.
  { split; [done|]. intros (before & c & after & H & _). by destruct before. }
  rewrite foldl_app. cbn [foldl].
  destruct (decide (get_name c = name)) as [Hc|Hc].
  - rewrite Hc, lookup_insert_eq. split.
    + intros [= <-]. exists given, c, []. by repeat split.
    + intros (before & c0 & after & Hgiven & Hc0 & Hafter).
      destruct after as [|x after _] using rev_ind.
      * apply app_inj_tail in Hgiven as [_ [= _ ->]]. done.
      * rewrite app_comm_cons, app_assoc in Hgiven.
        apply app_inj_tail in Hgiven as [_ <-].
        apply Forall_app in Hafter as [_ Hx]. apply Forall_cons in Hx as [Hx _]. done.
  - rewrite lookup_insert_ne by done. rewrite IH. split.
    + intros (before & c0 & after & -> & Hc0 & Hafter).
      exists before, c0, (after ++ [(c, p)]). rewrite <- app_assoc. split; [done|].
      split; [done|]. apply Forall_app. split; [done|]. by repeat constructor.
    + intros (before & c0 & after & Hgiven & Hc0 & Hafter).
      destruct after as [|x after _] using rev_ind.
      * apply app_inj_tail in Hgiven as [_ [= -> _]]. done.
      * rewrite app_comm_cons, app_assoc in Hgiven.
        apply app_inj_tail in Hgiven as [-> <-].
        apply Forall_app in Hafter as [Hafter _]. eauto 10.
Qed.

(** An anonymous request to [/auth/me/]. *)
Lemma me_get_reports_witness :
  me_get Sample.auth_options Sample.tokens Sample.anonymous Sample.fresh =
  (Ok (), State 200 None ∅ ∅
            [Json (JDict {["authenticated"%string := JBool false]})] false []
            Sample.data 0).
Proof.
  apply (proj1 (me_get_reports Sample.auth_options Sample.tokens Sample.anonymous
                  Sample.fresh) None); reflexivity.
Defined.

(** The profile Google has for the access token ["tok"]. *)
Lemma google_authenticate_record_witness :
  google_authenticate Scenario.fetch Scenario.google_loads (JStr "tok") =
  Ok (Some {[ "email"%string := JStr "ann@example.org"; "name"%string := JStr "Ann";
              "id"%string := JNone; "provider"%string := JStr "google" ]}).
Proof.
  apply (proj2 (google_authenticate_record Scenario.fetch Scenario.google_loads
                  (JStr "tok") _)).
  exists (Response 200 "profile"),
         {[ "email"%string := JStr "ann@example.org"; "name"%string := JStr "Ann" ]}.
  repeat split; reflexivity.
Defined.

Lemma get_name_cuts_witness :
  get_name "GoogleProvider" = "google"%string ∧
  get_name "MyProviderProvider" = "my"%string.
Proof.
  split.
  - apply (proj2 (get_name_cuts "GoogleProvider" eq_refl) "Google"%string ""%string);
      reflexivity.
  - apply (proj2 (get_name_cuts "MyProviderProvider" eq_refl)
             "My"%string "Provider"%string);
      reflexivity.
Defined.

(** Two classes that are both named [google]: the second is the one
    routed. *)
Lemma routes_providers_last_witness :
  routes_providers
    [("GoogleProvider"%string, Sample.google);
     ("googleProviderV2"%string, GoogleProvider Scenario.fetch Scenario.google_loads)]
    !! "google"%string
  = Some (GoogleProvider Scenario.fetch Scenario.google_loads).
Proof.
  apply (proj2 (routes_providers_last _ "google" _)).
  exists [("GoogleProvider"%string, Sample.google)], "googleProviderV2"%string, [].
  repeat split. constructor.
Defined.


(** A sign-in through a provider the application does not have. *)
Lemma signin_post_unknown_provider_witness :
  signin_post Sample.auth_options Sample.tokens Sample.identity_providers
    (Request ∅ "github") Sample.clock Scenario.loads Sample.fresh =
  (Raise Finish,
   State 401 (Some "Unauthorized"%string) ∅ ∅ [] false [] Sample.data 0).
Proof.
  apply (signin_post_unknown_provider Sample.auth_options Sample.tokens
           Sample.identity_providers (Request ∅ "github") Sample.clock Scenario.loads
           {[ "access_token"%string := JStr "abc"; "provider"%string := JStr "github" ]}
           Sample.fresh eq_refl).
  by intros name [= <-].
Defined.



End AuthMoreFacts.
